(** * profile.py: the crawl, filter and download pipeline

    A shallow embedding of [code/profile.py] (the profile downloader for
    Kemono and Coomer) and the properties of its pagination walker, post
    filter, file naming and per-post download.

    Conventions of the embedding.
    - A Python [str] is a [string]; one character of the [string] stands
      for one code point, so the text covered is the Latin-1 range.
    - Python integers are [Z].
    - A Python exception is a constructor of [exn]; code that can raise
      returns a [result].
    - The file system, the requests sent and the lines printed are the
      fields of one [world] that is threaded through the script.
    - What the libraries compute from a URL or from an HTML document
      ([urljoin], [urlparse], the [BeautifulSoup] queries) is taken as
      given: the URL functions, the remote site and the parser are the
      fields of the class [Env], and a parsed document is the record of
      the answers to the queries that the script asks.  The URL
      functions may refuse a string, as [urlparse] does with a
      [ValueError].
    - The post folders that the script makes are kept by their paths.
      What else the operating system decides is taken as given too:
      whether a path that is not the path of a folder made is there all
      the same (another spelling, an ancestor, an entry of a folder),
      and whether it refuses to make a directory or to open a file (a
      name that is too long, a null character, ...).
    - The reading of the configuration file and of the profile URL is
      left out: [main] starts from a configuration and a URL. *)

From Stdlib Require Import ZArith Ascii String List Lia.
From stdpp Require Import gmap strings pretty list.

Open Scope Z_scope.

(** ** Exceptions and results *)

Inductive exn : Type :=
| RequestException      (* requests.exceptions.RequestException *)
| ChunkedEncodingError  (* a subclass of RequestException *)
| TypeError
| KeyError
| IndexError
| ValueError
| AttributeError
| NameError
| OSError.              (* FileNotFoundError, FileExistsError, IsADirectoryError *)

(** [except requests.exceptions.RequestException] also catches the
    subclass. *)
Definition is_RequestException (e : exn) : bool :=
  match e with
  | RequestException | ChunkedEncodingError => true
  | _ => false
  end.

Inductive result (A : Type) : Type :=
| Ok (a : A)
| Raise (e : exn).
Arguments Ok {A} a.
Arguments Raise {A} e.

Definition rbind {A B} (r : result A) (k : A -> result B) : result B :=
  match r with
  | Ok a => k a
  | Raise e => Raise e
  end.

Notation "x <-? r ; k" := (rbind r (fun x => k))
  (at level 100, r at next level, right associativity).

(** ** Python string operations used by the script *)

Module PyStr.

(** [s[:n]] *)
Fixpoint take (n : nat) (s : string) : string :=
  match n, s with
  | S n', String c s' => String c (take n' s')
  | _, _ => ""
  end.

(** [s[n:]] *)
Fixpoint drop (n : nat) (s : string) : string :=
  match n, s with
  | S n', String _ s' => drop n' s'
  | _, _ => s
  end.

(** [s.startswith(p)] *)
Fixpoint startswith (p s : string) : bool :=
  match p, s with
  | "", _ => true
  | String a p', String b s' => Ascii.eqb a b && startswith p' s'
  | String _ _, "" => false
  end.

(** [s.find(sep)]: the least index at which [sep] occurs. *)
Fixpoint find (sep s : string) : option nat :=
  if startswith sep s then Some 0%nat
  else match s with
       | "" => None
       | String _ s' => S <$> find sep s'
       end.

(** [sep in s] *)
Definition contains (sep s : string) : bool :=
  bool_decide (is_Some (find sep s)).

(** [s.split(sep)] for a non-empty [sep]: cut at the occurrences of
    [sep], from the left, without overlap.  Each cut removes at least
    one character, so the length of [s] is fuel enough. *)
Fixpoint split_go (fuel : nat) (sep s : string) : list string :=
  match fuel with
  | O => [s]
  | S fuel' =>
      match find sep s with
      | None => [s]
      | Some i => take i s :: split_go fuel' sep (drop (i + String.length sep) s)
      end
  end.

Definition split (sep s : string) : list string :=
  split_go (String.length s) sep s.

(** [str.isspace] on one character, for the Latin-1 range. *)
Definition isspace (c : ascii) : bool :=
  let n := nat_of_ascii c in
  ((9 <=? n) && (n <=? 13) || (28 <=? n) && (n <=? 32)
   || (n =? 133) || (n =? 160))%nat.

Fixpoint lstrip (s : string) : string :=
  match s with
  | String c s' => if isspace c then lstrip s' else s
  | "" => ""
  end.

(** [s.rstrip()]: the characters kept are those followed by a character
    that is not a space, or that are not spaces themselves. *)
Fixpoint rstrip (s : string) : string :=
  match s with
  | "" => ""
  | String c s' =>
      match rstrip s' with
      | "" => if isspace c then "" else String c ""
      | r => String c r
      end
  end.

(** [s.strip()] *)
Definition strip (s : string) : string := rstrip (lstrip s).

Definition isdigit (c : ascii) : bool :=
  let n := nat_of_ascii c in ((48 <=? n) && (n <=? 57))%nat.

Definition digit_value (c : ascii) : Z := Z.of_nat (nat_of_ascii c) - 48.

(** The digits of a decimal literal: a digit, then digits, each
    optionally preceded by one underscore.  [acc] is the value read so
    far and [after_digit] tells whether the last character was a
    digit. *)
Fixpoint int_digits (s : string) (acc : Z) (after_digit : bool) : option Z :=
  match s with
  | "" => if after_digit then Some acc else None
  | String c s' =>
      if isdigit c then int_digits s' (10 * acc + digit_value c) true
      else if Ascii.eqb c "_" && after_digit then int_digits s' acc false
      else None
  end.

(** The white space that [int] accepts around a literal: the six ASCII
    characters of C's [isspace] and, of the Latin-1 range, the next-line
    and the no-break-space characters.  The separators of codes 28 to
    31, which [str.strip] removes, are not among them. *)
Definition int_isspace (c : ascii) : bool :=
  let n := nat_of_ascii c in
  ((9 <=? n) && (n <=? 13) || (n =? 32) || (n =? 133) || (n =? 160))%nat.

Fixpoint int_lstrip (s : string) : string :=
  match s with
  | String c s' => if int_isspace c then int_lstrip s' else s
  | "" => ""
  end.

Fixpoint int_rstrip (s : string) : string :=
  match s with
  | "" => ""
  | String c s' =>
      match int_rstrip s' with
      | "" => if int_isspace c then "" else String c ""
      | r => String c r
      end
  end.

(** The default of [sys.int_max_str_digits]: a decimal literal with
    more digits is refused. *)
Definition max_str_digits : nat := 4300.

Fixpoint count_digits (s : string) : nat :=
  match s with
  | "" => 0
  | String c s' => ((if isdigit c then 1 else 0) + count_digits s')%nat
  end.

(** The literal after the sign. *)
Definition int_unsigned (d : string) : result Z :=
  match int_digits d 0 false with
  | Some n => if (max_str_digits <? count_digits d)%nat then Raise ValueError else Ok n
  | None => Raise ValueError
  end.

(** [int(s)] in base ten: surrounding white space, an optional sign,
    digits, at most [max_str_digits] of them.  Anything else is a
    [ValueError]. *)
Definition int (s : string) : result Z :=
  match int_rstrip (int_lstrip s) with
  | String "-" d => n <-? int_unsigned d; Ok (- n)
  | String "+" d => int_unsigned d
  | d => int_unsigned d
  end.

(** [str(n)].  The script writes page offsets, which stay below the
    total that [int] has read, and duplicate counters, which are at most
    the number of entries of a folder plus one: the refusal that [str]
    has for numbers of more than [max_str_digits] digits is out of
    their reach. *)
Definition str (n : Z) : string := pretty n.

(** [sep.join(l)] *)
Fixpoint join (sep : string) (l : list string) : string :=
  match l with
  | [] => ""
  | [x] => x
  | x :: l' => x +:+ sep +:+ join sep l'
  end.

(** [l[i]] on a list, with Python's [IndexError]. *)
Definition index {A} (l : list A) (i : nat) : result A :=
  match l !! i with
  | Some x => Ok x
  | None => Raise IndexError
  end.

(** [l[-1]] *)
Definition index_last {A} (l : list A) : result A :=
  match List.rev l with
  | x :: _ => Ok x
  | [] => Raise IndexError
  end.

End PyStr.

(** ** File names (lines 49-70) *)

(** The character class of the regular expression in
    [sanitize_filename]: less-than, greater-than, colon, double quote (code
    34), slash, backslash, vertical bar, question mark and star. *)
Definition forbidden_chars : list ascii :=
  ["<"; ">"; ":"; "034"; "/"; "\"; "|"; "?"; "*"]%char.

Definition in_class (cls : list ascii) (c : ascii) : bool :=
  existsb (Ascii.eqb c) cls.

(** [re.sub(cls, repl, s)] for a pattern that is one character class:
    every character of the class is replaced by [repl]. *)
Fixpoint re_sub_class (cls : list ascii) (repl : string) (s : string) : string :=
  match s with
  | "" => ""
  | String c s' =>
      (if in_class cls c then repl else String c "") +:+ re_sub_class cls repl s'
  end.

Definition sanitize_filename (filename : string) : string :=
  let filename := re_sub_class forbidden_chars "_" filename in
  PyStr.take 255 filename.


(** ** os.path, POSIX flavour *)

Module OsPath.

(** [p.rfind(c)] for a single character: [None] stands for -1. *)
Fixpoint rfind (c : ascii) (p : string) : option nat :=
  match p with
  | "" => None
  | String a p' =>
      match rfind c p' with
      | Some i => Some (S i)
      | None => if Ascii.eqb a c then Some 0%nat else None
      end
  end.

Definition rfind_index (c : ascii) (p : string) : Z :=
  match rfind c p with
  | Some i => Z.of_nat i
  | None => -1
  end.

(** [os.path.basename(p)]: [p[p.rfind('/') + 1:]]. *)
Definition basename (p : string) : string :=
  PyStr.drop (Z.to_nat (rfind_index "/" p + 1)) p.

(** The loop of [genericpath._splitext] that skips the leading dots of
    the last component: it answers [true] when a character other than
    a dot stands between [filenameIndex] and [dotIndex]. *)
Fixpoint has_stem (steps : nat) (p : string) (filenameIndex : nat) : bool :=
  match steps with
  | O => false
  | S steps' =>
      match String.get filenameIndex p with
      | Some c =>
          if Ascii.eqb c "." then has_stem steps' p (S filenameIndex) else true
      | None => true
      end
  end.

(** [os.path.splitext(p)] *)
Definition splitext (p : string) : string * string :=
  let sepIndex := rfind_index "/" p in
  let dotIndex := rfind_index "." p in
  if (dotIndex >? sepIndex)
     && has_stem (Z.to_nat (dotIndex - (sepIndex + 1))) p (Z.to_nat (sepIndex + 1))
  then (PyStr.take (Z.to_nat dotIndex) p, PyStr.drop (Z.to_nat dotIndex) p)
  else (p, "").

Definition endswith_sep (p : string) : bool :=
  match rfind "/" p with
  | Some i => (S i =? String.length p)%nat
  | None => false
  end.

(** One step of [os.path.join]: an absolute component restarts the
    path, otherwise it is appended after a separator. *)
Definition join2 (path b : string) : string :=
  if PyStr.startswith "/" b then b
  else if String.eqb path "" || endswith_sep path then path +:+ b
  else path +:+ "/" +:+ b.

(** [os.path.join(a, *p)] *)
Definition join (a : string) (p : list string) : string :=
  fold_left join2 p a.

End OsPath.

(** ** The post folder as [ensure_unique_filename] and the download
       loops see it

    A folder is the finite map of the names [n] for which
    [os.path.exists(os.path.join(path, n))] holds, to what the name
    denotes there.  The names handed to the file system by the script
    are sanitized, so they hold no separator.  A directory answers for
    the empty name and for the names of one and two dots, which is why
    [new_folder] is not empty. *)

Inductive entry : Type :=
| Directory
| File (data : string).

Definition path_exists (d : gmap string entry) (name : string) : bool :=
  bool_decide (is_Some (d !! name)).

Definition new_folder : gmap string entry :=
  {[ "" := Directory; "." := Directory; ".." := Directory ]}.

(** [f"{base}_duplicate{counter}{ext}"] *)
Definition duplicate_name (base : string) (counter : Z) (ext : string) : string :=
  base +:+ "_duplicate" +:+ PyStr.str counter +:+ ext.

(** The [while] loop of [ensure_unique_filename].  The names tried are
    pairwise distinct, so the loop leaves after at most as many rounds
    as the folder has names, plus one: [fuel] counts the rounds. *)
Fixpoint unique_loop (fuel : nat) (d : gmap string entry)
    (base ext : string) (counter : Z) (new_filename : string) : string :=
  match fuel with
  | O => new_filename
  | S fuel' =>
      if path_exists d new_filename
      then unique_loop fuel' d base ext (counter + 1) (duplicate_name base counter ext)
      else new_filename
  end.

Definition ensure_unique_filename (d : gmap string entry) (filename : string) : string :=
  let '(base, ext) := OsPath.splitext filename in
  let counter := 1 in
  let new_filename := filename in
  unique_loop (S (size d)) d base ext counter new_filename.

(** ** Documents

    A tag of a parsed document, and the answers of a document to the
    [find] and [find_all] queries of the script. *)

Record tag : Type := Tag {
  attrs : list (string * string);
  text : string
}.

(** [tag[key]] *)
Definition attr (t : tag) (key : string) : result string :=
  match List.find (fun kv => String.eqb (fst kv) key) (attrs t) with
  | Some kv => Ok (snd kv)
  | None => Raise KeyError
  end.

(** A post card of a listing page. *)
Record post_card : Type := PostCard {
  card_a : option tag;            (* find('a') *)
  card_header : option tag;       (* find('header', class_='post-card__header') *)
  card_attachments : option tag;  (* the div whose string mentions attachments *)
  card_time : option tag;         (* find('time') *)
  card_image : option tag         (* find('img', class_='post-card__image') *)
}.

Record listing_doc : Type := ListingDoc {
  small : option tag;             (* find('small') *)
  post_cards : list post_card     (* find_all('article', class_='post-card post-card--preview') *)
}.

Record post_doc : Type := PostDoc {
  user_name : option tag;         (* find('a', class_='post__user-name') *)
  og_image : option tag;          (* find('meta', property='og:image') *)
  meta_id : option tag;           (* find('meta', attrs={'name': 'id'}) *)
  title_spans : option (list tag);(* the spans of find('h1', class_='post__title') *)
  file_thumbs : list tag;         (* find_all('a', class_='fileThumb') *)
  attachment_links : list tag;    (* find_all('a', class_='post__attachment-link') *)
  info_html : string -> string * option exn
    (* the text that lines 94-160 of save_post_info write for this
       document under a given title, and the exception that interrupts
       the writing, if one does *)
}.

(** What a GET answers once [raise_for_status] has run: a body, or a
    request exception ([chunked] tells which). *)
Inductive response : Type :=
| Body (data : string)
| Fails (chunked : bool).

Definition exn_of_failure (chunked : bool) : exn :=
  if chunked then ChunkedEncodingError else RequestException.

(** Why the operating system refuses to make a directory or to open a
    file for writing. *)
Inductive refusal : Type :=
| RefusedByOS      (* OSError: a component that is too long or that is
                      there already, no room, no permission, ... *)
| RefusedNul.      (* ValueError: embedded null byte *)

Definition exn_of_refusal (r : refusal) : exn :=
  match r with
  | RefusedByOS => OSError
  | RefusedNul => ValueError
  end.

(** The libraries, the remote site and the operating system.

    [urljoin] and [urlparse] raise a [ValueError] on some strings (an
    unbalanced bracket in the host, for one): [None] stands for that.
    The operating system resolves paths, so a path may be there under
    another spelling, as an ancestor of a folder or as an entry of one:
    [fs_finds] tells, for the folders that have been made, whether
    [os.path.exists] holds of a path that is not the path of one of
    them.  [makedirs_refused] and [open_refused] tell why
    [os.makedirs] fails on a path that is not there, and why [open]
    fails on the path of a file to write. *)
Class Env : Type := {
  urljoin : string -> string -> option string;
  url_netloc : string -> string;          (* urlparse(u).netloc *)
  url_path : string -> option string;     (* urlparse(u).path *)
  url_query_f : string -> option (option string);
                                 (* parse_qs(urlparse(u).query).get('f', [None])[0] *)
  remote : string -> response;            (* session.get(u) and raise_for_status *)
  listing_soup : string -> listing_doc;   (* BeautifulSoup on a listing page *)
  post_soup : string -> post_doc;         (* BeautifulSoup on a post page *)
  fs_finds : gmap string (gmap string entry) -> string -> bool;
  makedirs_refused : string -> option refusal;
  open_refused : string -> option refusal
}.

(** The value of a call that raises a [ValueError] where the library
    answers [None]. *)
Definition parsed {A} (o : option A) : result A :=
  match o with
  | Some a => Ok a
  | None => Raise ValueError
  end.

(** ** Posts and configuration *)

Record post_info : Type := PostInfo {
  link : string;
  title : string;
  attachments : string;
  date : string;
  image : string
}.

Record config : Type := Config {
  both : bool;
  files_only : bool;
  no_files : bool;
  save_info_txt : bool;
  download_attachments : bool;
  download_videos : bool
}.

#[global] Instance post_info_eq_dec : EqDecision post_info.
Proof. solve_decision. Defined.

(** ** The world of a run *)

Inductive message : Type :=
| MsgFailedPage (page_number : Z)       (* Failed to retrieve page ... *)
| MsgFolderExists (post_path : string)  (* Folder already exists, skipping download: ... *)
| MsgFailedImage (url : string)         (* Failed to download image ... *)
| MsgFailedAttachment (url : string)    (* Failed to download attachment ... *)
| MsgFailedVideo (url : string)         (* Failed to download video ... *)
| MsgPostDownloaded (url : string)      (* Post content from ... successfully downloaded! *)
| MsgChunkedEncodingError               (* ChunkedEncodingError occurred: ... *)
| MsgRequestException                   (* RequestException occurred: ... *)
| MsgSummary (posts : nat).             (* Information from ... posts saved ... *)

Record world : Type := World {
  folders : gmap string (gmap string entry);  (* the post folders, by path *)
  index_file : option (list post_info);       (* posts_info.txt *)
  requests : list string;                     (* the URLs requested, oldest first *)
  printed : list message                      (* the lines printed, oldest first *)
}.

Definition print (m : message) (w : world) : world :=
  {| folders := folders w; index_file := index_file w;
     requests := requests w; printed := printed w ++ [m] |}.

Definition log_request (url : string) (w : world) : world :=
  {| folders := folders w; index_file := index_file w;
     requests := requests w ++ [url]; printed := printed w |}.

Definition set_folder (post_path : string) (d : gmap string entry) (w : world) : world :=
  {| folders := <[post_path := d]> (folders w); index_file := index_file w;
     requests := requests w; printed := printed w |}.

(** The folder at [post_path]; the script only looks into folders that
    it has made. *)
Definition folder_at (post_path : string) (w : world) : gmap string entry :=
  default ∅ (folders w !! post_path).

(** The world once [data] has been written under [name] in the folder
    at [post_path]. *)
Definition put_file (post_path name data : string) (w : world) : world :=
  set_folder post_path (<[name := File data]> (folder_at post_path w)) w.

(** Code that reads and changes the world and may raise. *)
Definition M (A : Type) : Type := world -> result A * world.

Definition ret {A} (a : A) : M A := fun w => (Ok a, w).

Definition raise {A} (e : exn) : M A := fun w => (Raise e, w).

Definition bind {A B} (m : M A) (k : A -> M B) : M B :=
  fun w =>
    match m w with
    | (Ok a, w') => k a w'
    | (Raise e, w') => (Raise e, w')
    end.

Definition lift {A} (r : result A) : M A := fun w => (r, w).

Definition act (f : world -> world) : M unit := fun w => (Ok tt, f w).

(** [os.path.exists(post_path)]: the path is the path of a folder that
    has been made, or the operating system finds it. *)
Definition path_there `{E : Env} (post_path : string) (w : world) : bool :=
  bool_decide (is_Some (folders w !! post_path)) || fs_finds (folders w) post_path.

(** [open(os.path.join(post_path, name), mode)] followed by the write.
    The [open] fails when the folder is not there, when the name
    denotes a directory and when the operating system refuses the
    path. *)
Definition write_file `{E : Env} (post_path name data : string) : M unit :=
  fun w =>
    match folders w !! post_path with
    | Some d =>
        match d !! name with
        | Some Directory => (Raise OSError, w)
        | _ =>
            match open_refused (OsPath.join2 post_path name) with
            | Some r => (Raise (exn_of_refusal r), w)
            | None => (Ok tt, put_file post_path name data w)
            end
        end
    | None => (Raise OSError, w)
    end.

(** [os.makedirs(post_path)]; it fails when the path is there and when
    the operating system refuses it. *)
Definition makedirs `{E : Env} (post_path : string) : M unit :=
  fun w =>
    if path_there post_path w
    then (Raise OSError, w)
    else match makedirs_refused post_path with
         | Some r => (Raise (exn_of_refusal r), w)
         | None => (Ok tt, set_folder post_path new_folder w)
         end.

(** [try: m  except <class>: handler], for the exceptions [catches]
    accepts. *)
Definition try_except {A} (m : M A) (catches : exn -> bool) (handler : exn -> M A) : M A :=
  fun w =>
    match m w with
    | (Raise e, w') => if catches e then handler e w' else (Raise e, w')
    | ok => ok
    end.

Notation "'do' x <- m ; k" := (bind m (fun x => k))
  (at level 10, x name, m at level 100, k at level 200).
Notation "m ;; k" := (bind m (fun _ => k))
  (at level 100, k at level 200, right associativity).

Section Script.

Context {E : Env}.

(** [session.get(url, ...)], [raise_for_status()] and the body. *)
Definition fetch (url : string) : M string :=
  fun w =>
    match remote url with
    | Body data => (Ok data, log_request url w)
    | Fails chunked => (Raise (exn_of_failure chunked), log_request url w)
    end.

(** *** Listing pages (lines 24-47) *)

Definition extract_post_info (card : post_card) (base_url : string) : result post_info :=
  link <-? match card_a card with
           | Some a => href <-? attr a "href"; parsed (urljoin base_url href)
           | None => Raise TypeError
           end;
  title <-? match card_header card with
            | Some h => Ok (PyStr.strip (text h))
            | None => Raise AttributeError
            end;
  let attachments := match card_attachments card with
                     | Some div => PyStr.strip (text div)
                     | None => "No attachments"
                     end in
  date <-? match card_time card with
           | Some t => attr t "datetime"
           | None => Ok "No date available"
           end;
  image <-? match card_image card with
            | Some img => src <-? attr img "src"; parsed (urljoin base_url src)
            | None => Ok "No image available"
            end;
  Ok {| link := link; title := title; attachments := attachments;
        date := date; image := image |}.

(** [None] is Python's [None]. *)
Definition get_total_posts (soup : listing_doc) : result (option Z) :=
  match small soup with
  | Some total_posts_text =>
      piece <-? PyStr.index (PyStr.split " of " (PyStr.strip (text total_posts_text))) 1;
      total_posts <-? PyStr.int piece;
      Ok (Some total_posts)
  | None => Ok None
  end.

(** *** File names from URLs (lines 65-70) *)

Definition get_filename_from_url (url : string) : result string :=
  filename <-? parsed (url_query_f url);
  filename <-? match filename with
               | Some f =>
                   if String.eqb f ""
                   then path <-? parsed (url_path url); Ok (OsPath.basename path)
                   else Ok f
               | None => path <-? parsed (url_path url); Ok (OsPath.basename path)
               end;
  Ok (sanitize_filename filename).

(** *** The pagination loop (lines 273-307) *)

(** The variables of the loop.  [total_pages] is unbound ([None])
    until the first page has been read. *)
Record walker : Type := Walker {
  page_number : Z;
  total_pages : option Z;
  all_posts : list post_info
}.

Definition walker_start : walker :=
  {| page_number := 0; total_pages := None; all_posts := [] |}.

Definition page_url (base_url : string) (page_number : Z) : string :=
  base_url +:+ "?o=" +:+ PyStr.str (page_number * 50).

(** Python's truth value of [total_posts]. *)
Definition truthy (total_posts : option Z) : bool :=
  match total_posts with
  | Some n => negb (n =? 0)
  | None => false
  end.

(** Lines 288-291. *)
Definition pages_of_total (total_posts : option Z) : Z :=
  match total_posts with
  | Some n => if truthy total_posts then (n + 49) / 50 else 1
  | None => 1
  end.

(** Lines 297-299: the posts are appended one by one, so an exception
    leaves the ones appended before it. *)
Fixpoint append_cards (cards : list post_card) (base_url : string)
    (all_posts : list post_info) : result unit * list post_info :=
  match cards with
  | [] => (Ok tt, all_posts)
  | card :: cards' =>
      match extract_post_info card base_url with
      | Ok post_info => append_cards cards' base_url (all_posts ++ [post_info])
      | Raise e => (Raise e, all_posts)
      end
  end.

Inductive flow : Type := Break | Continue.

(** The body of the [try] (lines 282-304). *)
Definition walk_try (base_url : string) (v : walker) (w : world)
    : result flow * walker * world :=
  match fetch (page_url base_url (page_number v)) w with
  | (Raise e, w') => (Raise e, v, w')
  | (Ok html, w') =>
      let soup := listing_soup html in
      let total :=
        if page_number v =? 0
        then total_posts <-? get_total_posts soup;
             Ok (Some (pages_of_total total_posts))
        else Ok (total_pages v) in
      match total with
      | Raise e => (Raise e, v, w')
      | Ok total_pages' =>
          let v1 := {| page_number := page_number v; total_pages := total_pages';
                       all_posts := all_posts v |} in
          match post_cards soup with
          | [] => (Ok Break, v1, w')
          | cards =>
              let '(r, posts) := append_cards cards base_url (all_posts v1) in
              let v2 := {| page_number := page_number v1; total_pages := total_pages v1;
                           all_posts := posts |} in
              match r, total_pages v2 with
              | Raise e, _ => (Raise e, v2, w')
              | Ok _, None => (Raise NameError, v2, w')
              | Ok _, Some tp =>
                  if page_number v2 >=? tp - 1 then (Ok Break, v2, w')
                  else (Ok Continue,
                        {| page_number := page_number v2 + 1;
                           total_pages := total_pages v2;
                           all_posts := all_posts v2 |}, w')
              end
          end
      end
  end.

(** One round of the [while True]: the [try] and its [except]. *)
Definition walk_round (base_url : string) (v : walker) (w : world)
    : result flow * walker * world :=
  match walk_try base_url v w with
  | (Raise e, v', w') =>
      if is_RequestException e
      then (Ok Break, v', print (MsgFailedPage (page_number v')) w')
      else (Raise e, v', w')
  | ok => ok
  end.

(** The loop; [None] when [fuel] rounds were not enough. *)
Fixpoint walk_loop (fuel : nat) (base_url : string) (v : walker) (w : world)
    : option (result unit * walker * world) :=
  match fuel with
  | O => None
  | S fuel' =>
      match walk_round base_url v w with
      | (Ok Continue, v', w') => walk_loop fuel' base_url v' w'
      | (Ok Break, v', w') => Some (Ok tt, v', w')
      | (Raise e, v', w') => Some (Raise e, v', w')
      end
  end.

(** *** The filter (lines 309-319) *)

Definition has_media (post : post_info) : bool :=
  negb (String.eqb (image post) "No image available")
  || negb (String.eqb (attachments post) "No attachments").

Definition filter_step (config : config) (filtered_posts : list post_info)
    (post : post_info) : list post_info :=
  let has_media := has_media post in
  if both config then filtered_posts ++ [post]
  else if files_only config && has_media then filtered_posts ++ [post]
  else if no_files config && negb has_media then filtered_posts ++ [post]
  else filtered_posts.

Definition filter_posts (config : config) (all_posts : list post_info) : list post_info :=
  fold_left (filter_step config) all_posts [].

(** [save_posts_to_file(filtered_posts)]: the index file holds one
    record per post, in order. *)
Definition save_posts_to_file (posts : list post_info) : M unit :=
  act (fun w => {| folders := folders w; index_file := Some posts;
                   requests := requests w; printed := printed w |}).

(** *** The post folder of a post page (lines 174-192) *)

Definition base_folder_of (url : string) : string :=
  let netloc := url_netloc url in
  if PyStr.contains "kemono.su" netloc || PyStr.contains "kemono.party" netloc
  then "Kemono" else "Coomer".

Definition author_name_of (soup : post_doc) : result string :=
  match user_name soup with
  | Some author_tag => Ok (PyStr.strip (text author_tag))
  | None =>
      match og_image soup with
      | Some meta_tag =>
          content <-? attr meta_tag "content";
          last <-? PyStr.index_last (PyStr.split "/" content);
          PyStr.index (PyStr.split "-" last) 0
      | None => Ok "UnknownAuthor"
      end
  end.

Definition platform_name_of (soup : post_doc) : result string :=
  match og_image soup with
  | Some meta_tag =>
      content <-? attr meta_tag "content";
      path <-? parsed (url_path content);
      PyStr.index (PyStr.split "/" path) 2
  | None => Ok "UnknownPlatform"
  end.

(** Line 190: subscripting [None] is a [TypeError]. *)
Definition post_id_of (soup : post_doc) : result string :=
  match meta_id soup with
  | Some meta_tag => attr meta_tag "content"
  | None => Raise TypeError
  end.

Definition post_path_of (url : string) (soup : post_doc) : result string :=
  let base_folder := base_folder_of url in
  author_name <-? author_name_of soup;
  platform_name <-? platform_name_of soup;
  let author_folder := author_name +:+ "-" +:+ platform_name in
  post_id <-? post_id_of soup;
  let post_folder := post_id in
  Ok (OsPath.join base_folder [author_folder; "posts"; post_folder]).

(** *** The information file of a post (lines 84-160) *)

Definition save_post_info (soup : post_doc) (folder : string) : M unit :=
  let title := match title_spans soup with
               | Some spans => sanitize_filename (PyStr.join " " (map text spans))
               | None => "Untitled"
               end in
  let '(html, interrupted) := info_html soup title in
  write_file folder (title +:+ ".html") html ;;
  match interrupted with
  | Some e => raise e
  | None => ret tt
  end.

(** *** The download loops (lines 208-258)

    The script has the same loop three times, over the gallery links,
    over the attachment links and over the attachment links again; the
    copies differ in the line printed on failure.  The set
    [downloaded_links] is filled and never read, so it is left out. *)

Definition download_file (failed : string -> message) (post_path : string)
    (t : tag) : M unit :=
  do url <- lift (attr t "href");
  do filename <- lift (get_filename_from_url url);
  fun w =>
    let filename := ensure_unique_filename (folder_at post_path w) filename in
    if negb (path_exists (folder_at post_path w) filename)
    then try_except
           (do data <- fetch url; write_file post_path filename data)
           is_RequestException
           (fun _ => act (print (failed url))) w
    else (Ok tt, w).

Fixpoint download_files (failed : string -> message) (post_path : string)
    (tags : list tag) : M unit :=
  match tags with
  | [] => ret tt
  | t :: tags' =>
      download_file failed post_path t ;;
      download_files failed post_path tags'
  end.

(** Lines 224-258: the attachments pass and the videos pass. *)
Definition download_attachments_and_videos (config : config) (soup : post_doc)
    (post_path : string) : M unit :=
  (if download_attachments config
   then download_files MsgFailedAttachment post_path (attachment_links soup)
   else ret tt) ;;
  (if download_videos config
   then download_files MsgFailedVideo post_path (attachment_links soup)
   else ret tt).

(** *** [download_content] (lines 163-264) *)

(** Lines 199-260: the post folder is not there yet. *)
Definition download_new_post (url : string) (config : config) (soup : post_doc)
    (post_path : string) : M unit :=
  makedirs post_path ;;
  (if save_info_txt config then save_post_info soup post_path else ret tt) ;;
  download_files MsgFailedImage post_path (file_thumbs soup) ;;
  download_attachments_and_videos config soup post_path ;;
  act (print (MsgPostDownloaded url)).

(** Lines 169-260: the body of the [try]. *)
Definition download_try (url : string) (config : config) : M unit :=
  do html <- fetch url;
  let soup := post_soup html in
  do post_path <- lift (post_path_of url soup);
  fun w =>
    if path_there post_path w
    then act (print (MsgFolderExists post_path)) w
    else download_new_post url config soup post_path w.

Definition download_content (url : string) (config : config) : M unit :=
  try_except (download_try url config)
    is_RequestException
    (fun e =>
       match e with
       | ChunkedEncodingError => act (print MsgChunkedEncodingError)
       | _ => act (print MsgRequestException)
       end).

(** *** The rest of the script (lines 321-328) *)

Fixpoint download_posts (config : config) (filtered_posts : list post_info) : M unit :=
  match filtered_posts with
  | [] => ret tt
  | post :: posts' =>
      download_content (link post) config ;;
      download_posts config posts'
  end.

(** What follows the pagination loop. *)
Definition filter_and_download (config : config) (all_posts : list post_info) : M unit :=
  let filtered_posts := filter_posts config all_posts in
  save_posts_to_file filtered_posts ;;
  download_posts config filtered_posts ;;
  act (print (MsgSummary (length filtered_posts))).

(** The script from line 273 on, for a configuration that has been
    read and a profile URL that has been entered.  [None] when [fuel]
    rounds of the pagination loop were not enough. *)
Definition main (fuel : nat) (config : config) (base_url : string) (w : world)
    : option (result unit * world) :=
  match walk_loop fuel base_url walker_start w with
  | None => None
  | Some (Raise e, _, w') => Some (Raise e, w')
  | Some (Ok _, v, w') => Some (filter_and_download config (all_posts v) w')
  end.

End Script.

(** ** An example site

    A small remote site for the examples: six profiles and three posts.
    The URL functions are enough of [urljoin] and [urlparse] for the
    absolute URLs of this site. *)

Module Site.

Definition after_scheme (u : string) : string :=
  match PyStr.find "://" u with
  | Some i => PyStr.drop (i + 3) u
  | None => u
  end.

Definition before (sep u : string) : string :=
  match PyStr.find sep u with
  | Some i => PyStr.take i u
  | None => u
  end.

Definition netloc (u : string) : string := before "/" (after_scheme u).

Definition path (u : string) : string :=
  match PyStr.find "/" (after_scheme u) with
  | Some i => before "?" (PyStr.drop i (after_scheme u))
  | None => ""
  end.

Definition query_f (u : string) : option string :=
  match PyStr.find "?f=" u with
  | Some i => Some (PyStr.drop (i + 3) u)
  | None => None
  end.

Definition card (href title : string) : post_card :=
  {| card_a := Some (Tag [("href", href)] "");
     card_header := Some (Tag [] title);
     card_attachments := None;
     card_time := None;
     card_image := None |}.

Definition listing (total : option string) (cards : list post_card) : listing_doc :=
  {| small := (fun t => Tag [] t) <$> total; post_cards := cards |}.

Definition link_to (href : string) : tag := Tag [("href", href)] "Download".

Definition post (id : option string) (links : list tag) : post_doc :=
  {| user_name := Some (Tag [] " alice ");
     og_image := Some (Tag [("content", "https://img.kemono.su/icons/patreon/1")] "");
     meta_id := (fun i => Tag [("name", "id"); ("content", i)] "") <$> id;
     title_spans := Some [Tag [] "Hello"];
     file_thumbs := [];
     attachment_links := links;
     info_html := fun title => (title, None) |}.

Definition profile (n : string) : string := "https://kemono.su/patreon/user/" +:+ n.

Definition post_url (n : string) : string := profile "1" +:+ "/post/" +:+ n.

Definition file_url (dir name : string) : string :=
  "https://kemono.su/data/" +:+ dir +:+ "/" +:+ name.

(** The documents of the site, by the text of the page. *)
Definition listings : list (string * listing_doc) :=
  [ ("user 1, page 1",
     listing (Some "Showing 1-50 of 73") [card (post_url "10") "Ten"]);
    ("user 1, page 2",
     listing (Some "Showing 51-73 of 73") [card (post_url "12") "Twelve"]);
    ("user 2, page 1",
     listing (Some "Showing 1-50 of 120") [card (post_url "10") "Ten"]);
    ("user 3, page 1",
     listing (Some "Showing 1-50 of 120") [card (post_url "10") "Ten"]);
    ("user 3, page 2", listing (Some "Showing 51-100 of 120") []);
    ("user 4, page 1", listing (Some "Showing 0 of 0") []);
    ("user 5, page 1", listing (Some "Newest first") []);
    ("user 6, page 1",
     listing None [card (post_url "11") "Eleven"; card (post_url "10") "Ten"]) ].

Definition posts : list (string * post_doc) :=
  [ ("post 10",
     post (Some "10") [link_to (file_url "aa" "one.zip"); link_to (file_url "bb" "two.zip")]);
    ("post 11", post None [link_to (file_url "aa" "one.zip")]);
    ("post 12",
     post (Some "12") [link_to (file_url "aa" "file.zip"); link_to (file_url "bb" "file.zip")]) ].

Definition pages : list (string * string) :=
  [ (profile "1" +:+ "?o=0", "user 1, page 1");
    (profile "1" +:+ "?o=50", "user 1, page 2");
    (profile "2" +:+ "?o=0", "user 2, page 1");
    (profile "3" +:+ "?o=0", "user 3, page 1");
    (profile "3" +:+ "?o=50", "user 3, page 2");
    (profile "4" +:+ "?o=0", "user 4, page 1");
    (profile "5" +:+ "?o=0", "user 5, page 1");
    (profile "6" +:+ "?o=0", "user 6, page 1");
    (post_url "10", "post 10");
    (post_url "11", "post 11");
    (post_url "12", "post 12");
    (file_url "aa" "one.zip", "bytes of one");
    (file_url "bb" "two.zip", "bytes of two");
    (file_url "aa" "file.zip", "bytes of aa/file");
    (file_url "bb" "file.zip", "bytes of bb/file") ].

Definition assoc {A} (l : list (string * A)) (key : string) : option A :=
  snd <$> List.find (fun kv => String.eqb (fst kv) key) l.

(** [urlparse] raises a [ValueError] on a host with one of the two
    square brackets and not the other. *)
Definition parses (u : string) : bool :=
  negb (xorb (PyStr.contains "[" (netloc u)) (PyStr.contains "]" (netloc u))).

Definition join (base_url href : string) : option string :=
  if parses base_url && parses href then Some href else None.

Definition path_of (u : string) : option string :=
  if parses u then Some (path u) else None.

Definition query_f_of (u : string) : option (option string) :=
  if parses u then Some (query_f u) else None.

(** The length in bytes of a name, in UTF-8. *)
Fixpoint byte_length (s : string) : nat :=
  match s with
  | "" => 0
  | String c s' => ((if (nat_of_ascii c <? 128)%nat then 1 else 2) + byte_length s')%nat
  end.

(** The operating system of the examples refuses a path with a null
    character, and a path with a component of more than 255 bytes. *)
Definition refused (p : string) : option refusal :=
  if PyStr.contains (String "000" "") p then Some RefusedNul
  else if existsb (fun c => (255 <? byte_length c)%nat) (PyStr.split "/" p)
       then Some RefusedByOS
       else None.

(** [os.makedirs] also fails on a path that ends in the parent
    directory: it makes the directory before and then finds the path
    there. *)
Definition refused_makedirs (p : string) : option refusal :=
  match refused p with
  | Some r => Some r
  | None =>
      if String.eqb (OsPath.basename p) ".." then Some RefusedByOS else None
  end.

(** A URL that the site does not have fails, as a 404 does under
    [raise_for_status].  The post folders of the site have plain paths,
    none inside another: no path is there but the paths of the folders
    made. *)
Definition env : Env :=
  {| urljoin := join;
     url_netloc := netloc;
     url_path := path_of;
     url_query_f := query_f_of;
     remote := fun url => match assoc pages url with
                          | Some data => Body data
                          | None => Fails false
                          end;
     listing_soup := fun html => default (listing None []) (assoc listings html);
     post_soup := fun html => default (post None []) (assoc posts html);
     fs_finds := fun _ _ => false;
     makedirs_refused := refused_makedirs;
     open_refused := refused |}.

Definition nothing : world :=
  {| folders := ∅; index_file := None; requests := []; printed := [] |}.

Definition all_on : config :=
  {| both := true; files_only := true; no_files := true;
     save_info_txt := true; download_attachments := true;
     download_videos := true |}.

Definition with_media : post_info :=
  {| link := post_url "10"; title := "Ten"; attachments := "2 attachments";
     date := "No date available"; image := "No image available" |}.

Definition without_media : post_info :=
  {| link := post_url "11"; title := "Eleven"; attachments := "No attachments";
     date := "No date available"; image := "No image available" |}.

Definition only_files : config :=
  {| both := false; files_only := true; no_files := false;
     save_info_txt := false; download_attachments := true;
     download_videos := true |}.

End Site.

(** ** Words of the specification *)

(** The least integer not below [n / d]. *)
Definition ceil_div (n d : Z) : Z := - ((- n) / d).

(** Exactly one of the three filter modes is set. *)
Definition one_mode (config : config) : Prop :=
  (both config = true /\ files_only config = false /\ no_files config = false)
  \/ (both config = false /\ files_only config = true /\ no_files config = false)
  \/ (both config = false /\ files_only config = false /\ no_files config = true).

(** The rule of the filter as one test on a post. *)
Definition selects (config : config) (post : post_info) : bool :=
  both config
  || files_only config && has_media post
  || no_files config && negb (has_media post).
(** The requests for [urls], in order, added to the log. *)
Definition log_requests (urls : list string) (w : world) : world :=
  {| folders := folders w; index_file := index_file w;
     requests := requests w ++ urls; printed := printed w |}.

(** The name that the loop tries in round [i], counted from nought. *)
Definition tried (base ext : string) (counter : Z) (new_filename : string)
    (i : nat) : string :=
  match i with
  | O => new_filename
  | S i' => duplicate_name base (counter + Z.of_nat i') ext
  end.

(** [{base}_duplicate1{ext}] for a file name. *)
Definition duplicate1 (filename : string) : string :=
  duplicate_name (fst (OsPath.splitext filename)) 1 (snd (OsPath.splitext filename)).

(** [m] leaves the folder at [post_path] in place once it is there. *)
Definition keeps_folder (post_path : string) {A} (m : M A) : Prop :=
  forall w, is_Some (folders w !! post_path) ->
            is_Some (folders (snd (m w)) !! post_path).

Section Notions.

Context {E : Env}.

(** The total of pages that the first round computes from the
    document of the first page. *)
Definition first_page_total (soup : listing_doc) : result (option Z) :=
  total_posts <-? get_total_posts soup; Ok (Some (pages_of_total total_posts)).

(** The posts of the listing page of index [i], as the loop appends
    them. *)
Definition page_posts (base_url : string) (i : nat) : list post_info :=
  match remote (page_url base_url (Z.of_nat i)) with
  | Body html => snd (append_cards (post_cards (listing_soup html)) base_url [])
  | Fails _ => []
  end.

(** The listing page of index [i] is served, has post cards, and all
    of them are extracted. *)
Definition page_served (base_url : string) (i : nat) : Prop :=
  exists html,
    remote (page_url base_url (Z.of_nat i)) = Body html
    /\ post_cards (listing_soup html) <> []
    /\ fst (append_cards (post_cards (listing_soup html)) base_url []) = Ok tt.

(** The URLs of the first [n] listing pages. *)
Definition page_urls (base_url : string) (n : nat) : list string :=
  map (fun i : nat => page_url base_url (Z.of_nat i)) (seq 0 n).

(** The loop has gone round [n] times without leaving, and stands in
    [v] and [w]. *)
Inductive reaches (base_url : string) (w0 : world) : nat -> walker -> world -> Prop :=
| reaches_start : reaches base_url w0 0 walker_start w0
| reaches_next n v w v' w' :
    reaches base_url w0 n v w ->
    walk_round base_url v w = (Ok Continue, v', w') ->
    reaches base_url w0 (S n) v' w'.

(** The links of a download loop are given by their URLs and the file
    names that [get_filename_from_url] makes of these.

    The folder after a download loop over [items]: the body of each URL
    that is served is stored under the name that
    [ensure_unique_filename] answers with at that moment. *)
Fixpoint pass (items : list (string * string)) (d : gmap string entry)
    : gmap string entry :=
  match items with
  | [] => d
  | (url, filename) :: items' =>
      match remote url with
      | Body data => pass items' (<[ensure_unique_filename d filename := File data]> d)
      | Fails _ => pass items' d
      end
  end.

(** The operating system refuses none of the files that the loop over
    [items] opens in the folder at [post_path]. *)
Fixpoint accepted (post_path : string) (items : list (string * string))
    (d : gmap string entry) : Prop :=
  match items with
  | [] => True
  | (url, filename) :: items' =>
      match remote url with
      | Body data =>
          open_refused (OsPath.join2 post_path (ensure_unique_filename d filename)) = None
          /\ accepted post_path items'
               (<[ensure_unique_filename d filename := File data]> d)
      | Fails _ => accepted post_path items' d
      end
  end.




(** The links [tags] carry the URLs of [items], and these parse to the
    file names of [items]. *)
Definition links_of (tags : list tag) (items : list (string * string)) : Prop :=
  Forall2 (fun t item => attr t "href" = Ok (fst item)
                         /\ get_filename_from_url (fst item) = Ok (snd item))
    tags items.

End Notions.

(** ** Names without forbidden characters *)

(** Every character of [s] passes the test [P]. *)
Fixpoint all_chars (P : ascii -> bool) (s : string) : bool :=
  match s with
  | "" => true
  | String c s' => P c && all_chars P s'
  end.

(** No character of [s] is one of those that [sanitize_filename]
    replaces. *)
Definition allowed (s : string) : bool :=
  all_chars (fun c => negb (in_class forbidden_chars c)) s.

(** ** Sites given by their tables

    The site whose pages, listing documents and post documents are the
    given tables, with the URL functions of the example site. *)

Module Tables.

Definition env (pages : list (string * string))
    (listings : list (string * listing_doc))
    (posts : list (string * post_doc)) : Env :=
  {| urljoin := Site.join;
     url_netloc := Site.netloc;
     url_path := Site.path_of;
     url_query_f := Site.query_f_of;
     remote := fun url => match Site.assoc pages url with
                          | Some data => Body data
                          | None => Fails false
                          end;
     listing_soup := fun html =>
       default (Site.listing None []) (Site.assoc listings html);
     post_soup := fun html => default (Site.post None []) (Site.assoc posts html);
     fs_finds := fun _ _ => false;
     makedirs_refused := Site.refused_makedirs;
     open_refused := Site.refused |}.

(** A card without the [a] element. *)
Definition card_without_link (title : string) : post_card :=
  {| card_a := None;
     card_header := Some (Tag [] title);
     card_attachments := None;
     card_time := None;
     card_image := None |}.

(** A post page whose [og:image] element has the given content. *)
Definition post_with_image (content : string) : post_doc :=
  {| user_name := Some (Tag [] "alice");
     og_image := Some (Tag [("content", content)] "");
     meta_id := Some (Tag [("name", "id"); ("content", "1")] "");
     title_spans := None;
     file_thumbs := [];
     attachment_links := [];
     info_html := fun title => (title, None) |}.

(** A file name of 254 characters, and a site that serves it at two
    URLs. *)
Definition long_name : string :=
  Eval vm_compute in (String.concat "" (repeat "n" 250) +:+ ".zip").

Definition long_url (dir : string) : string :=
  "https://kemono.su/data/" +:+ dir +:+ "/" +:+ long_name.

Definition long_env : Env :=
  env [(long_url "aa", "bytes of aa"); (long_url "bb", "bytes of bb")] [] [].

End Tables.

(** ** What a run leaves in place *)

(** Whatever the world, [m] takes it to one that is in relation [R]
    with it. *)
Definition preserves (R : world -> world -> Prop) {A} (m : M A) : Prop :=
  forall w, R w (snd (m w)).

(** [w'] has the folders of [w] other than the one at [post_path], as
    they were, and the index file of [w]. *)
Definition outside (post_path : string) (w w' : world) : Prop :=
  (forall q, q <> post_path -> folders w' !! q = folders w !! q)
  /\ index_file w' = index_file w.

(** Besides, the folder at [post_path] has in [w'] every entry that it
    had in [w]. *)
Definition adds_to (post_path : string) (w w' : world) : Prop :=
  folder_at post_path w ⊆ folder_at post_path w' /\ outside post_path w w'.

(** [w'] has every folder of [w], as it was, and the index file of
    [w]. *)
Definition grows (w w' : world) : Prop :=
  folders w ⊆ folders w' /\ index_file w' = index_file w.

(** [w'] has the requests of [w] and, after them, those made since. *)
Definition asks_more (w w' : world) : Prop :=
  requests w `prefix_of` requests w'.

(** ** The example site, computed *)

Example site_post_path :
  post_path_of (E := Site.env) (Site.post_url "10") (@post_soup Site.env "post 10")
  = Ok "Kemono/alice-patreon/posts/10".
Proof. vm_compute. reflexivity. Qed.

Example site_filename :
  get_filename_from_url (E := Site.env) (Site.file_url "aa" "one.zip") = Ok "one.zip".
Proof. vm_compute. reflexivity. Qed.

Example site_total :
  get_total_posts (@listing_soup Site.env "user 1, page 1") = Ok (Some 73).
Proof. vm_compute. reflexivity. Qed.

Example splitext_examples :
  OsPath.splitext "a.tar.gz" = ("a.tar", ".gz")
  /\ OsPath.splitext ".bashrc" = (".bashrc", "")
  /\ OsPath.splitext "dir.x/file" = ("dir.x/file", "").
Proof. repeat split. Qed.

(** ** Properties of [sanitize_filename] *)

Lemma app_cons c s1 s2 : String c s1 +:+ s2 = String c (s1 +:+ s2).
Proof. reflexivity. Qed.

Lemma app_empty_l s : "" +:+ s = s.
Proof. reflexivity. Qed.

Lemma app_empty_r s : s +:+ "" = s.
Proof. induction s as [|c s IH]; [reflexivity|]. rewrite app_cons, IH. reflexivity. Qed.

Lemma app_length s1 s2 :
  String.length (s1 +:+ s2) = (String.length s1 + String.length s2)%nat.
Proof.
  induction s1 as [|c s1 IH]; [reflexivity|]. rewrite app_cons. simpl. rewrite IH. reflexivity.
Qed.

Lemma take_length n s :
  String.length (PyStr.take n s) = Nat.min n (String.length s).
Proof.
  revert s; induction n as [|n IH]; intros [|c s]; simpl; auto.
Qed.

Lemma take_get n s i :
  String.get i (PyStr.take n s) = if (i <? n)%nat then String.get i s else None.
Proof.
  revert s i; induction n as [|n IH]; intros [|c s] i; simpl.
  - reflexivity.
  - reflexivity.
  - destruct (i <? S n)%nat; reflexivity.
  - destruct i as [|i]; [reflexivity|]. rewrite IH. reflexivity.
Qed.

Lemma re_sub_class_char_length cls r s :
  String.length (re_sub_class cls (String r "") s) = String.length s.
Proof.
  induction s as [|c s IH]; [reflexivity|].
  cbn [re_sub_class].
  destruct (in_class cls c); rewrite app_cons, app_empty_l; simpl; f_equal; exact IH.
Qed.

Lemma re_sub_class_char_get cls r s i :
  String.get i (re_sub_class cls (String r "") s)
  = (fun c => if in_class cls c then r else c) <$> String.get i s.
Proof.
  revert i; induction s as [|c s IH]; intros i; [reflexivity|].
  cbn [re_sub_class].
  destruct (in_class cls c) eqn:E; rewrite app_cons, app_empty_l;
    destruct i as [|i]; simpl; rewrite ?E; auto.
Qed.

Lemma in_class_forbidden c :
  in_class forbidden_chars c = true <-> In c forbidden_chars.
Proof.
  unfold in_class. rewrite existsb_exists. split.
  - intros (x & Hx & Heq). apply Ascii.eqb_eq in Heq. subst. exact Hx.
  - intros H. exists c. split; [exact H|apply Ascii.eqb_refl].
Qed.

(** C8. [sanitize_filename] keeps the first 255 characters of its input,
    position by position, except that each of the nine characters
    less-than, greater-than, colon, double quote, slash, backslash,
    vertical bar, question mark and star is replaced by an underscore:
    the result has [min 255 (length s)] characters, and its [i]-th
    character is the underscore when the [i]-th character of the input
    is forbidden and is that character itself otherwise. *)
Theorem sanitize_filename_spec (s : string) :
  String.length (sanitize_filename s) = Nat.min 255 (String.length s)
  /\ (forall i c, (i < 255)%nat -> String.get i s = Some c ->
        In c ["<"; ">"; ":"; "034"; "/"; "\"; "|"; "?"; "*"]%char ->
        String.get i (sanitize_filename s) = Some "_"%char)
  /\ (forall i c, (i < 255)%nat -> String.get i s = Some c ->
        ~ In c ["<"; ">"; ":"; "034"; "/"; "\"; "|"; "?"; "*"]%char ->
        String.get i (sanitize_filename s) = Some c)
  /\ (forall i, (255 <= i)%nat -> String.get i (sanitize_filename s) = None).
Proof.
  unfold sanitize_filename.
  repeat split.
  - rewrite take_length, re_sub_class_char_length. reflexivity.
  - intros i c Hi Hget Hin. rewrite take_get.
    apply Nat.ltb_lt in Hi. rewrite Hi, re_sub_class_char_get, Hget.
    apply in_class_forbidden in Hin. cbn [fmap option_fmap option_map].
    rewrite Hin. reflexivity.
  - intros i c Hi Hget Hin. rewrite take_get.
    apply Nat.ltb_lt in Hi. rewrite Hi, re_sub_class_char_get, Hget.
    cbn [fmap option_fmap option_map].
    destruct (in_class forbidden_chars c) eqn:E; [|reflexivity].
    apply in_class_forbidden in E. contradiction.
  - intros i Hi. rewrite take_get.
    apply Nat.ltb_ge in Hi. rewrite Hi. reflexivity.
Qed.

Lemma sanitize_filename_spec_witness :
  (1 < 255)%nat
  /\ String.get 1 "a<b>.png" = Some "<"%char
  /\ In "<"%char ["<"; ">"; ":"; "034"; "/"; "\"; "|"; "?"; "*"]%char
  /\ String.get 1 (sanitize_filename "a<b>.png") = Some "_"%char.
Proof.
  assert (1 < 255)%nat as Hi by lia.
  assert (String.get 1 "a<b>.png" = Some "<"%char) as Hget by reflexivity.
  assert (In "<"%char ["<"; ">"; ":"; "034"; "/"; "\"; "|"; "?"; "*"]%char) as Hin
    by (left; reflexivity).
  split; [exact Hi|]. split; [exact Hget|]. split; [exact Hin|].
  destruct (sanitize_filename_spec "a<b>.png") as (_ & Hforbidden & _).
  exact (Hforbidden 1%nat "<"%char Hi Hget Hin).
Defined.

(** ** Properties of the filter *)

Lemma has_media_iff post :
  has_media post = true
  <-> image post <> "No image available" \/ attachments post <> "No attachments".
Proof.
  unfold has_media. rewrite orb_true_iff, !negb_true_iff, !String.eqb_neq.
  reflexivity.
Qed.

Lemma filter_step_selects config filtered post :
  filter_step config filtered post
  = filtered ++ (if selects config post then [post] else []).
Proof.
  unfold filter_step, selects.
  destruct (both config), (files_only config), (no_files config), (has_media post);
    simpl; rewrite ?app_nil_r; reflexivity.
Qed.

Lemma fold_filter_step config posts filtered :
  fold_left (filter_step config) posts filtered
  = filtered ++ List.filter (selects config) posts.
Proof.
  revert filtered. induction posts as [|post posts IH]; intros filtered; simpl.
  - rewrite app_nil_r. reflexivity.
  - rewrite IH, filter_step_selects, <- app_assoc.
    destruct (selects config post); reflexivity.
Qed.

Lemma filter_posts_selects config posts :
  filter_posts config posts = List.filter (selects config) posts.
Proof. unfold filter_posts. rewrite fold_filter_step. reflexivity. Qed.

Lemma filter_all {A} (f : A -> bool) (l : list A) :
  (forall x, f x = true) -> List.filter f l = l.
Proof.
  intros H. induction l as [|x l IH]; simpl; [reflexivity|].
  rewrite H, IH. reflexivity.
Qed.

Lemma filter_posts_both config posts :
  both config = true -> filter_posts config posts = posts.
Proof.
  intros H. rewrite filter_posts_selects. apply filter_all.
  intros post. unfold selects. rewrite H. reflexivity.
Qed.

(** C1. A post has media exactly when its image is not the sentinel for
    a missing image or its attachments label is not the sentinel for no
    attachments.  Under a configuration with exactly one mode set, the
    filter keeps, in input order, all posts when the mode is [both], the
    posts with media when it is [files_only] and the posts without media
    when it is [no_files]. *)
Theorem filter_posts_rule_table (config : config) (posts : list post_info) :
  one_mode config ->
  (forall post,
      has_media post = true
      <-> image post <> "No image available" \/ attachments post <> "No attachments")
  /\ (both config = true -> filter_posts config posts = posts)
  /\ (files_only config = true ->
      filter_posts config posts = List.filter has_media posts)
  /\ (no_files config = true ->
      filter_posts config posts = List.filter (fun post => negb (has_media post)) posts).
Proof.
  intros Hone. split; [exact has_media_iff|].
  rewrite filter_posts_selects. unfold selects.
  destruct Hone as [(Hb & Hf & Hn)|[(Hb & Hf & Hn)|(Hb & Hf & Hn)]];
    rewrite Hb, Hf, Hn; (split; [|split]); intros Hmode; try discriminate.
  - apply filter_all. reflexivity.
  - apply filter_ext. intros post. simpl. rewrite orb_false_r. reflexivity.
  - apply filter_ext. intros post. reflexivity.
Qed.

Lemma filter_posts_rule_table_witness :
  one_mode Site.only_files
  /\ filter_posts Site.only_files [Site.with_media; Site.without_media; Site.with_media]
     = [Site.with_media; Site.with_media].
Proof.
  assert (one_mode Site.only_files) as Hone.
  { right. left. repeat split. }
  split; [exact Hone|].
  destruct (filter_posts_rule_table Site.only_files
              [Site.with_media; Site.without_media; Site.with_media] Hone)
    as (_ & _ & Hfiles & _).
  rewrite (Hfiles eq_refl). reflexivity.
Defined.

(** The negation of C2: with the three modes set together no post
    occurs more often after the filter than before it. *)
Lemma overlapping_modes_append_once :
  ~ exists (config : config) (posts : list post_info) (post : post_info),
      both config = true /\ files_only config = true /\ no_files config = true
      /\ has_media post = true
      /\ (count_occ post_info_eq_dec posts post
          < count_occ post_info_eq_dec (filter_posts config posts) post)%nat.
Proof.
  intros (config & posts & post & Hb & _ & _ & _ & Hlt).
  rewrite (filter_posts_both config posts Hb) in Hlt. lia.
Qed.

(** C2, amended. With the three modes set together (indeed whenever
    [both] is set) the first branch of the chain appends the post and
    the other branches are not tried: the filter returns its input. *)
Theorem overlapping_modes_keep_input (config : config) (posts : list post_info) :
  both config = true -> files_only config = true -> no_files config = true ->
  filter_posts config posts = posts
  /\ forall post,
      count_occ post_info_eq_dec (filter_posts config posts) post
      = count_occ post_info_eq_dec posts post.
Proof.
  intros Hb _ _. rewrite (filter_posts_both config posts Hb). auto.
Qed.

Lemma overlapping_modes_keep_input_witness :
  both Site.all_on = true /\ files_only Site.all_on = true
  /\ no_files Site.all_on = true
  /\ filter_posts Site.all_on [Site.with_media; Site.without_media]
     = [Site.with_media; Site.without_media].
Proof.
  split; [reflexivity|]. split; [reflexivity|]. split; [reflexivity|].
  exact (proj1 (overlapping_modes_keep_input Site.all_on
                  [Site.with_media; Site.without_media]
                  eq_refl eq_refl eq_refl)).
Defined.

(** ** Properties of [ensure_unique_filename] *)

Lemma app_inj_r (s1 s2 t : string) : s1 +:+ t = s2 +:+ t -> s1 = s2.
Proof.
  revert s2. induction s1 as [|a s1 IH]; intros [|b s2] H.
  - reflexivity.
  - apply (f_equal String.length) in H. rewrite !app_length in H. simpl in H. lia.
  - apply (f_equal String.length) in H. rewrite !app_length in H. simpl in H. lia.
  - rewrite !app_cons in H. injection H as -> H. f_equal. apply IH. exact H.
Qed.

Lemma duplicate_name_inj base ext (j k : Z) :
  duplicate_name base j ext = duplicate_name base k ext -> j = k.
Proof.
  unfold duplicate_name, PyStr.str. intros H.
  apply String.app_inj in H. apply String.app_inj in H.
  apply app_inj_r in H. apply pretty_Z_inj in H. exact H.
Qed.

Lemma take_drop n s : PyStr.take n s +:+ PyStr.drop n s = s.
Proof.
  revert s. induction n as [|n IH]; intros [|c s]; simpl; try reflexivity.
  rewrite app_cons, IH. reflexivity.
Qed.

Lemma splitext_app p : fst (OsPath.splitext p) +:+ snd (OsPath.splitext p) = p.
Proof.
  unfold OsPath.splitext.
  match goal with |- context [if ?b then _ else _] => destruct b end; simpl.
  - apply take_drop.
  - apply app_empty_r.
Qed.

Lemma duplicate_name_length base k ext :
  (String.length (base +:+ ext) < String.length (duplicate_name base k ext))%nat.
Proof.
  unfold duplicate_name. rewrite !app_length. simpl. lia.
Qed.

Lemma tried_shift base ext counter new_filename i :
  tried base ext (counter + 1) (duplicate_name base counter ext) i
  = tried base ext counter new_filename (S i).
Proof.
  destruct i as [|i]; simpl.
  - rewrite Z.add_0_r. reflexivity.
  - f_equal. lia.
Qed.

Lemma path_exists_true d name : path_exists d name = true <-> is_Some (d !! name).
Proof. apply bool_decide_eq_true. Qed.

Lemma path_exists_false d name : path_exists d name = false <-> d !! name = None.
Proof.
  unfold path_exists. rewrite bool_decide_eq_false, eq_None_not_Some. reflexivity.
Qed.

(** The loop returns the name of some round [j]: the names of the
    rounds before it are taken, and the name returned is free unless
    the fuel ran out. *)
Lemma unique_loop_run d base ext fuel : forall counter new_filename,
  exists j : nat,
    (j <= fuel)%nat
    /\ unique_loop fuel d base ext counter new_filename
       = tried base ext counter new_filename j
    /\ (forall i, (i < j)%nat ->
          is_Some (d !! tried base ext counter new_filename i))
    /\ ((j < fuel)%nat -> d !! tried base ext counter new_filename j = None).
Proof.
  induction fuel as [|fuel IH]; intros counter new_filename.
  - exists 0%nat. simpl. repeat split; intros; lia.
  - simpl. destruct (path_exists d new_filename) eqn:Hex.
    + destruct (IH (counter + 1) (duplicate_name base counter ext))
        as (j & Hle & Hres & Hbefore & Hfree).
      exists (S j). rewrite <- tried_shift. repeat split.
      * lia.
      * exact Hres.
      * intros [|i] Hi.
        -- simpl. apply path_exists_true. exact Hex.
        -- rewrite <- tried_shift. apply Hbefore. lia.
      * intros Hlt. apply Hfree. lia.
    + exists 0%nat. simpl. repeat split.
      * lia.
      * intros i Hi. lia.
      * intros _. apply path_exists_false. exact Hex.
Qed.

(** A folder cannot hold more distinct names than its size. *)
Lemma folder_pigeonhole (d : gmap string entry) (names : list string) :
  NoDup names -> (forall n, n ∈ names -> is_Some (d !! n)) ->
  (length names <= size d)%nat.
Proof.
  intros Hnd Hin.
  rewrite <- (size_dom (D := gset string) d).
  rewrite <- (size_list_to_set (C := gset string) names Hnd).
  apply subseteq_size. intros n Hn.
  apply elem_of_list_to_set in Hn. apply elem_of_dom. apply Hin. exact Hn.
Qed.

(** With the fuel of [ensure_unique_filename] the round that is left is
    always one whose name is free. *)
Lemma unique_loop_free d base ext counter new_filename :
  exists j : nat,
    unique_loop (S (size d)) d base ext counter new_filename
    = tried base ext counter new_filename j
    /\ (forall i, (i < j)%nat ->
          is_Some (d !! tried base ext counter new_filename i))
    /\ d !! tried base ext counter new_filename j = None.
Proof.
  destruct (unique_loop_run d base ext (S (size d)) counter new_filename)
    as (j & Hle & Hres & Hbefore & Hfree).
  exists j. repeat split; try assumption.
  destruct (decide (j < S (size d))%nat) as [Hlt|Hge]; [apply Hfree; exact Hlt|].
  assert (j = S (size d)) as Hj by lia.
  destruct (d !! tried base ext counter new_filename j) eqn:Hlook; [|reflexivity].
  exfalso.
  pose (names := (fun i : nat => duplicate_name base (counter + Z.of_nat i) ext)
                   <$> seq 0 (S (size d))).
  assert (length names <= size d)%nat as Hlen.
  { apply folder_pigeonhole.
    - apply NoDup_fmap_2; [|apply NoDup_seq].
      intros a b Hab. apply duplicate_name_inj in Hab. lia.
    - intros n Hn. apply list_elem_of_fmap in Hn as (i & -> & Hi).
      apply elem_of_seq in Hi.
      destruct (decide (i = size d)) as [->|Hne].
      + rewrite Hj in Hlook. simpl in Hlook. rewrite Hlook. eauto.
      + apply (Hbefore (S i)). lia. }
  unfold names in Hlen. rewrite length_fmap, length_seq in Hlen. lia.
Qed.

Lemma duplicate1_neq filename : duplicate1 filename <> filename.
Proof.
  unfold duplicate1. intros H.
  pose proof (duplicate_name_length (fst (OsPath.splitext filename)) 1
                (snd (OsPath.splitext filename))) as Hlen.
  rewrite H, splitext_app in Hlen. lia.
Qed.

Lemma ensure_unique_filename_free d filename :
  d !! filename = None -> ensure_unique_filename d filename = filename.
Proof.
  intros H. unfold ensure_unique_filename.
  destruct (OsPath.splitext filename) as [base ext]. simpl.
  apply path_exists_false in H. rewrite H. reflexivity.
Qed.

Lemma ensure_unique_filename_duplicate1 d filename :
  is_Some (d !! filename) -> d !! duplicate1 filename = None ->
  ensure_unique_filename d filename = duplicate1 filename.
Proof.
  intros Hin Hfree. unfold ensure_unique_filename, duplicate1 in *.
  destruct (OsPath.splitext filename) as [base ext]. simpl in *.
  assert (size d <> 0%nat) as Hsize.
  { intros H0. apply map_size_empty_iff in H0. subst d.
    rewrite lookup_empty in Hin. destruct Hin as [? ?]. discriminate. }
  apply path_exists_true in Hin. rewrite Hin.
  destruct (size d) as [|n]; [contradiction|]. simpl.
  apply path_exists_false in Hfree. rewrite Hfree. reflexivity.
Qed.

Lemma ensure_unique_filename_not_in d filename :
  d !! ensure_unique_filename d filename = None.
Proof.
  unfold ensure_unique_filename.
  destruct (OsPath.splitext filename) as [base ext].
  destruct (unique_loop_free d base ext 1 filename) as (j & -> & _ & Hfree).
  exact Hfree.
Qed.

(** ** One download *)

Lemma bind_ok {A B} (m : M A) (k : A -> M B) w a w1 :
  m w = (Ok a, w1) -> bind m k w = k a w1.
Proof. intros H. unfold bind. rewrite H. reflexivity. Qed.

Section DownloadFile.

Context {E : Env}.

Lemma folder_at_put_file post_path name data w :
  folder_at post_path (put_file post_path name data w)
  = <[name := File data]> (folder_at post_path w).
Proof.
  unfold folder_at at 1, put_file, set_folder. simpl.
  rewrite lookup_insert_eq. reflexivity.
Qed.

Lemma folders_put_file post_path name data w :
  is_Some (folders (put_file post_path name data w) !! post_path).
Proof. unfold put_file, set_folder. simpl. rewrite lookup_insert_eq. eauto. Qed.

Lemma write_file_free post_path name data w :
  is_Some (folders w !! post_path) ->
  folder_at post_path w !! name = None ->
  open_refused (OsPath.join2 post_path name) = None ->
  write_file post_path name data w = (Ok tt, put_file post_path name data w).
Proof.
  intros [d Hd] Hfree Hopen. unfold write_file, folder_at in *. rewrite Hd in *.
  simpl in Hfree. rewrite Hfree, Hopen. reflexivity.
Qed.

Lemma write_file_refused post_path name data w r :
  folder_at post_path w !! name = None ->
  open_refused (OsPath.join2 post_path name) = Some r ->
  exists e, write_file post_path name data w = (Raise e, w)
            /\ is_RequestException e = false.
Proof.
  intros Hfree Hopen. unfold write_file, folder_at in *.
  destruct (folders w !! post_path) as [d|]; [|exists OSError; auto].
  simpl in Hfree. rewrite Hfree, Hopen.
  exists (exn_of_refusal r). split; [reflexivity|destruct r; reflexivity].
Qed.

Lemma download_file_stores failed post_path t url filename data w :
  is_Some (folders w !! post_path) ->
  attr t "href" = Ok url -> get_filename_from_url url = Ok filename ->
  remote url = Body data ->
  open_refused
    (OsPath.join2 post_path (ensure_unique_filename (folder_at post_path w) filename))
  = None ->
  download_file failed post_path t w
  = (Ok tt,
     put_file post_path
       (ensure_unique_filename (folder_at post_path w) filename)
       data (log_request url w)).
Proof.
  intros Hthere Hhref Hname Hremote Hopen.
  unfold download_file, bind, lift. rewrite Hhref, Hname.
  assert (path_exists (folder_at post_path w)
            (ensure_unique_filename (folder_at post_path w) filename) = false) as ->.
  { apply path_exists_false, ensure_unique_filename_not_in. }
  simpl. unfold try_except, bind, fetch. rewrite Hremote.
  rewrite write_file_free; [reflexivity|exact Hthere| |exact Hopen].
  apply ensure_unique_filename_not_in.
Qed.

Lemma download_file_fails failed post_path t url filename chunked w :
  attr t "href" = Ok url -> get_filename_from_url url = Ok filename ->
  remote url = Fails chunked ->
  download_file failed post_path t w
  = (Ok tt, print (failed url) (log_request url w)).
Proof.
  intros Hhref Hname Hremote. unfold download_file, bind, lift. rewrite Hhref, Hname.
  assert (path_exists (folder_at post_path w)
            (ensure_unique_filename (folder_at post_path w) filename) = false) as ->.
  { apply path_exists_false, ensure_unique_filename_not_in. }
  simpl. unfold try_except, bind, fetch. rewrite Hremote.
  destruct chunked; reflexivity.
Qed.

End DownloadFile.

Lemma ensure_unique_filename_taken d filename :
  is_Some (d !! filename) ->
  exists k : Z,
    1 <= k
    /\ ensure_unique_filename d filename
       = duplicate_name (fst (OsPath.splitext filename)) k
           (snd (OsPath.splitext filename))
    /\ forall j : Z, 1 <= j < k ->
         is_Some (d !! duplicate_name (fst (OsPath.splitext filename)) j
                         (snd (OsPath.splitext filename))).
Proof.
  intros Hin. unfold ensure_unique_filename.
  destruct (OsPath.splitext filename) as [base ext]. cbn [fst snd].
  destruct (unique_loop_free d base ext 1 filename) as (j & Hres & Hbefore & Hfree).
  rewrite Hres.
  destruct j as [|j].
  - simpl in Hfree. rewrite Hfree in Hin. destruct Hin as [? ?]. discriminate.
  - exists (1 + Z.of_nat j). cbn [tried]. repeat split.
    + lia.
    + intros i Hi.
      specialize (Hbefore (S (Z.to_nat (i - 1)))). simpl in Hbefore.
      replace (1 + Z.of_nat (Z.to_nat (i - 1))) with i in Hbefore by lia.
      apply Hbefore. lia.
Qed.

(** Against C9 as it is worded: two downloads, from distinct URLs
    that resolve to the same file name, into a folder that has a file
    under the first duplicate of that name already.  The first body is
    written under the file name; the second one goes under the second
    duplicate, not under the first. *)
Lemma second_download_may_take_a_later_duplicate :
  let path := "Kemono/alice-patreon/posts/12" in
  let d := <["file_duplicate1.zip" := File "an earlier download"]> new_folder in
  let w := set_folder path d Site.nothing in
  let after := snd ((download_file (E := Site.env) MsgFailedImage path
                       (Site.link_to (Site.file_url "aa" "file.zip")) ;;
                     download_file (E := Site.env) MsgFailedImage path
                       (Site.link_to (Site.file_url "bb" "file.zip"))) w) in
  get_filename_from_url (E := Site.env) (Site.file_url "aa" "file.zip") = Ok "file.zip"
  /\ get_filename_from_url (E := Site.env) (Site.file_url "bb" "file.zip") = Ok "file.zip"
  /\ duplicate1 "file.zip" = "file_duplicate1.zip"
  /\ folder_at path after
     = <["file_duplicate2.zip" := File "bytes of bb/file"]>
         (<["file.zip" := File "bytes of aa/file"]> d)
  /\ folder_at path after !! "file_duplicate1.zip" <> Some (File "bytes of bb/file").
Proof.
  vm_compute. repeat split. discriminate.
Qed.

(** C9, amended. [ensure_unique_filename] returns the file name itself
    when the folder has no such name; otherwise it returns
    [{base}_duplicate{k}{ext}] for the least [k >= 1] for which the
    folder has no such name.  Hence two downloads into the same folder,
    from distinct URLs that resolve to the same file name, both served
    and both written (the operating system refuses neither of the two
    names), leave two new files under two distinct names, the second of
    the form [{base}_duplicate{k}{ext}]; in a folder that had neither
    the file name nor its first duplicate, the first file is under the
    file name and the second under [{base}_duplicate1{ext}]. *)
Theorem ensure_unique_filename_first_free `{E : Env}
    (d : gmap string entry) (filename : string) :
  (d !! filename = None -> ensure_unique_filename d filename = filename)
  /\ (is_Some (d !! filename) ->
      exists k : Z,
        1 <= k
        /\ ensure_unique_filename d filename
           = duplicate_name (fst (OsPath.splitext filename)) k
               (snd (OsPath.splitext filename))
        /\ d !! ensure_unique_filename d filename = None
        /\ forall j : Z, 1 <= j < k ->
             is_Some (d !! duplicate_name (fst (OsPath.splitext filename)) j
                             (snd (OsPath.splitext filename))))
  /\ (forall failed post_path t1 t2 url1 url2 data1 data2 w,
        folders w !! post_path = Some d ->
        attr t1 "href" = Ok url1 -> attr t2 "href" = Ok url2 ->
        url1 <> url2 ->
        get_filename_from_url url1 = Ok filename ->
        get_filename_from_url url2 = Ok filename ->
        remote url1 = Body data1 -> remote url2 = Body data2 ->
        let first := ensure_unique_filename d filename in
        let second := ensure_unique_filename (<[first := File data1]> d) filename in
        open_refused (OsPath.join2 post_path first) = None ->
        open_refused (OsPath.join2 post_path second) = None ->
        folders
          (snd ((download_file failed post_path t1 ;;
                 download_file failed post_path t2) w)) !! post_path
        = Some (<[second := File data2]> (<[first := File data1]> d))
        /\ d !! first = None /\ d !! second = None /\ first <> second
        /\ (exists k : Z,
              1 <= k
              /\ second = duplicate_name (fst (OsPath.splitext filename)) k
                            (snd (OsPath.splitext filename)))
        /\ (d !! filename = None -> d !! duplicate1 filename = None ->
            first = filename /\ second = duplicate1 filename)).
Proof.
  split; [apply ensure_unique_filename_free|]. split.
  - intros Hin.
    destruct (ensure_unique_filename_taken d filename Hin) as (k & Hk & Hres & Hbefore).
    exists k. repeat split; try assumption.
    apply ensure_unique_filename_not_in.
  - intros failed post_path t1 t2 url1 url2 data1 data2 w Hd
      Hhref1 Hhref2 _ Hname1 Hname2 Hbody1 Hbody2 first second Hopen1 Hopen2.
    assert (folder_at post_path w = d) as Hat.
    { unfold folder_at. rewrite Hd. reflexivity. }
    assert (is_Some (folders w !! post_path)) as Hthere by (rewrite Hd; eauto).
    pose proof (ensure_unique_filename_not_in d filename) as Hfirst_free.
    fold first in Hfirst_free.
    pose proof (ensure_unique_filename_not_in (<[first := File data1]> d) filename)
      as Hsecond_free.
    fold second in Hsecond_free.
    assert (first <> second) as Hne.
    { intros Heq. rewrite <- Heq, lookup_insert_eq in Hsecond_free. discriminate. }
    assert (d !! second = None) as Hsecond_d.
    { rewrite lookup_insert_ne in Hsecond_free by exact Hne. exact Hsecond_free. }
    assert (is_Some (<[first := File data1]> d !! filename)) as Htaken.
    { destruct (d !! filename) as [x|] eqn:Hlook.
      - apply lookup_insert_is_Some'. right. rewrite Hlook. eauto.
      - unfold first. rewrite (ensure_unique_filename_free d filename Hlook).
        rewrite lookup_insert_eq. eauto. }
    split; [|split; [exact Hfirst_free|split; [exact Hsecond_d|split; [exact Hne|split]]]].
    + pose proof (download_file_stores failed post_path t1 url1 filename data1 w
                    Hthere Hhref1 Hname1 Hbody1) as H1.
      rewrite Hat in H1. fold first in H1. specialize (H1 Hopen1).
      rewrite (bind_ok _ _ _ _ _ H1).
      set (w1 := put_file post_path first data1 (log_request url1 w)) in *.
      assert (folder_at post_path w1 = <[first := File data1]> d) as Hat1.
      { unfold w1. rewrite folder_at_put_file. rewrite <- Hat. reflexivity. }
      pose proof (download_file_stores failed post_path t2 url2 filename data2 w1
                    (folders_put_file _ _ _ _) Hhref2 Hname2 Hbody2) as H2.
      rewrite Hat1 in H2. fold second in H2. specialize (H2 Hopen2).
      rewrite H2. cbn [snd]. unfold put_file at 1, set_folder. simpl.
      rewrite lookup_insert_eq.
      change (folder_at post_path (log_request url2 w1)) with (folder_at post_path w1).
      rewrite Hat1. reflexivity.
    + destruct (ensure_unique_filename_taken _ filename Htaken) as (k & Hk & Hres & _).
      exists k. split; [exact Hk|exact Hres].
    + intros Hfree Hfree1.
      assert (first = filename) as Hfirst
        by (apply ensure_unique_filename_free; exact Hfree).
      split; [exact Hfirst|].
      unfold second. rewrite Hfirst.
      apply ensure_unique_filename_duplicate1.
      * rewrite lookup_insert_eq. eauto.
      * rewrite lookup_insert_ne; [exact Hfree1|]. intros Heq.
        symmetry in Heq. exact (duplicate1_neq filename Heq).
Qed.

Lemma ensure_unique_filename_first_free_witness :
  let w := snd (makedirs (E := Site.env) "Kemono/alice-patreon/posts/12" Site.nothing) in
  let d := new_folder in
  folders w !! "Kemono/alice-patreon/posts/12" = Some d
  /\ d !! "file.zip" = None
  /\ d !! "file_duplicate1.zip" = None
  /\ ensure_unique_filename d "file.zip" = "file.zip"
  /\ ensure_unique_filename (<["file.zip" := File "bytes of aa/file"]> d) "file.zip"
     = "file_duplicate1.zip"
  /\ folders
       (snd ((download_file (E := Site.env) MsgFailedImage
                "Kemono/alice-patreon/posts/12"
                (Site.link_to (Site.file_url "aa" "file.zip")) ;;
              download_file (E := Site.env) MsgFailedImage
                "Kemono/alice-patreon/posts/12"
                (Site.link_to (Site.file_url "bb" "file.zip"))) w))
       !! "Kemono/alice-patreon/posts/12"
     = Some (<["file_duplicate1.zip" := File "bytes of bb/file"]>
               (<["file.zip" := File "bytes of aa/file"]> d)).
Proof.
  intros w d.
  assert (folders w !! "Kemono/alice-patreon/posts/12" = Some d) as Hd
    by (vm_compute; reflexivity).
  assert (d !! "file.zip" = None) as Hfree by (vm_compute; reflexivity).
  assert (d !! "file_duplicate1.zip" = None) as Hfree1 by (vm_compute; reflexivity).
  destruct (ensure_unique_filename_first_free (E := Site.env) d "file.zip")
    as (Hsame & _ & Htwo).
  destruct (Htwo MsgFailedImage "Kemono/alice-patreon/posts/12"
              (Site.link_to (Site.file_url "aa" "file.zip"))
              (Site.link_to (Site.file_url "bb" "file.zip"))
              (Site.file_url "aa" "file.zip") (Site.file_url "bb" "file.zip")
              "bytes of aa/file" "bytes of bb/file" w)
    as (Hfolder & _ & _ & _ & _ & Hnames);
    try (vm_compute; reflexivity); try assumption.
  { vm_compute. discriminate. }
  destruct (Hnames Hfree Hfree1) as (Hfirst & Hsecond).
  split; [exact Hd|]. split; [exact Hfree|]. split; [exact Hfree1|].
  split; [exact Hfirst|].
  assert (ensure_unique_filename (<["file.zip" := File "bytes of aa/file"]> d) "file.zip"
          = "file_duplicate1.zip") as Hsecond'.
  { rewrite Hfirst in Hsecond. exact Hsecond. }
  split; [exact Hsecond'|].
  rewrite Hfolder, Hfirst, Hsecond'. reflexivity.
Defined.

(** ** The pagination loop *)

Section Walker.

Context {E : Env}.

Lemma append_cards_acc cards base_url acc :
  append_cards cards base_url acc
  = (fst (append_cards cards base_url []),
     acc ++ snd (append_cards cards base_url [])).
Proof.
  revert acc. induction cards as [|card cards IH]; intros acc; simpl.
  - rewrite app_nil_r. reflexivity.
  - destruct (extract_post_info card base_url) as [post|e]; simpl.
    + rewrite IH. rewrite (IH [post]). simpl. rewrite <- app_assoc. reflexivity.
    + rewrite app_nil_r. reflexivity.
Qed.

Lemma walk_loop_reaches base_url w0 n v w :
  reaches base_url w0 n v w ->
  forall fuel,
    walk_loop (n + fuel) base_url walker_start w0 = walk_loop fuel base_url v w.
Proof.
  induction 1 as [|n v w v' w' Hreach IH Hround]; intros fuel.
  - reflexivity.
  - replace (S n + fuel)%nat with (n + S fuel)%nat by lia.
    rewrite IH. simpl. rewrite Hround. reflexivity.
Qed.

(** A round that fails to fetch its page. *)
Lemma walk_round_fails base_url v w chunked :
  remote (page_url base_url (page_number v)) = Fails chunked ->
  walk_round base_url v w
  = (Ok Break, v,
     print (MsgFailedPage (page_number v))
       (log_request (page_url base_url (page_number v)) w)).
Proof.
  intros Hremote. unfold walk_round, walk_try, fetch. rewrite Hremote.
  destruct chunked; reflexivity.
Qed.

(** A round whose page has no post cards. *)
Lemma walk_round_empty base_url v w html total :
  remote (page_url base_url (page_number v)) = Body html ->
  post_cards (listing_soup html) = [] ->
  (if page_number v =? 0 then first_page_total (listing_soup html)
   else Ok (total_pages v)) = Ok total ->
  walk_round base_url v w
  = (Ok Break,
     {| page_number := page_number v; total_pages := total;
        all_posts := all_posts v |},
     log_request (page_url base_url (page_number v)) w).
Proof.
  intros Hremote Hcards Htotal.
  unfold walk_round, walk_try, fetch. rewrite Hremote.
  unfold first_page_total in Htotal. rewrite Htotal, Hcards. reflexivity.
Qed.

(** A round whose page has post cards that are all extracted. *)
Lemma walk_round_cards base_url v w html tp :
  remote (page_url base_url (page_number v)) = Body html ->
  post_cards (listing_soup html) <> [] ->
  fst (append_cards (post_cards (listing_soup html)) base_url []) = Ok tt ->
  (if page_number v =? 0 then first_page_total (listing_soup html)
   else Ok (total_pages v)) = Ok (Some tp) ->
  walk_round base_url v w
  = (if page_number v >=? tp - 1
     then (Ok Break,
           {| page_number := page_number v; total_pages := Some tp;
              all_posts := all_posts v
                ++ snd (append_cards (post_cards (listing_soup html)) base_url []) |})
     else (Ok Continue,
           {| page_number := page_number v + 1; total_pages := Some tp;
              all_posts := all_posts v
                ++ snd (append_cards (post_cards (listing_soup html)) base_url []) |}),
     log_request (page_url base_url (page_number v)) w).
Proof.
  intros Hremote Hcards Hok Htotal.
  unfold walk_round, walk_try, fetch. rewrite Hremote.
  unfold first_page_total in Htotal. rewrite Htotal.
  destruct (post_cards (listing_soup html)) as [|card cards] eqn:Hpc;
    [contradiction|].
  cbn [page_number total_pages all_posts].
  rewrite append_cards_acc, Hok. cbn [fst snd].
  destruct (page_number v >=? tp - 1); reflexivity.
Qed.

End Walker.

Section WalkerInvariant.

Context {E : Env}.

Lemma log_requests_nil w : log_requests [] w = w.
Proof. destruct w. unfold log_requests. simpl. rewrite app_nil_r. reflexivity. Qed.

Lemma log_request_requests url urls w :
  log_request url (log_requests urls w) = log_requests (urls ++ [url]) w.
Proof. unfold log_request, log_requests. simpl. rewrite app_assoc. reflexivity. Qed.

Lemma page_urls_S base_url n :
  page_urls base_url (S n)
  = page_urls base_url n ++ [page_url base_url (Z.of_nat n)].
Proof. unfold page_urls. rewrite seq_S, map_app. reflexivity. Qed.

Lemma walk_round_continue_inv base_url v w v' w' :
  walk_round base_url v w = (Ok Continue, v', w') ->
  exists html tp,
    remote (page_url base_url (page_number v)) = Body html
    /\ post_cards (listing_soup html) <> []
    /\ fst (append_cards (post_cards (listing_soup html)) base_url []) = Ok tt
    /\ (if page_number v =? 0 then first_page_total (listing_soup html)
        else Ok (total_pages v)) = Ok (Some tp)
    /\ page_number v < tp - 1
    /\ v' = {| page_number := page_number v + 1; total_pages := Some tp;
               all_posts := all_posts v
                 ++ snd (append_cards (post_cards (listing_soup html)) base_url []) |}
    /\ w' = log_request (page_url base_url (page_number v)) w.
Proof.
  unfold walk_round, walk_try, fetch, first_page_total.
  destruct (remote (page_url base_url (page_number v))) as [html|chunked].
  2:{ destruct chunked; simpl; intros H; discriminate. }
  destruct (if page_number v =? 0
            then total_posts <-? get_total_posts (listing_soup html);
                 Ok (Some (pages_of_total total_posts))
            else Ok (total_pages v)) as [total|e] eqn:Htotal.
  2:{ destruct (is_RequestException e); intros H; discriminate. }
  destruct (post_cards (listing_soup html)) as [|card cards] eqn:Hcards.
  { intros H; discriminate. }
  cbn [page_number total_pages all_posts].
  rewrite append_cards_acc.
  destruct (fst (append_cards (card :: cards) base_url [])) as [[]|e] eqn:Hok.
  2:{ destruct (is_RequestException e); intros H; discriminate. }
  destruct total as [tp|].
  2:{ simpl. intros H; discriminate. }
  destruct (page_number v >=? tp - 1) eqn:Hge.
  { intros H; discriminate. }
  intros H. injection H as Hv Hw. subst v' w'.
  exists html, tp. rewrite Hcards.
  repeat split; try reflexivity; try assumption.
  - discriminate.
  - lia.
Qed.

Lemma page_posts_served base_url n html :
  remote (page_url base_url (Z.of_nat n)) = Body html ->
  page_posts base_url n
  = snd (append_cards (post_cards (listing_soup html)) base_url []).
Proof. intros H. unfold page_posts. rewrite H. reflexivity. Qed.

Lemma append_cards_nonempty cards base_url :
  cards <> [] -> fst (append_cards cards base_url []) = Ok tt ->
  snd (append_cards cards base_url []) <> [].
Proof.
  destruct cards as [|card cards]; [contradiction|]. intros _. simpl.
  destruct (extract_post_info card base_url) as [post|e]; [|discriminate].
  rewrite append_cards_acc. simpl. intros _ H. discriminate.
Qed.

(** What holds after [n] rounds that went on: the loop stands at page
    [n], it has the posts of the pages before, which were all served,
    and it has requested those pages and done nothing else. *)
Lemma reaches_inv base_url w0 n v w :
  reaches base_url w0 n v w ->
  page_number v = Z.of_nat n
  /\ all_posts v = flat_map (page_posts base_url) (seq 0 n)
  /\ (forall i, (i < n)%nat -> page_served base_url i)
  /\ w = log_requests (page_urls base_url n) w0.
Proof.
  induction 1 as [|n v w v' w' Hreach IH Hround].
  - repeat split; try reflexivity.
    + intros i Hi. lia.
    + rewrite log_requests_nil. reflexivity.
  - destruct IH as (Hpn & Hposts & Hserved & Hw).
    apply walk_round_continue_inv in Hround
      as (html & tp & Hremote & Hcards & Hok & Htotal & Hlt & -> & ->).
    rewrite Hpn in *. repeat split.
    + simpl. lia.
    + simpl all_posts. rewrite seq_S, flat_map_app. simpl.
      rewrite app_nil_r, Hposts, (page_posts_served _ _ _ Hremote). reflexivity.
    + intros i Hi. destruct (decide (i = n)) as [->|Hne].
      * exists html. auto.
      * apply Hserved. lia.
    + rewrite Hw, log_request_requests, page_urls_S. reflexivity.
Qed.

(** From the second round on the total of pages is fixed and the page
    number grows, so the loop ends. *)
Lemma walk_loop_ends_later base_url tp : forall m v w,
  total_pages v = Some tp -> 0 < page_number v ->
  (Z.to_nat (tp - 1 - page_number v) <= m)%nat ->
  exists r, forall fuel, (m < fuel)%nat -> walk_loop fuel base_url v w = Some r.
Proof.
  induction m as [|m IH]; intros v w Htp Hpos Hm;
    destruct (walk_round base_url v w) as [[[[]|e] v'] w'] eqn:Hround.
  all: try (eexists; intros [|fuel] Hfuel; [lia|];
            cbn [walk_loop]; rewrite Hround; reflexivity).
  all: destruct (walk_round_continue_inv _ _ _ _ _ Hround)
      as (html & tp' & _ & _ & _ & Htotal & Hlt & Hv' & _).
  all: replace (page_number v =? 0) with false in Htotal
      by (symmetry; apply Z.eqb_neq; lia).
  all: rewrite Htp in Htotal; injection Htotal as <-.
  - lia.
  - destruct (IH v' w') as (r & Hr).
    + rewrite Hv'. reflexivity.
    + rewrite Hv'. simpl. lia.
    + rewrite Hv'. simpl. lia.
    + exists r. intros [|fuel] Hfuel; [lia|].
      cbn [walk_loop]. rewrite Hround. apply Hr. lia.
Qed.

(** The pagination loop ends, whatever the site answers: some number
    of rounds is enough, and more rounds give the same result. *)
Lemma walk_loop_ends base_url w0 :
  exists bound r,
    forall fuel, (bound < fuel)%nat ->
                 walk_loop fuel base_url walker_start w0 = Some r.
Proof.
  destruct (walk_round base_url walker_start w0) as [[[[]|e] v'] w'] eqn:Hround.
  1, 3: exists 0%nat; eexists; intros [|fuel] Hfuel; [lia|];
    cbn [walk_loop]; rewrite Hround; reflexivity.
  destruct (walk_round_continue_inv _ _ _ _ _ Hround)
    as (html & tp & _ & _ & _ & _ & _ & Hv' & _).
  destruct (walk_loop_ends_later base_url tp
              (Z.to_nat (tp - 1 - page_number v')) v' w') as (r & Hr).
  - rewrite Hv'. reflexivity.
  - rewrite Hv'. simpl. lia.
  - lia.
  - exists (S (Z.to_nat (tp - 1 - page_number v'))), r.
    intros [|fuel] Hfuel; [lia|].
    cbn [walk_loop]. rewrite Hround. apply Hr. lia.
Qed.

(** So the script ends as well. *)
Lemma main_ends config base_url w0 :
  exists bound r,
    forall fuel, (bound < fuel)%nat -> main fuel config base_url w0 = Some r.
Proof.
  destruct (walk_loop_ends base_url w0) as (bound & [[r v] w] & Hwalk).
  exists bound.
  destruct r as [[]|e]; eexists; intros fuel Hfuel; unfold main;
    rewrite (Hwalk fuel Hfuel); reflexivity.
Qed.

Lemma page_served_posts base_url i :
  page_served base_url i -> page_posts base_url i <> [].
Proof.
  intros (html & Hremote & Hcards & Hok).
  rewrite (page_posts_served _ _ _ Hremote).
  apply append_cards_nonempty; assumption.
Qed.

End WalkerInvariant.

(** The first listing page of this profile has no post cards, and its
    total-count element does not hold the words that [get_total_posts]
    cuts at, so the loop ends in an [IndexError], which nothing
    catches. *)
Lemma empty_first_page_with_unreadable_total :
  @remote Site.env (page_url (Site.profile "5") 0) = Body "user 5, page 1"
  /\ post_cards (@listing_soup Site.env "user 5, page 1") = []
  /\ forall fuel,
       walk_loop (E := Site.env) (S fuel) (Site.profile "5") walker_start Site.nothing
       = Some (Raise IndexError, walker_start,
               log_request (page_url (Site.profile "5") 0) Site.nothing)
       /\ main (E := Site.env) (S fuel) Site.only_files (Site.profile "5") Site.nothing
          = Some (Raise IndexError,
                  log_request (page_url (Site.profile "5") 0) Site.nothing).
Proof.
  split; [vm_compute; reflexivity|]. split; [vm_compute; reflexivity|].
  intros fuel.
  assert (walk_loop (E := Site.env) (S fuel) (Site.profile "5") walker_start Site.nothing
          = Some (Raise IndexError, walker_start,
                  log_request (page_url (Site.profile "5") 0) Site.nothing)) as Hwalk.
  { cbn [walk_loop].
    replace (walk_round (E := Site.env) (Site.profile "5") walker_start Site.nothing)
      with (Raise (A := flow) IndexError, walker_start,
            log_request (page_url (Site.profile "5") 0) Site.nothing)
      by (vm_compute; reflexivity).
    reflexivity. }
  split; [exact Hwalk|]. unfold main. rewrite Hwalk. reflexivity.
Qed.

(** X24. When the loop has gone round [n] times and the next listing
    page is served without post cards, then, unless this is the first
    page and its total-count element cannot be read, the loop ends
    without an exception, prints nothing, and [all_posts] is what it
    was: the posts of the [n] pages before. *)
Theorem empty_page_ends_walk `{E : Env}
    (base_url : string) (w0 : world) (n : nat) (v : walker) (w : world)
    (html : string) (fuel : nat) :
  reaches base_url w0 n v w ->
  remote (page_url base_url (Z.of_nat n)) = Body html ->
  post_cards (listing_soup html) = [] ->
  (n = 0%nat -> exists total, get_total_posts (listing_soup html) = Ok total) ->
  (n < fuel)%nat ->
  exists v',
    walk_loop fuel base_url walker_start w0
    = Some (Ok tt, v', log_request (page_url base_url (Z.of_nat n)) w)
    /\ all_posts v' = all_posts v
    /\ all_posts v = flat_map (page_posts base_url) (seq 0 n)
    /\ printed (log_request (page_url base_url (Z.of_nat n)) w) = printed w0.
Proof.
  intros Hreach Hbody Hcards Htotal Hfuel.
  destruct (reaches_inv _ _ _ _ _ Hreach) as (Hpn & Hposts & Hserved & Hw).
  assert (exists total,
             (if page_number v =? 0 then first_page_total (listing_soup html)
              else Ok (total_pages v)) = Ok total) as (total & Htot).
  { rewrite Hpn. destruct n as [|n].
    - destruct (Htotal eq_refl) as (t & Ht). simpl.
      unfold first_page_total. rewrite Ht. eauto.
    - replace (Z.of_nat (S n) =? 0) with false by (symmetry; apply Z.eqb_neq; lia).
      eauto. }
  rewrite <- Hpn in Hbody.
  pose proof (walk_round_empty base_url v w html total Hbody Hcards Htot) as Hround.
  eexists. split; [|split; [|split]].
  - replace fuel with (n + S (fuel - S n))%nat by lia.
    rewrite (walk_loop_reaches _ _ _ _ _ Hreach). simpl.
    rewrite Hround, Hpn. reflexivity.
  - reflexivity.
  - exact Hposts.
  - rewrite Hw. reflexivity.
Qed.

Lemma empty_page_ends_walk_witness :
  exists v w,
    reaches (E := Site.env) (Site.profile "3") Site.nothing 1 v w
    /\ @remote Site.env (page_url (Site.profile "3") (Z.of_nat 1)) = Body "user 3, page 2"
    /\ post_cards (@listing_soup Site.env "user 3, page 2") = []
    /\ (1 < 2)%nat
    /\ exists v',
         walk_loop (E := Site.env) 2 (Site.profile "3") walker_start Site.nothing
         = Some (Ok tt, v', log_request (page_url (Site.profile "3") (Z.of_nat 1)) w)
         /\ all_posts v' = all_posts v.
Proof.
  eexists. eexists.
  split.
  { eapply reaches_next; [apply reaches_start|]. vm_compute. reflexivity. }
  split; [vm_compute; reflexivity|]. split; [vm_compute; reflexivity|].
  split; [lia|].
  match goal with
  | |- exists v', walk_loop _ _ _ _ = Some (_, _, log_request _ ?w) /\ _ = all_posts ?v =>
      destruct (empty_page_ends_walk (E := Site.env)
                  (Site.profile "3") Site.nothing 1 v w "user 3, page 2" 2)
        as (v' & Hwalk & Hsame & _)
  end.
  - eapply reaches_next; [apply reaches_start|]. vm_compute. reflexivity.
  - vm_compute. reflexivity.
  - vm_compute. reflexivity.
  - intros H. discriminate.
  - lia.
  - exists v'. split; [exact Hwalk|exact Hsame].
Defined.

(** ** The number of pages *)

Lemma ceil_div_50 (n : Z) : (n + 49) / 50 = ceil_div n 50.
Proof.
  unfold ceil_div.
  pose proof (Z.div_mod (n + 49) 50 ltac:(lia)) as H1.
  pose proof (Z.mod_pos_bound (n + 49) 50 ltac:(lia)) as H2.
  pose proof (Z.div_mod (- n) 50 ltac:(lia)) as H3.
  pose proof (Z.mod_pos_bound (- n) 50 ltac:(lia)) as H4.
  lia.
Qed.

Lemma pages_of_total_positive (n : Z) :
  1 <= n -> pages_of_total (Some n) = ceil_div n 50 /\ 1 <= ceil_div n 50.
Proof.
  intros Hn. unfold pages_of_total, truthy.
  replace (n =? 0) with false by (symmetry; apply Z.eqb_neq; lia). simpl.
  rewrite ceil_div_50. split; [reflexivity|].
  rewrite <- ceil_div_50.
  apply Z.div_le_lower_bound; lia.
Qed.

Section WalkerProgress.

Context {E : Env}.

Variables (base_url : string) (w0 : world) (html0 : string) (tp : Z).

Hypothesis first_page : remote (page_url base_url 0) = Body html0.
Hypothesis first_total : first_page_total (listing_soup html0) = Ok (Some tp).

Lemma round_total n v w html :
  reaches base_url w0 n v w ->
  remote (page_url base_url (Z.of_nat n)) = Body html ->
  (n <> 0%nat -> total_pages v = Some tp) ->
  (if page_number v =? 0 then first_page_total (listing_soup html)
   else Ok (total_pages v)) = Ok (Some tp).
Proof.
  intros Hreach Hbody Htp.
  destruct (reaches_inv _ _ _ _ _ Hreach) as (Hpn & _).
  rewrite Hpn. destruct n as [|n].
  - change (Z.of_nat 0) with 0 in *.
    rewrite first_page in Hbody. injection Hbody as <-.
    exact first_total.
  - replace (Z.of_nat (S n) =? 0) with false by (symmetry; apply Z.eqb_neq; lia).
    rewrite Htp; [reflexivity|discriminate].
Qed.

(** While pages are served and the total is not reached, the loop
    goes on. *)
Lemma reaches_served n :
  (n = 0%nat \/ Z.of_nat n < tp) ->
  (forall i, (i < n)%nat -> page_served base_url i) ->
  exists v w,
    reaches base_url w0 n v w /\ (n <> 0%nat -> total_pages v = Some tp).
Proof.
  induction n as [|n IH]; intros Hlt Hserved.
  - exists walker_start, w0. split; [constructor|]. intros H. contradiction.
  - destruct IH as (v & w & Hreach & Htp).
    { destruct n; [left; reflexivity|right; lia]. }
    { intros i Hi. apply Hserved. lia. }
    destruct (Hserved n ltac:(lia)) as (html & Hbody & Hcards & Hok).
    pose proof (round_total n v w html Hreach Hbody Htp) as Htot.
    destruct (reaches_inv _ _ _ _ _ Hreach) as (Hpn & _).
    rewrite <- Hpn in Hbody.
    pose proof (walk_round_cards base_url v w html tp Hbody Hcards Hok Htot) as Hround.
    replace (page_number v >=? tp - 1) with false in Hround
      by (symmetry; rewrite Z.geb_leb; apply Z.leb_gt; lia).
    eexists. eexists. split.
    + eapply reaches_next; [exact Hreach|exact Hround].
    + intros _. reflexivity.
Qed.

(** When every page up to the total is served, the loop requests
    exactly these pages, in order, and ends with their posts. *)
Lemma walk_all_served fuel :
  let pages := Z.to_nat (Z.max 1 tp) in
  (forall i, (i < pages)%nat -> page_served base_url i) ->
  (pages <= fuel)%nat ->
  exists v,
    walk_loop fuel base_url walker_start w0
    = Some (Ok tt, v, log_requests (page_urls base_url pages) w0)
    /\ all_posts v = flat_map (page_posts base_url) (seq 0 pages).
Proof.
  intros pages Hserved Hfuel.
  assert (exists n, pages = S n) as (n & Hn) by (exists (pages - 1)%nat; lia).
  destruct (reaches_served n) as (v & w & Hreach & Htp).
  { destruct n; [left; reflexivity|right; lia]. }
  { intros i Hi. apply Hserved. lia. }
  destruct (Hserved n ltac:(lia)) as (html & Hbody & Hcards & Hok).
  pose proof (round_total n v w html Hreach Hbody Htp) as Htot.
  destruct (reaches_inv _ _ _ _ _ Hreach) as (Hpn & Hposts & _ & Hw).
  pose proof (page_posts_served _ _ _ Hbody) as Hpage.
  rewrite <- Hpn in Hbody.
  pose proof (walk_round_cards base_url v w html tp Hbody Hcards Hok Htot) as Hround.
  replace (page_number v >=? tp - 1) with true in Hround
    by (symmetry; rewrite Z.geb_leb; apply Z.leb_le; lia).
  eexists. split.
  - replace fuel with (n + S (fuel - S n))%nat by lia.
    rewrite (walk_loop_reaches _ _ _ _ _ Hreach). simpl.
    rewrite Hround, Hw, Hpn, log_request_requests, <- page_urls_S, <- Hn.
    reflexivity.
  - simpl. rewrite Hn, seq_S, flat_map_app, Hposts, <- Hpage. simpl.
    rewrite app_nil_r. reflexivity.
Qed.

End WalkerProgress.

(** Against C4 as it is worded: a first page whose total-count element
    reports 0.  The guard on line 288 takes 0 for no total at all, and
    the loop counts one page where the quotient rounded up is 0. *)
Lemma total_of_zero_counts_one_page :
  @remote Site.env (page_url (Site.profile "4") 0) = Body "user 4, page 1"
  /\ get_total_posts (@listing_soup Site.env "user 4, page 1") = Ok (Some 0)
  /\ first_page_total (@listing_soup Site.env "user 4, page 1") = Ok (Some 1)
  /\ ceil_div 0 50 = 0
  /\ pages_of_total (Some 0) <> ceil_div 0 50
  /\ exists v,
       walk_loop (E := Site.env) 1 (Site.profile "4") walker_start Site.nothing
       = Some (Ok tt, v, log_requests [Site.profile "4" +:+ "?o=0"] Site.nothing)
       /\ total_pages v = Some 1.
Proof.
  split; [vm_compute; reflexivity|]. split; [vm_compute; reflexivity|].
  split; [vm_compute; reflexivity|]. split; [vm_compute; reflexivity|].
  split; [vm_compute; discriminate|].
  eexists. split; vm_compute; reflexivity.
Qed.

(** C4, amended. Let the first listing page be served and let its
    total-count element report a total [N >= 1], or report 0, or be
    absent.  Then the loop counts [N / 50] rounded up pages in the
    first case and one page in the other two; and when each of these
    pages is served with post cards that are all extracted, the loop
    requests exactly these pages, at the offsets 0, 50, 100, ... in
    this order, and ends with their posts.  A first page that reports
    73 gives 2 pages. *)
Theorem pages_from_total `{E : Env}
    (base_url : string) (w0 : world) (html0 : string) (total : option Z)
    (fuel : nat) :
  remote (page_url base_url 0) = Body html0 ->
  get_total_posts (listing_soup html0) = Ok total ->
  (forall N, total = Some N -> 0 <= N) ->
  let pages := match total with
               | Some N => if N =? 0 then 1 else ceil_div N 50
               | None => 1
               end in
  (forall i : nat, Z.of_nat i < pages -> page_served base_url i) ->
  (Z.to_nat pages <= fuel)%nat ->
  pages_of_total total = pages
  /\ (small (listing_soup html0) = None -> pages = 1)
  /\ (text <$> small (listing_soup html0) = Some "Showing 1-50 of 73" -> pages = 2)
  /\ exists v,
       walk_loop fuel base_url walker_start w0
       = Some (Ok tt, v,
               log_requests
                 (map (fun i : nat => base_url +:+ "?o=" +:+ PyStr.str (Z.of_nat i * 50))
                    (seq 0 (Z.to_nat pages))) w0)
       /\ all_posts v = flat_map (page_posts base_url) (seq 0 (Z.to_nat pages)).
Proof.
  intros Hbody Htotal Hpos pages Hserved Hfuel.
  assert (pages_of_total total = pages /\ 1 <= pages) as (Hpages & Hone).
  { unfold pages. destruct total as [N|].
    - destruct (N =? 0) eqn:Hzero.
      + apply Z.eqb_eq in Hzero. subst N. split; [reflexivity|lia].
      + apply Z.eqb_neq in Hzero. apply pages_of_total_positive.
        specialize (Hpos N eq_refl). lia.
    - split; [reflexivity|lia]. }
  split; [exact Hpages|]. split; [|split].
  - intros Hsmall. unfold get_total_posts in Htotal. rewrite Hsmall in Htotal.
    injection Htotal as <-. reflexivity.
  - intros Hsmall. unfold get_total_posts in Htotal.
    destruct (small (listing_soup html0)) as [t|]; [|discriminate].
    injection Hsmall as Ht. rewrite Ht in Htotal.
    vm_compute in Htotal. injection Htotal as <-. reflexivity.
  - assert (first_page_total (listing_soup html0) = Ok (Some pages)) as Hfirst.
    { unfold first_page_total. rewrite Htotal. simpl. rewrite Hpages. reflexivity. }
    destruct (walk_all_served base_url w0 html0 pages Hbody Hfirst fuel)
      as (v & Hwalk & Hposts).
    + intros i Hi. apply Hserved. lia.
    + lia.
    + exists v. replace (Z.to_nat (Z.max 1 pages)) with (Z.to_nat pages) in * by lia.
      split; [exact Hwalk|exact Hposts].
Qed.

Lemma pages_from_total_witness :
  @remote Site.env (page_url (Site.profile "1") 0) = Body "user 1, page 1"
  /\ get_total_posts (@listing_soup Site.env "user 1, page 1") = Ok (Some 73)
  /\ ceil_div 73 50 = 2
  /\ (forall i : nat, Z.of_nat i < 2 -> page_served (E := Site.env) (Site.profile "1") i)
  /\ exists v,
       walk_loop (E := Site.env) 2 (Site.profile "1") walker_start Site.nothing
       = Some (Ok tt, v,
               log_requests
                 [Site.profile "1" +:+ "?o=0"; Site.profile "1" +:+ "?o=50"]
                 Site.nothing).
Proof.
  assert (forall i : nat, Z.of_nat i < 2 ->
            page_served (E := Site.env) (Site.profile "1") i) as Hserved.
  { intros i Hi. assert (i = 0 \/ i = 1)%nat as [-> | ->] by lia.
    - exists "user 1, page 1". repeat split; try (vm_compute; reflexivity).
      vm_compute. discriminate.
    - exists "user 1, page 2". repeat split; try (vm_compute; reflexivity).
      vm_compute. discriminate. }
  split; [vm_compute; reflexivity|]. split; [vm_compute; reflexivity|].
  split; [vm_compute; reflexivity|]. split; [exact Hserved|].
  destruct (pages_from_total (E := Site.env) (Site.profile "1") Site.nothing
              "user 1, page 1" (Some 73) 2)
    as (_ & _ & _ & v & Hwalk & _).
  - vm_compute. reflexivity.
  - vm_compute. reflexivity.
  - intros N HN. injection HN as <-. lia.
  - exact Hserved.
  - vm_compute. lia.
  - exists v. rewrite Hwalk. vm_compute. reflexivity.
Defined.

(** ** A post that is already there *)

Section Resume.

Context {E : Env}.

Variable post_path : string.

Lemma keeps_ret {A} (a : A) : keeps_folder post_path (ret a).
Proof. intros w H. exact H. Qed.

Lemma keeps_raise {A} (e : exn) : keeps_folder post_path (raise (A := A) e).
Proof. intros w H. exact H. Qed.

Lemma keeps_lift {A} (r : result A) : keeps_folder post_path (lift r).
Proof. intros w H. exact H. Qed.

Lemma keeps_bind {A B} (m : M A) (k : A -> M B) :
  keeps_folder post_path m -> (forall a, keeps_folder post_path (k a)) ->
  keeps_folder post_path (bind m k).
Proof.
  intros Hm Hk w H. unfold bind. specialize (Hm w H).
  destruct (m w) as [[a|e] w1]; simpl in *.
  - apply Hk. exact Hm.
  - exact Hm.
Qed.

Lemma keeps_try_except {A} (m : M A) catches handler :
  keeps_folder post_path m -> (forall e, keeps_folder post_path (handler e)) ->
  keeps_folder post_path (try_except m catches handler).
Proof.
  intros Hm Hh w H. unfold try_except. specialize (Hm w H).
  destruct (m w) as [[a|e] w1]; simpl in *.
  - exact Hm.
  - destruct (catches e); [apply Hh|]; exact Hm.
Qed.

Lemma keeps_print msg : keeps_folder post_path (act (print msg)).
Proof. intros w H. exact H. Qed.

Lemma keeps_fetch url : keeps_folder post_path (fetch url).
Proof. intros w H. unfold fetch. destruct (remote url); exact H. Qed.

Lemma keeps_set_folder p d w :
  is_Some (folders w !! post_path) ->
  is_Some (folders (set_folder p d w) !! post_path).
Proof.
  intros H. simpl. destruct (decide (p = post_path)) as [->|Hne].
  - rewrite lookup_insert_eq. eauto.
  - rewrite lookup_insert_ne; assumption.
Qed.

Lemma keeps_write_file p name data :
  keeps_folder post_path (write_file p name data).
Proof.
  intros w H. unfold write_file.
  destruct (folders w !! p) as [d|]; [|exact H].
  destruct (d !! name) as [[|other]|]; try exact H;
    (destruct (open_refused _); [exact H|apply keeps_set_folder; exact H]).
Qed.

Lemma keeps_makedirs p : keeps_folder post_path (makedirs p).
Proof.
  intros w H. unfold makedirs.
  destruct (path_there p w); [exact H|].
  destruct (makedirs_refused p); [exact H|]. apply keeps_set_folder. exact H.
Qed.

Lemma keeps_download_file failed p t :
  keeps_folder post_path (download_file failed p t).
Proof.
  unfold download_file. apply keeps_bind; [apply keeps_lift|]. intros url.
  apply keeps_bind; [apply keeps_lift|]. intros filename w H.
  destruct (negb _); [|exact H].
  apply (keeps_try_except
           (do data <- fetch url;
            write_file p
              (ensure_unique_filename (folder_at p w) filename) data)
           is_RequestException (fun _ => act (print (failed url)))).
  - apply keeps_bind; [apply keeps_fetch|]. intros data. apply keeps_write_file.
  - intros e. apply keeps_print.
  - exact H.
Qed.

Lemma keeps_download_files failed p tags :
  keeps_folder post_path (download_files failed p tags).
Proof.
  induction tags as [|t tags IH]; simpl.
  - apply keeps_ret.
  - apply keeps_bind; [apply keeps_download_file|]. intros _. exact IH.
Qed.

Lemma keeps_save_post_info soup p :
  keeps_folder post_path (save_post_info soup p).
Proof.
  unfold save_post_info. destruct (info_html soup _) as [html interrupted].
  apply keeps_bind; [apply keeps_write_file|]. intros _.
  destruct interrupted; [apply keeps_raise|apply keeps_ret].
Qed.

Lemma keeps_download_attachments_and_videos config soup p :
  keeps_folder post_path (download_attachments_and_videos config soup p).
Proof.
  unfold download_attachments_and_videos.
  apply keeps_bind.
  - destruct (download_attachments config);
      [apply keeps_download_files|apply keeps_ret].
  - intros _. destruct (download_videos config);
      [apply keeps_download_files|apply keeps_ret].
Qed.

Lemma keeps_download_new_post url config soup p :
  keeps_folder post_path (download_new_post url config soup p).
Proof.
  unfold download_new_post.
  apply keeps_bind; [apply keeps_makedirs|]. intros _.
  apply keeps_bind.
  { destruct (save_info_txt config); [apply keeps_save_post_info|apply keeps_ret]. }
  intros _. apply keeps_bind; [apply keeps_download_files|]. intros _.
  apply keeps_bind; [apply keeps_download_attachments_and_videos|]. intros _.
  apply keeps_print.
Qed.

Lemma keeps_handler e :
  keeps_folder post_path
    (match e with
     | ChunkedEncodingError => act (print MsgChunkedEncodingError)
     | _ => act (print MsgRequestException)
     end).
Proof. destruct e; apply keeps_print. Qed.

Lemma keeps_download_content url config :
  keeps_folder post_path (download_content url config).
Proof.
  unfold download_content. apply keeps_try_except; [|apply keeps_handler].
  unfold download_try.
  apply keeps_bind; [apply keeps_fetch|]. intros html.
  apply keeps_bind; [apply keeps_lift|]. intros p w H.
  destruct (path_there p w); [exact H|].
  apply keeps_download_new_post. exact H.
Qed.

Lemma path_there_made w :
  is_Some (folders w !! post_path) -> path_there post_path w = true.
Proof.
  intros H. unfold path_there. rewrite bool_decide_eq_true_2 by exact H. reflexivity.
Qed.

Lemma path_there_folders w w' :
  folders w' = folders w -> path_there post_path w' = path_there post_path w.
Proof. intros H. unfold path_there. rewrite H. reflexivity. Qed.

(** The post folder is there: only the page is requested, one line is
    printed, and nothing else changes. *)
Lemma download_content_skips url config html w :
  remote url = Body html ->
  post_path_of url (post_soup html) = Ok post_path ->
  path_there post_path w = true ->
  download_content url config w
  = (Ok tt, print (MsgFolderExists post_path) (log_request url w)).
Proof.
  intros Hbody Hpath Hthere.
  unfold download_content, download_try, try_except, bind, fetch, lift.
  rewrite Hbody, Hpath. simpl.
  rewrite (path_there_folders w (log_request url w) eq_refl), Hthere. reflexivity.
Qed.

Lemma download_new_post_makes_folder url config soup w :
  path_there post_path w = false ->
  makedirs_refused post_path = None ->
  is_Some (folders (snd (download_new_post url config soup post_path w)) !! post_path).
Proof.
  intros Hnot Hmakes. unfold download_new_post.
  assert (makedirs post_path w = (Ok tt, set_folder post_path new_folder w)) as Hmk.
  { unfold makedirs. rewrite Hnot, Hmakes. reflexivity. }
  rewrite (bind_ok _ _ _ _ _ Hmk).
  match goal with
  | |- context [bind ?m ?k (set_folder post_path new_folder w)] =>
      assert (keeps_folder post_path (bind m k)) as Hk
  end.
  { apply keeps_bind.
    { destruct (save_info_txt config); [apply keeps_save_post_info|apply keeps_ret]. }
    intros _. apply keeps_bind; [apply keeps_download_files|]. intros _.
    apply keeps_bind; [apply keeps_download_attachments_and_videos|]. intros _.
    apply keeps_print. }
  apply Hk. simpl. rewrite lookup_insert_eq. eauto.
Qed.

(** After [download_content] has got as far as the post folder, and
    unless [os.makedirs] refuses its path, the folder is there. *)
Lemma download_content_makes_folder url config html w :
  remote url = Body html ->
  post_path_of url (post_soup html) = Ok post_path ->
  makedirs_refused post_path = None ->
  path_there post_path (snd (download_content url config w)) = true.
Proof.
  intros Hbody Hpath Hmakes.
  destruct (path_there post_path w) eqn:Hthere.
  - rewrite (download_content_skips url config html w Hbody Hpath Hthere).
    exact Hthere.
  - apply path_there_made.
    unfold download_content, try_except, download_try, bind at 1, fetch.
    rewrite Hbody. unfold bind at 1, lift. rewrite Hpath.
    rewrite (path_there_folders w (log_request url w) eq_refl), Hthere.
    pose proof (download_new_post_makes_folder url config (post_soup html)
                  (log_request url w) Hthere Hmakes) as Hm.
    destruct (download_new_post url config (post_soup html) post_path
                (log_request url w)) as [[[]|e] w1]; simpl in *; [exact Hm|].
    destruct (is_RequestException e); [|exact Hm].
    destruct e; exact Hm.
Qed.

(** [os.makedirs] refuses the path of the post folder: the call ends in
    the exception of the refusal after the request for the page. *)
Lemma download_content_refused url config html w r :
  remote url = Body html ->
  post_path_of url (post_soup html) = Ok post_path ->
  path_there post_path w = false ->
  makedirs_refused post_path = Some r ->
  download_content url config w = (Raise (exn_of_refusal r), log_request url w).
Proof.
  intros Hbody Hpath Hnot Hrefused.
  unfold download_content, try_except, download_try, bind at 1, fetch.
  rewrite Hbody. unfold bind at 1, lift. rewrite Hpath.
  rewrite (path_there_folders w (log_request url w) eq_refl), Hnot.
  unfold download_new_post, bind at 1, makedirs.
  rewrite (path_there_folders w (log_request url w) eq_refl), Hnot, Hrefused.
  destruct r; reflexivity.
Qed.

End Resume.

(** Without a destination path [download_content] requests the page
    and, at most, prints a line. *)
Lemma download_content_without_path `{E : Env} url config w :
  (forall html post_path,
      remote url = Body html -> post_path_of url (post_soup html) <> Ok post_path) ->
  folders (snd (download_content url config w)) = folders w
  /\ index_file (snd (download_content url config w)) = index_file w
  /\ requests (snd (download_content url config w)) = requests w ++ [url].
Proof.
  intros Hnone.
  unfold download_content, try_except, download_try, bind, fetch, lift.
  destruct (remote url) as [html|chunked] eqn:Hremote.
  - destruct (post_path_of url (post_soup html)) as [post_path|e] eqn:Hpath.
    + exfalso. exact (Hnone html post_path eq_refl Hpath).
    + destruct e; simpl; auto.
  - destruct chunked; simpl; auto.
Qed.

(** Against C3 as it is worded: a post whose page the site does not
    serve.  The first call prints that the request failed and makes no
    folder; the second call does the same, and does not print that the
    post is skipped. *)
Lemma second_download_of_unserved_post_fails_again :
  let url := Site.post_url "99" in
  let w1 := snd (download_content (E := Site.env) url Site.all_on Site.nothing) in
  let second := download_content (E := Site.env) url Site.all_on w1 in
  @remote Site.env url = Fails false
  /\ printed w1 = [MsgRequestException]
  /\ second = (Ok tt, print MsgRequestException (log_request url w1))
  /\ printed (snd second) = [MsgRequestException; MsgRequestException]
  /\ folders (snd second) = ∅.
Proof.
  vm_compute. repeat split.
Qed.

(** C3, amended. A second call of [download_content] on the same
    post, the remote site being the same, requests the page of the post
    and nothing else, and leaves every folder and every file as the
    first call left them, whatever the first call started from.  When
    the page is served, the destination path is resolved and
    [os.makedirs] does not refuse it, the path is there after the first
    call, and the second call prints that it skips the post; more
    generally, whenever the destination path is there,
    [download_content] skips the post in this way. *)
Theorem second_download_is_skipped `{E : Env}
    (url : string) (config : config) (w0 : world) :
  let w1 := snd (download_content url config w0) in
  let second := download_content url config w1 in
  folders (snd second) = folders w1
  /\ index_file (snd second) = index_file w1
  /\ requests (snd second) = requests w1 ++ [url]
  /\ forall html post_path,
       remote url = Body html ->
       post_path_of url (post_soup html) = Ok post_path ->
       (makedirs_refused post_path = None ->
        path_there post_path w1 = true
        /\ second = (Ok tt, print (MsgFolderExists post_path) (log_request url w1)))
       /\ forall w, path_there post_path w = true ->
            download_content url config w
            = (Ok tt, print (MsgFolderExists post_path) (log_request url w)).
Proof.
  intros w1 second.
  assert (folders (snd second) = folders w1
          /\ index_file (snd second) = index_file w1
          /\ requests (snd second) = requests w1 ++ [url]) as Hframe.
  { destruct (remote url) as [html|chunked] eqn:Hremote.
    - destruct (post_path_of url (post_soup html)) as [post_path|e] eqn:Hpath.
      + destruct (path_there post_path w1) eqn:Hthere.
        * unfold second.
          rewrite (download_content_skips post_path url config html w1
                     Hremote Hpath Hthere).
          repeat split.
        * destruct (makedirs_refused post_path) as [r|] eqn:Hmakes.
          -- unfold second.
             rewrite (download_content_refused post_path url config html w1 r
                        Hremote Hpath Hthere Hmakes).
             repeat split.
          -- pose proof (download_content_makes_folder post_path url config html w0
                           Hremote Hpath Hmakes) as Hmade.
             fold w1 in Hmade. rewrite Hmade in Hthere. discriminate.
      + apply download_content_without_path.
        intros html' post_path Hbody. rewrite Hremote in Hbody.
        injection Hbody as <-. rewrite Hpath. discriminate.
    - apply download_content_without_path.
      intros html post_path Hbody. rewrite Hremote in Hbody. discriminate. }
  destruct Hframe as (Hfolders & Hindex & Hrequests).
  split; [exact Hfolders|]. split; [exact Hindex|]. split; [exact Hrequests|].
  intros html post_path Hbody Hpath. split.
  - intros Hmakes.
    pose proof (download_content_makes_folder post_path url config html w0
                  Hbody Hpath Hmakes) as Hmade.
    fold w1 in Hmade. split; [exact Hmade|].
    exact (download_content_skips post_path url config html w1 Hbody Hpath Hmade).
  - intros w Hthere.
    exact (download_content_skips post_path url config html w Hbody Hpath Hthere).
Qed.

Lemma second_download_is_skipped_witness :
  @remote Site.env (Site.post_url "10") = Body "post 10"
  /\ post_path_of (E := Site.env) (Site.post_url "10") (@post_soup Site.env "post 10")
     = Ok "Kemono/alice-patreon/posts/10"
  /\ @makedirs_refused Site.env "Kemono/alice-patreon/posts/10" = None
  /\ let w1 := snd (download_content (E := Site.env) (Site.post_url "10")
                      Site.all_on Site.nothing) in
     let second := download_content (E := Site.env) (Site.post_url "10")
                     Site.all_on w1 in
     folders (snd second) = folders w1
     /\ second
        = (Ok tt,
           print (MsgFolderExists "Kemono/alice-patreon/posts/10")
             (log_request (Site.post_url "10") w1)).
Proof.
  assert (@remote Site.env (Site.post_url "10") = Body "post 10") as Hbody
    by (vm_compute; reflexivity).
  assert (post_path_of (E := Site.env) (Site.post_url "10")
            (@post_soup Site.env "post 10")
          = Ok "Kemono/alice-patreon/posts/10") as Hpath
    by (vm_compute; reflexivity).
  assert (@makedirs_refused Site.env "Kemono/alice-patreon/posts/10" = None) as Hmakes
    by (vm_compute; reflexivity).
  split; [exact Hbody|]. split; [exact Hpath|]. split; [exact Hmakes|].
  destruct (second_download_is_skipped (E := Site.env) (Site.post_url "10")
              Site.all_on Site.nothing) as (Hfolders & _ & _ & Hskip).
  split; [exact Hfolders|].
  exact (proj2 (proj1 (Hskip "post 10" "Kemono/alice-patreon/posts/10" Hbody Hpath)
                  Hmakes)).
Defined.

Example site_first_download :
  let w1 := snd (download_content (E := Site.env) (Site.post_url "10")
                   Site.all_on Site.nothing) in
  folder_at "Kemono/alice-patreon/posts/10" w1
  = <["two_duplicate1.zip" := File "bytes of two"]>
      (<["one_duplicate1.zip" := File "bytes of one"]>
         (<["two.zip" := File "bytes of two"]>
            (<["one.zip" := File "bytes of one"]>
               (<["Hello.html" := File "Hello"]> new_folder))))
  /\ requests w1
     = [Site.post_url "10";
        Site.file_url "aa" "one.zip"; Site.file_url "bb" "two.zip";
        Site.file_url "aa" "one.zip"; Site.file_url "bb" "two.zip"]
  /\ printed w1 = [MsgPostDownloaded (Site.post_url "10")].
Proof. vm_compute. repeat split. Qed.

(** ** A post page without the post id *)

(** C7. The page of a post is served, its author and platform are
    resolved, and it has no element for the post id.  Then line 190
    raises a [TypeError], which the handlers of [download_content] do
    not catch: [download_content] ends in that exception after the one
    request for the page, and so does the loop over the posts, without
    a request for any of the posts that follow. *)
Theorem missing_post_id_stops_the_run `{E : Env}
    (url : string) (config : config) (html author platform : string)
    (post : post_info) (rest : list post_info) (w : world) :
  remote url = Body html ->
  author_name_of (post_soup html) = Ok author ->
  platform_name_of (post_soup html) = Ok platform ->
  meta_id (post_soup html) = None ->
  link post = url ->
  download_content url config w = (Raise TypeError, log_request url w)
  /\ download_posts config (post :: rest) w = (Raise TypeError, log_request url w).
Proof.
  intros Hbody Hauthor Hplatform Hid Hlink.
  assert (download_content url config w = (Raise TypeError, log_request url w)) as H.
  { unfold download_content, try_except, download_try, bind, fetch, lift.
    rewrite Hbody. unfold post_path_of, post_id_of.
    rewrite Hauthor, Hplatform, Hid. reflexivity. }
  split; [exact H|].
  simpl. unfold bind. rewrite Hlink, H. reflexivity.
Qed.

Lemma missing_post_id_stops_the_run_witness :
  @remote Site.env (Site.post_url "11") = Body "post 11"
  /\ meta_id (@post_soup Site.env "post 11") = None
  /\ download_posts (E := Site.env) Site.all_on
       [Site.without_media; Site.with_media] Site.nothing
     = (Raise TypeError, log_request (Site.post_url "11") Site.nothing).
Proof.
  split; [vm_compute; reflexivity|]. split; [vm_compute; reflexivity|].
  apply (missing_post_id_stops_the_run (E := Site.env) (Site.post_url "11")
           Site.all_on "post 11" "alice" "patreon"
           Site.without_media [Site.with_media] Site.nothing);
    vm_compute; reflexivity.
Defined.

(** The run on the profile whose two posts are the post without an id
    and, after it, a post that has one: the script ends in the
    [TypeError]; the second post is never requested and the closing
    line is not printed. *)
Example site_run_without_post_id :
  exists w,
    main (E := Site.env) 1 Site.all_on (Site.profile "6") Site.nothing
    = Some (Raise TypeError, w)
    /\ requests w = [Site.profile "6" +:+ "?o=0"; Site.post_url "11"]
    /\ (length <$> index_file w) = Some 2%nat
    /\ printed w = [].
Proof. eexists. vm_compute. repeat split. Qed.

(** ** The attachments pass and the videos pass *)

Section Passes.

Context {E : Env}.


Lemma folders_log_print post_path msg url w :
  is_Some (folders w !! post_path) ->
  is_Some (folders (print msg (log_request url w)) !! post_path).
Proof. intros H. exact H. Qed.

(** A pass whose files the operating system accepts ends without
    exception; it requests every URL once, in order, and leaves the
    folder that [pass] computes. *)
Lemma download_files_pass failed post_path links : forall items w,
  is_Some (folders w !! post_path) ->
  links_of links items ->
  accepted post_path items (folder_at post_path w) ->
  fst (download_files failed post_path links w) = Ok tt
  /\ is_Some (folders (snd (download_files failed post_path links w)) !! post_path)
  /\ requests (snd (download_files failed post_path links w))
     = requests w ++ (fst <$> items)
  /\ folder_at post_path (snd (download_files failed post_path links w))
     = pass items (folder_at post_path w).
Proof.
  induction links as [|t links IH]; intros items w Hthere Hlinks Haccepted.
  - inversion Hlinks; subst. simpl. rewrite app_nil_r. auto.
  - inversion Hlinks as [|? [url filename] ? items' (Ht & Hname) Hrest]; subst.
    cbn [fst snd] in Ht, Hname.
    cbn [download_files pass]. cbn [accepted] in Haccepted.
    destruct (remote url) as [data|chunked] eqn:Hremote.
    + destruct Haccepted as (Hopen & Haccepted).
      rewrite (bind_ok _ _ _ _ _
                 (download_file_stores failed post_path t url filename data w
                    Hthere Ht Hname Hremote Hopen)).
      match goal with
      | |- context [download_files _ _ _ ?w1] =>
          destruct (IH items' w1 (folders_put_file _ _ _ _) Hrest)
            as (Hok & Hfolder & Hreq & Hpass)
      end.
      { rewrite folder_at_put_file. exact Haccepted. }
      rewrite Hok, Hreq, Hpass, folder_at_put_file.
      split; [reflexivity|]. split; [exact Hfolder|]. split; [|reflexivity].
      rewrite fmap_cons. simpl. rewrite <- app_assoc. reflexivity.
    + rewrite (bind_ok _ _ _ _ _
                 (download_file_fails failed post_path t url filename chunked w
                    Ht Hname Hremote)).
      destruct (IH items' (print (failed url) (log_request url w))
                  (folders_log_print _ (failed url) url w Hthere) Hrest Haccepted)
        as (Hok & Hfolder & Hreq & Hpass).
      rewrite Hok, Hreq, Hpass.
      split; [reflexivity|]. split; [exact Hfolder|]. split; [|reflexivity].
      rewrite fmap_cons. simpl. rewrite <- app_assoc. reflexivity.
Qed.










End Passes.




(** ** More on file names *)

Lemma all_chars_app P s1 s2 :
  all_chars P (s1 +:+ s2) = all_chars P s1 && all_chars P s2.
Proof.
  induction s1 as [|c s1 IH]; [reflexivity|].
  rewrite app_cons. simpl. rewrite IH, andb_assoc. reflexivity.
Qed.

Lemma all_chars_take P n s : all_chars P s = true -> all_chars P (PyStr.take n s) = true.
Proof.
  revert s. induction n as [|n IH]; intros [|c s]; simpl; try reflexivity.
  intros H. apply andb_true_iff in H as (Hc & Hs). rewrite Hc, IH; auto.
Qed.

Lemma all_chars_drop P n s : all_chars P s = true -> all_chars P (PyStr.drop n s) = true.
Proof.
  revert s. induction n as [|n IH]; intros [|c s]; simpl; try (intros H; exact H).
  intros H. apply andb_true_iff in H as (Hc & Hs). auto.
Qed.

Lemma all_chars_weaken (P Q : ascii -> bool) s :
  (forall c, P c = true -> Q c = true) ->
  all_chars P s = true -> all_chars Q s = true.
Proof.
  intros HPQ. induction s as [|c s IH]; simpl; [reflexivity|].
  intros H. apply andb_true_iff in H as (Hc & Hs). rewrite (HPQ c Hc), IH; auto.
Qed.

Lemma re_sub_class_allowed s :
  allowed (re_sub_class forbidden_chars "_" s) = true.
Proof.
  unfold allowed. induction s as [|c s IH]; [reflexivity|].
  cbn [re_sub_class]. rewrite all_chars_app, IH, andb_true_r.
  destruct (in_class forbidden_chars c) eqn:Hc.
  - reflexivity.
  - cbn [all_chars]. rewrite Hc. reflexivity.
Qed.

Lemma sanitize_filename_allowed s : allowed (sanitize_filename s) = true.
Proof. apply all_chars_take, re_sub_class_allowed. Qed.

Lemma sanitize_filename_short s : (String.length (sanitize_filename s) <= 255)%nat.
Proof. unfold sanitize_filename. rewrite take_length. lia. Qed.

Lemma re_sub_class_of_allowed s :
  allowed s = true -> re_sub_class forbidden_chars "_" s = s.
Proof.
  unfold allowed. induction s as [|c s IH]; [reflexivity|].
  simpl. intros H. apply andb_true_iff in H as (Hc & Hs).
  apply negb_true_iff in Hc. rewrite Hc, app_cons, app_empty_l, IH; auto.
Qed.

Lemma take_all n s : (String.length s <= n)%nat -> PyStr.take n s = s.
Proof.
  revert s. induction n as [|n IH]; intros [|c s]; simpl; try reflexivity.
  - lia.
  - intros H. rewrite IH; [reflexivity|lia].
Qed.

(** X1. [sanitize_filename] returns its argument unchanged exactly when
    the argument holds no forbidden character and is at most 255
    characters long. *)
Theorem sanitize_filename_fixed_point (filename : string) :
  sanitize_filename filename = filename
  <-> allowed filename = true /\ (String.length filename <= 255)%nat.
Proof.
  split.
  - intros H. rewrite <- H.
    split; [apply sanitize_filename_allowed|apply sanitize_filename_short].
  - intros (Hallowed & Hlen). unfold sanitize_filename.
    rewrite (re_sub_class_of_allowed _ Hallowed). apply take_all. exact Hlen.
Qed.

(** X2. Sanitizing twice is the same as sanitizing once. *)
Theorem sanitize_filename_idempotent (filename : string) :
  sanitize_filename (sanitize_filename filename) = sanitize_filename filename.
Proof.
  unfold sanitize_filename at 1.
  rewrite re_sub_class_of_allowed.
  - apply take_all. apply sanitize_filename_short.
  - apply sanitize_filename_allowed.
Qed.

Lemma app_assoc_string (s1 s2 s3 : string) : (s1 +:+ s2) +:+ s3 = s1 +:+ (s2 +:+ s3).
Proof.
  induction s1 as [|c s1 IH]; [rewrite !app_empty_l; reflexivity|].
  rewrite !app_cons, IH. reflexivity.
Qed.

(** The decimal digits that [str] writes. *)
Lemma pretty_N_char_digit d :
  (d < 10)%N ->
  PyStr.isdigit (pretty_N_char d) = true
  /\ PyStr.digit_value (pretty_N_char d) = Z.of_N d.
Proof.
  intros Hd.
  assert (d = 0 \/ d = 1 \/ d = 2 \/ d = 3 \/ d = 4 \/ d = 5 \/ d = 6
          \/ d = 7 \/ d = 8 \/ d = 9)%N as H by lia.
  repeat (destruct H as [->|H]; [split; reflexivity|]). subst d. split; reflexivity.
Qed.

Lemma pretty_N_go_digits x : forall s,
  exists ds,
    pretty_N_go x s = ds +:+ s
    /\ all_chars PyStr.isdigit ds = true
    /\ ((0 < x)%N -> ds <> "").
Proof.
  induction (N.lt_wf_0 x) as [x _ IH]; intros s.
  assert (x = 0 \/ 0 < x)%N as [->|Hpos] by lia.
  - exists "". rewrite pretty_N_go_0. repeat split. intros H. lia.
  - rewrite pretty_N_go_step by exact Hpos.
    destruct (IH (x `div` 10)%N (N.div_lt x 10 Hpos eq_refl)
                (String (pretty_N_char (x `mod` 10)) s)) as (ds & Heq & Hds & _).
    exists (ds +:+ String (pretty_N_char (x `mod` 10)) "").
    rewrite Heq, app_assoc_string, app_cons, app_empty_l. repeat split.
    + rewrite all_chars_app, Hds. simpl.
      destruct (pretty_N_char_digit (x `mod` 10)%N) as (-> & _); [|reflexivity].
      apply N.mod_lt. lia.
    + intros _ Hnil. apply (f_equal String.length) in Hnil.
      rewrite app_length in Hnil. simpl in Hnil. lia.
Qed.

Lemma pretty_positive_digits (p : positive) :
  all_chars PyStr.isdigit (pretty p) = true /\ pretty p <> "".
Proof.
  unfold pretty, pretty_positive, pretty, pretty_N.
  destruct (decide (N.pos p = 0%N)) as [H|_]; [discriminate|].
  destruct (pretty_N_go_digits (N.pos p) "") as (ds & -> & Hds & Hne).
  rewrite app_empty_r. split; [exact Hds|apply Hne; lia].
Qed.

Lemma str_length (n : Z) : (1 <= String.length (PyStr.str n))%nat.
Proof.
  unfold PyStr.str, pretty, pretty_Z. destruct n as [|p|p].
  - simpl. lia.
  - destruct (pretty_positive_digits p) as (_ & Hne).
    destruct (pretty p); [contradiction|simpl; lia].
  - rewrite app_length. simpl. lia.
Qed.

(** [str] of a number that is not negative is made of digits. *)
Lemma str_digits (n : Z) : 0 <= n -> all_chars PyStr.isdigit (PyStr.str n) = true.
Proof.
  intros Hn. unfold PyStr.str, pretty, pretty_Z. destruct n as [|p|p].
  - reflexivity.
  - apply pretty_positive_digits.
  - lia.
Qed.

Lemma isdigit_allowed c :
  PyStr.isdigit c = true -> negb (in_class forbidden_chars c) = true.
Proof.
  intros H. destruct (in_class forbidden_chars c) eqn:Hc; [|reflexivity].
  apply in_class_forbidden in Hc. simpl in Hc.
  repeat (destruct Hc as [<-|Hc]; [discriminate H|]). contradiction.
Qed.

Lemma splitext_allowed p :
  allowed p = true ->
  allowed (fst (OsPath.splitext p)) = true /\ allowed (snd (OsPath.splitext p)) = true.
Proof.
  intros H. unfold OsPath.splitext, allowed in *.
  match goal with |- context [if ?b then _ else _] => destruct b end; simpl.
  - split; [apply all_chars_take|apply all_chars_drop]; exact H.
  - split; [exact H|reflexivity].
Qed.

(** What [get_filename_from_url] returns has been sanitized. *)
Lemma get_filename_from_url_sanitized `{E : Env} url filename :
  get_filename_from_url url = Ok filename ->
  exists raw, filename = sanitize_filename raw.
Proof.
  unfold get_filename_from_url.
  destruct (url_query_f url) as [f|]; simpl; [|discriminate].
  destruct f as [f|]; [destruct (String.eqb f "")|];
    try (destruct (url_path url) as [path|]; simpl; [|discriminate]);
    intros H; injection H as <-; eauto.
Qed.

(** X3. A name that [sanitize_filename] allows stays allowed through
    [ensure_unique_filename]: whenever [get_filename_from_url] returns
    a file name for a URL, and whatever the folder holds, the name
    under which the download is stored has none of the forbidden
    characters, so no path separator. *)
Theorem stored_name_is_allowed `{E : Env}
    (d : gmap string entry) (url filename : string) :
  get_filename_from_url url = Ok filename ->
  allowed (ensure_unique_filename d filename) = true.
Proof.
  intros Hname.
  assert (forall filename0, allowed filename0 = true ->
            allowed (ensure_unique_filename d filename0) = true) as Hkeep.
  { intros filename0 Hallowed.
    destruct (d !! filename0) as [x|] eqn:Hlook.
    - destruct (ensure_unique_filename_taken d filename0) as (k & Hk & -> & _).
      { rewrite Hlook. eauto. }
      destruct (splitext_allowed filename0 Hallowed) as (Hbase & Hext).
      unfold duplicate_name, allowed in *.
      rewrite !all_chars_app, Hbase, Hext.
      rewrite (all_chars_weaken PyStr.isdigit _ (PyStr.str k) isdigit_allowed).
      + reflexivity.
      + apply str_digits. lia.
    - rewrite (ensure_unique_filename_free d filename0 Hlook). exact Hallowed. }
  apply Hkeep.
  destruct (get_filename_from_url_sanitized url filename Hname) as (raw & ->).
  apply sanitize_filename_allowed.
Qed.

Lemma stored_name_is_allowed_witness :
  let d := <["a_b.zip" := File "x"]> new_folder in
  let url := "https://kemono.su/data/aa/one.zip?f=a:b.zip" in
  get_filename_from_url (E := Site.env) url = Ok "a_b.zip"
  /\ ensure_unique_filename d "a_b.zip" = "a_b_duplicate1.zip"
  /\ allowed (ensure_unique_filename d "a_b.zip") = true.
Proof.
  intros d url.
  assert (get_filename_from_url (E := Site.env) url = Ok "a_b.zip") as Hname
    by (vm_compute; reflexivity).
  split; [exact Hname|]. split; [vm_compute; reflexivity|].
  exact (stored_name_is_allowed (E := Site.env) d url "a_b.zip" Hname).
Defined.

(** X4. When the folder has the file name already, the name that
    [ensure_unique_filename] returns is at least eleven characters
    longer: the bound of 255 characters that [sanitize_filename] keeps
    does not hold for the name under which a colliding download is
    stored. *)
Theorem ensure_unique_filename_grows (d : gmap string entry) (filename : string) :
  is_Some (d !! filename) ->
  (String.length filename + 11
   <= String.length (ensure_unique_filename d filename))%nat.
Proof.
  intros Htaken.
  destruct (ensure_unique_filename_taken d filename Htaken) as (k & Hk & -> & _).
  unfold duplicate_name. rewrite !app_length.
  pose proof (str_length k) as Hstr.
  pose proof (f_equal String.length (splitext_app filename)) as Hsplit.
  rewrite app_length in Hsplit. simpl. lia.
Qed.

Lemma ensure_unique_filename_grows_witness :
  let d := <["a.png" := File "x"]> new_folder in
  is_Some (d !! "a.png")
  /\ ensure_unique_filename d "a.png" = "a_duplicate1.png"
  /\ (String.length "a.png" + 11
      <= String.length (ensure_unique_filename d "a.png"))%nat.
Proof.
  intros d.
  assert (is_Some (d !! "a.png")) as Htaken by (vm_compute; eauto).
  split; [exact Htaken|]. split; [vm_compute; reflexivity|].
  exact (ensure_unique_filename_grows d "a.png" Htaken).
Defined.

(** ** More on the filter *)

Lemma filter_none {A} (f : A -> bool) (l : list A) :
  (forall x, f x = false) -> List.filter f l = [].
Proof.
  intros H. induction l as [|x l IH]; simpl; [reflexivity|].
  rewrite H. exact IH.
Qed.

Lemma filter_sublist {A} (f : A -> bool) (l : list A) :
  List.filter f l `sublist_of` l.
Proof.
  induction l as [|x l IH]; simpl; [constructor|].
  destruct (f x); [apply sublist_skip|apply sublist_cons]; exact IH.
Qed.

(** X5. With none of the three modes set the filter keeps no post: the
    script then writes an empty index, requests no post page, makes no
    folder and reports nought posts, whatever the listing pages held. *)
Theorem no_mode_downloads_nothing `{E : Env}
    (config : config) (all_posts : list post_info) (w : world) :
  both config = false -> files_only config = false -> no_files config = false ->
  filter_posts config all_posts = []
  /\ filter_and_download config all_posts w
     = (Ok tt,
        {| folders := folders w; index_file := Some [];
           requests := requests w; printed := printed w ++ [MsgSummary 0] |}).
Proof.
  intros Hb Hf Hn.
  assert (filter_posts config all_posts = []) as Hnone.
  { rewrite filter_posts_selects. apply filter_none.
    intros post. unfold selects. rewrite Hb, Hf, Hn. reflexivity. }
  split; [exact Hnone|].
  unfold filter_and_download. rewrite Hnone. reflexivity.
Qed.

Lemma no_mode_downloads_nothing_witness :
  let config := {| both := false; files_only := false; no_files := false;
                   save_info_txt := true; download_attachments := true;
                   download_videos := true |} in
  filter_posts config [Site.with_media; Site.without_media] = []
  /\ requests (snd (filter_and_download (E := Site.env) config
                      [Site.with_media; Site.without_media] Site.nothing)) = [].
Proof.
  intros config.
  destruct (no_mode_downloads_nothing (E := Site.env) config
              [Site.with_media; Site.without_media] Site.nothing
              eq_refl eq_refl eq_refl) as (Hnone & Hrun).
  split; [exact Hnone|]. rewrite Hrun. reflexivity.
Defined.

(** X6. With [both] off and [files_only] and [no_files] set together,
    one of the two remaining branches of the chain takes every post:
    the filter returns its input, as it does under [both]. *)
Theorem files_only_with_no_files_keeps_input (config : config) (posts : list post_info) :
  both config = false -> files_only config = true -> no_files config = true ->
  filter_posts config posts = posts.
Proof.
  intros Hb Hf Hn. rewrite filter_posts_selects. apply filter_all.
  intros post. unfold selects. rewrite Hb, Hf, Hn.
  destruct (has_media post); reflexivity.
Qed.

Lemma files_only_with_no_files_keeps_input_witness :
  let config := {| both := false; files_only := true; no_files := true;
                   save_info_txt := false; download_attachments := false;
                   download_videos := false |} in
  filter_posts config [Site.with_media; Site.without_media]
  = [Site.with_media; Site.without_media].
Proof.
  intros config.
  exact (files_only_with_no_files_keeps_input config
           [Site.with_media; Site.without_media] eq_refl eq_refl eq_refl).
Defined.

(** X7. Under every configuration the filtered posts are a sublist of
    the posts: the filter drops posts, and never repeats, reorders or
    changes one. *)
Theorem filter_posts_sublist (config : config) (posts : list post_info) :
  filter_posts config posts `sublist_of` posts.
Proof. rewrite filter_posts_selects. apply filter_sublist. Qed.

(** X8. The filter works post by post: filtering the posts of several
    pages at once gives the filtered posts of each page, one after the
    other. *)
Theorem filter_posts_app (config : config) (posts1 posts2 : list post_info) :
  filter_posts config (posts1 ++ posts2)
  = filter_posts config posts1 ++ filter_posts config posts2.
Proof. rewrite !filter_posts_selects. apply List.filter_app. Qed.

(** ** More on the listing pages *)

Section Listing.

Context {E : Env}.

Lemma attr_raises t key e : attr t key = Raise e -> e = KeyError.
Proof.
  unfold attr. destruct (List.find _ _); intros H; [discriminate|].
  injection H as <-. reflexivity.
Qed.

Lemma parsed_raises {A} (o : option A) e : parsed o = Raise e -> e = ValueError.
Proof. destruct o; intros H; [discriminate|]. injection H as <-. reflexivity. Qed.

Lemma extract_post_info_raises card base_url e :
  extract_post_info card base_url = Raise e ->
  e = TypeError \/ e = KeyError \/ e = AttributeError \/ e = ValueError.
Proof.
  unfold extract_post_info.
  destruct (card_a card) as [a|]; simpl;
    [|intros H; injection H as <-; auto].
  destruct (attr a "href") eqn:Hhref; simpl;
    [|intros H; injection H as <-; apply attr_raises in Hhref; auto].
  destruct (parsed (urljoin base_url _)) eqn:Hlink; simpl;
    [|intros H; injection H as <-; apply parsed_raises in Hlink; auto 6].
  destruct (card_header card) as [h|]; simpl;
    [|intros H; injection H as <-; auto].
  assert (forall post : result post_info,
            match card_image card with
            | Some img => src <-? attr img "src"; parsed (urljoin base_url src)
            | None => Ok "No image available"
            end = Raise e -> e = KeyError \/ e = ValueError) as Himage.
  { intros _. destruct (card_image card) as [img|]; [|discriminate].
    destruct (attr img "src") eqn:Hsrc; simpl.
    - intros H. apply parsed_raises in H. auto.
    - intros H. injection H as <-. apply attr_raises in Hsrc. auto. }
  destruct (card_time card) as [t|]; simpl.
  - destruct (attr t "datetime") eqn:Hdate; simpl;
      [|intros H; injection H as <-; apply attr_raises in Hdate; auto].
    destruct (match card_image card with Some _ => _ | None => _ end) eqn:Himg;
      simpl; [discriminate|].
    intros H. injection H as <-.
    destruct (Himage (Raise e0) eq_refl) as [-> | ->]; auto 6.
  - destruct (match card_image card with Some _ => _ | None => _ end) eqn:Himg;
      simpl; [discriminate|].
    intros H. injection H as <-.
    destruct (Himage (Raise e0) eq_refl) as [-> | ->]; auto 6.
Qed.

Lemma append_cards_raises cards base_url : forall acc e,
  fst (append_cards cards base_url acc) = Raise e ->
  e = TypeError \/ e = KeyError \/ e = AttributeError \/ e = ValueError.
Proof.
  induction cards as [|card cards IH]; intros acc e; simpl; [discriminate|].
  destruct (extract_post_info card base_url) eqn:Hcard.
  - apply IH.
  - simpl. intros H. injection H as <-.
    exact (extract_post_info_raises _ _ _ Hcard).
Qed.

Lemma not_caught e :
  e = TypeError \/ e = KeyError \/ e = AttributeError \/ e = ValueError ->
  is_RequestException e = false.
Proof. intros [->|[->|[->| ->]]]; reflexivity. Qed.

End Listing.

Section ListingErrors.

Context {E : Env}.

(** A round in which a card is not extracted ends in the exception of
    the card. *)
Lemma walk_round_card_fails base_url v w html total e :
  remote (page_url base_url (page_number v)) = Body html ->
  (if page_number v =? 0 then first_page_total (listing_soup html)
   else Ok (total_pages v)) = Ok total ->
  fst (append_cards (post_cards (listing_soup html)) base_url []) = Raise e ->
  exists v',
    walk_round base_url v w
    = (Raise e, v', log_request (page_url base_url (page_number v)) w).
Proof.
  intros Hremote Htotal Hfail.
  pose proof (not_caught e (append_cards_raises _ _ _ _ Hfail)) as Hnot.
  unfold walk_round, walk_try, fetch. rewrite Hremote.
  unfold first_page_total in Htotal. rewrite Htotal.
  destruct (post_cards (listing_soup html)) as [|card cards] eqn:Hpc;
    [discriminate Hfail|].
  cbn [page_number total_pages all_posts].
  rewrite append_cards_acc, Hfail. cbn [fst snd].
  rewrite Hnot. eauto.
Qed.

(** X9. [extract_post_info] raises for a card without link, without
    [href] or without header, or with a URL that is not joined, and
    none of these exceptions is a request exception.  So when the loop has gone round [n] times and a card of
    the next listing page is not extracted, the script ends in the
    exception of the card after the request for that page: the posts of
    the pages before are lost, no index is written and no folder is
    made. *)
Theorem malformed_card_stops_the_run
    (config : config) (base_url : string) (w0 : world)
    (n : nat) (v : walker) (w : world) (html : string) (e : exn) (fuel : nat) :
  reaches base_url w0 n v w ->
  remote (page_url base_url (Z.of_nat n)) = Body html ->
  (n = 0%nat -> exists total, get_total_posts (listing_soup html) = Ok total) ->
  fst (append_cards (post_cards (listing_soup html)) base_url []) = Raise e ->
  (n < fuel)%nat ->
  let w' := log_request (page_url base_url (Z.of_nat n)) w in
  is_RequestException e = false
  /\ main fuel config base_url w0 = Some (Raise e, w')
  /\ index_file w' = index_file w0
  /\ folders w' = folders w0.
Proof.
  intros Hreach Hbody Htotal Hfail Hfuel w'.
  destruct (reaches_inv _ _ _ _ _ Hreach) as (Hpn & Hposts & Hserved & Hw).
  assert (exists total,
             (if page_number v =? 0 then first_page_total (listing_soup html)
              else Ok (total_pages v)) = Ok total) as (total & Htot).
  { rewrite Hpn. destruct n as [|n].
    - destruct (Htotal eq_refl) as (tot & Ht). simpl.
      unfold first_page_total. rewrite Ht. eauto.
    - replace (Z.of_nat (S n) =? 0) with false by (symmetry; apply Z.eqb_neq; lia).
      eauto. }
  rewrite <- Hpn in Hbody.
  destruct (walk_round_card_fails base_url v w html total e Hbody Htot Hfail)
    as (v' & Hround).
  split; [exact (not_caught e (append_cards_raises _ _ _ _ Hfail))|].
  split; [|split].
  - unfold main. replace fuel with (n + S (fuel - S n))%nat by lia.
    rewrite (walk_loop_reaches _ _ _ _ _ Hreach). simpl.
    rewrite Hround, Hpn. reflexivity.
  - unfold w'. rewrite Hw. reflexivity.
  - unfold w'. rewrite Hw. reflexivity.
Qed.

End ListingErrors.

Lemma malformed_card_stops_the_run_witness :
  let env := Tables.env [("https://kemono.su/patreon/user/7?o=0", "page")]
               [("page", Site.listing (Some "Showing 1-2 of 2")
                           [Site.card (Site.post_url "10") "Ten";
                            Tables.card_without_link "Eleven"])] [] in
  main (E := env) 1 Site.all_on (Site.profile "7") Site.nothing
  = Some (Raise TypeError,
          log_request "https://kemono.su/patreon/user/7?o=0" Site.nothing).
Proof.
  intros env.
  assert (@remote env (page_url (Site.profile "7") (Z.of_nat 0)) = Body "page")
    as Hbody by (vm_compute; reflexivity).
  assert (0%nat = 0%nat ->
          exists total, get_total_posts (@listing_soup env "page") = Ok total)
    as Htotal by (intros _; eexists; vm_compute; reflexivity).
  assert (fst (append_cards (E := env) (post_cards (@listing_soup env "page"))
                 (Site.profile "7") []) = Raise TypeError)
    as Hfail by (vm_compute; reflexivity).
  exact (proj1 (proj2 (malformed_card_stops_the_run (E := env) Site.all_on
                         (Site.profile "7") Site.nothing 0 walker_start
                         Site.nothing "page" TypeError 1
                         (reaches_start _ _) Hbody Htotal Hfail (le_n 1)))).
Defined.

(** X10. A card without image element and without attachments element
    gives a post without media, whatever the rest of the card: the
    [files_only] mode drops it and the [no_files] mode keeps it. *)
Theorem bare_card_has_no_media `{E : Env}
    (card : post_card) (base_url : string) (post : post_info) (config : config) :
  extract_post_info card base_url = Ok post ->
  card_image card = None -> card_attachments card = None ->
  has_media post = false
  /\ (both config = false -> files_only config = true -> no_files config = false ->
      filter_posts config [post] = [])
  /\ (no_files config = true -> filter_posts config [post] = [post]).
Proof.
  intros Hcard Himage Hatt.
  assert (has_media post = false) as Hmedia.
  { unfold extract_post_info in Hcard. rewrite Himage, Hatt in Hcard.
    destruct (card_a card) as [a|]; simpl in Hcard; [|discriminate].
    destruct (attr a "href"); simpl in Hcard; [|discriminate].
    destruct (parsed (urljoin base_url _)); simpl in Hcard; [|discriminate].
    destruct (card_header card); simpl in Hcard; [|discriminate].
    destruct (card_time card) as [time_tag|]; simpl in Hcard.
    - destruct (attr time_tag "datetime"); simpl in Hcard; [|discriminate].
      injection Hcard as <-. reflexivity.
    - injection Hcard as <-. reflexivity. }
  split; [exact Hmedia|].
  rewrite filter_posts_selects. unfold selects. simpl. rewrite Hmedia.
  split.
  - intros -> -> ->. reflexivity.
  - intros ->. simpl. rewrite orb_true_r. reflexivity.
Qed.

Lemma bare_card_has_no_media_witness :
  extract_post_info (E := Site.env) (Site.card (Site.post_url "10") "Ten")
    (Site.profile "1")
  = Ok {| link := Site.post_url "10"; title := "Ten"; attachments := "No attachments";
          date := "No date available"; image := "No image available" |}
  /\ has_media {| link := Site.post_url "10"; title := "Ten";
                  attachments := "No attachments"; date := "No date available";
                  image := "No image available" |} = false.
Proof.
  assert (extract_post_info (E := Site.env) (Site.card (Site.post_url "10") "Ten")
            (Site.profile "1")
          = Ok {| link := Site.post_url "10"; title := "Ten";
                  attachments := "No attachments"; date := "No date available";
                  image := "No image available" |}) as Hcard
    by (vm_compute; reflexivity).
  split; [exact Hcard|].
  exact (proj1 (bare_card_has_no_media (E := Site.env) _ _ _ Site.only_files
                  Hcard eq_refl eq_refl)).
Defined.

(** ** Reading the total count *)

Lemma drop_app (s1 s2 : string) (k : nat) :
  PyStr.drop (String.length s1 + k) (s1 +:+ s2) = PyStr.drop k s2.
Proof.
  induction s1 as [|c s1 IH]; [rewrite app_empty_l; reflexivity|].
  rewrite app_cons. simpl. exact IH.
Qed.

Lemma take_app (s1 s2 : string) :
  PyStr.take (String.length s1) (s1 +:+ s2) = s1.
Proof.
  induction s1 as [|c s1 IH]; [rewrite app_empty_l; destruct s2; reflexivity|].
  rewrite app_cons. simpl. rewrite IH. reflexivity.
Qed.

Lemma split_go_none fuel sep s :
  PyStr.find sep s = None -> PyStr.split_go fuel sep s = [s].
Proof. intros H. destruct fuel; simpl; [reflexivity|]. rewrite H. reflexivity. Qed.

Lemma isdigit_not_space c : PyStr.isdigit c = true -> PyStr.isspace c = false.
Proof.
  unfold PyStr.isdigit, PyStr.isspace. intros H.
  apply andb_true_iff in H as [H1 H2].
  apply Nat.leb_le in H1. apply Nat.leb_le in H2.
  repeat rewrite orb_false_iff. repeat split.
  - apply andb_false_iff. right. apply Nat.leb_gt. lia.
  - apply andb_false_iff. right. apply Nat.leb_gt. lia.
  - apply Nat.eqb_neq. lia.
  - apply Nat.eqb_neq. lia.
Qed.

Lemma find_of_digits s :
  all_chars PyStr.isdigit s = true -> PyStr.find " of " s = None.
Proof.
  induction s as [|c s IH]; intros H; [reflexivity|].
  simpl in H. apply andb_true_iff in H as [Hc Hs].
  cbn [PyStr.find PyStr.startswith].
  assert (Ascii.eqb " " c = false) as ->.
  { apply Ascii.eqb_neq. intros <-. discriminate Hc. }
  cbn [andb]. rewrite (IH Hs). reflexivity.
Qed.

Lemma isdigit_not_int_space c :
  PyStr.isdigit c = true -> PyStr.int_isspace c = false.
Proof.
  unfold PyStr.isdigit, PyStr.int_isspace. intros H.
  apply andb_true_iff in H as [H1 H2].
  apply Nat.leb_le in H1. apply Nat.leb_le in H2.
  repeat rewrite orb_false_iff. repeat split.
  - apply andb_false_iff. right. apply Nat.leb_gt. lia.
  - apply Nat.eqb_neq. lia.
  - apply Nat.eqb_neq. lia.
  - apply Nat.eqb_neq. lia.
Qed.

Lemma int_rstrip_no_space s :
  all_chars (fun c => negb (PyStr.int_isspace c)) s = true -> PyStr.int_rstrip s = s.
Proof.
  induction s as [|c s IH]; intros H; [reflexivity|].
  simpl in H. apply andb_true_iff in H as [Hc Hs].
  cbn [PyStr.int_rstrip]. rewrite (IH Hs).
  apply negb_true_iff in Hc. destruct s; [rewrite Hc|]; reflexivity.
Qed.

Lemma int_rstrip_digits s :
  all_chars PyStr.isdigit s = true -> PyStr.int_rstrip s = s.
Proof.
  intros H. apply int_rstrip_no_space.
  apply (all_chars_weaken PyStr.isdigit); [|exact H].
  intros c Hc. rewrite (isdigit_not_int_space c Hc). reflexivity.
Qed.

Lemma int_strip_digits s :
  all_chars PyStr.isdigit s = true -> PyStr.int_rstrip (PyStr.int_lstrip s) = s.
Proof.
  intros H.
  assert (PyStr.int_lstrip s = s) as ->.
  { destruct s as [|c s]; [reflexivity|]. simpl in H.
    apply andb_true_iff in H as [Hc _]. cbn [PyStr.int_lstrip].
    rewrite (isdigit_not_int_space c Hc). reflexivity. }
  apply int_rstrip_digits, H.
Qed.

Lemma count_digits_all s :
  all_chars PyStr.isdigit s = true -> PyStr.count_digits s = String.length s.
Proof.
  induction s as [|c s IH]; intros H; [reflexivity|].
  simpl in H. apply andb_true_iff in H as [Hc Hs].
  cbn [PyStr.count_digits String.length]. rewrite Hc, (IH Hs). reflexivity.
Qed.

(** Reading back the digits that [str] writes. *)
Lemma int_digits_pretty_N_go x : forall s acc b,
  (0 < x)%N ->
  exists k : Z,
    PyStr.int_digits (pretty_N_go x s) acc b
    = PyStr.int_digits s (acc * k + Z.of_N x) true.
Proof.
  induction (N.lt_wf_0 x) as [x _ IH]; intros s acc b Hpos.
  rewrite pretty_N_go_step by exact Hpos.
  destruct (pretty_N_char_digit (x `mod` 10)%N) as (Hd & Hv);
    [apply N.mod_lt; discriminate|].
  assert (Z.of_N x = 10 * Z.of_N (x `div` 10) + Z.of_N (x `mod` 10)) as Hx.
  { rewrite <- (N2Z.inj_mul 10), <- N2Z.inj_add. f_equal.
    apply N.div_mod. discriminate. }
  destruct (N.eq_dec (x `div` 10)%N 0%N) as [H0|Hq].
  - rewrite H0 in *. rewrite pretty_N_go_0. cbn [PyStr.int_digits].
    rewrite Hd, Hv. exists 10. f_equal. lia.
  - apply N.neq_0_lt_0 in Hq.
    destruct (IH (x `div` 10)%N (N.div_lt x 10 Hpos eq_refl)
                (String (pretty_N_char (x `mod` 10)) s) acc b Hq) as (k & ->).
    cbn [PyStr.int_digits]. rewrite Hd, Hv.
    exists (10 * k). f_equal. lia.
Qed.

Lemma int_digits_pretty (p : positive) :
  PyStr.int_digits (pretty p) 0 false = Some (Z.pos p).
Proof.
  unfold pretty, pretty_positive, pretty, pretty_N.
  destruct (decide (N.pos p = 0%N)) as [H|_]; [discriminate|].
  destruct (int_digits_pretty_N_go (N.pos p) "" 0 false) as (k & ->); [lia|].
  reflexivity.
Qed.

(** A literal of at most [max_str_digits] digits is read. *)
Lemma int_unsigned_digits s n :
  all_chars PyStr.isdigit s = true ->
  (String.length s <= PyStr.max_str_digits)%nat ->
  PyStr.int_digits s 0 false = Some n ->
  PyStr.int_unsigned s = Ok n.
Proof.
  intros Hs Hlen Hdigits. unfold PyStr.int_unsigned.
  rewrite Hdigits, (count_digits_all s Hs).
  rewrite (proj2 (Nat.ltb_ge _ _) Hlen). reflexivity.
Qed.

Lemma int_of_digits c s :
  PyStr.isdigit c = true ->
  all_chars PyStr.isdigit s = true ->
  PyStr.int (String c s) = PyStr.int_unsigned (String c s).
Proof.
  intros Hc Hs. unfold PyStr.int.
  rewrite int_strip_digits by (simpl; rewrite Hc, Hs; reflexivity).
  destruct c as [[] [] [] [] [] [] [] []]; try discriminate Hc; reflexivity.
Qed.

(** [int(str(n))] is [n], for the numbers that are written with at
    most [max_str_digits] digits. *)
Lemma int_str (n : Z) :
  (String.length (PyStr.str (Z.abs n)) <= PyStr.max_str_digits)%nat ->
  PyStr.int (PyStr.str n) = Ok n.
Proof.
  intros Hlen. destruct n as [|p|p].
  - reflexivity.
  - change (String.length (pretty p) <= PyStr.max_str_digits)%nat in Hlen.
    change (PyStr.int (pretty p) = Ok (Z.pos p)).
    destruct (pretty_positive_digits p) as (Hds & Hne).
    pose proof (int_digits_pretty p) as Hint.
    revert Hlen Hds Hne Hint. generalize (pretty p). intros [|c s] Hlen Hds Hne Hint;
      [contradiction|].
    pose proof Hds as Hall.
    simpl in Hds. apply andb_true_iff in Hds as [Hc Hs].
    rewrite (int_of_digits c s Hc Hs).
    exact (int_unsigned_digits _ _ Hall Hlen Hint).
  - change (String.length (pretty p) <= PyStr.max_str_digits)%nat in Hlen.
    change (PyStr.int ("-" +:+ pretty p) = Ok (Z.neg p)).
    destruct (pretty_positive_digits p) as (Hds & Hne).
    rewrite app_cons, app_empty_l. unfold PyStr.int.
    assert (PyStr.int_rstrip (PyStr.int_lstrip (String "-" (pretty p)))
            = String "-" (pretty p)) as ->.
    { cbn [PyStr.int_lstrip].
      change (PyStr.int_isspace "-") with false. cbn iota.
      apply int_rstrip_no_space. simpl.
      apply (all_chars_weaken PyStr.isdigit); [|exact Hds].
      intros c Hc. rewrite (isdigit_not_int_space c Hc). reflexivity. }
    rewrite (int_unsigned_digits _ _ Hds Hlen (int_digits_pretty p)). reflexivity.
Qed.

Lemma find_of_str (n : Z) : PyStr.find " of " (PyStr.str n) = None.
Proof.
  unfold PyStr.str, pretty, pretty_Z. destruct n as [|p|p].
  - reflexivity.
  - apply find_of_digits, pretty_positive_digits.
  - rewrite app_cons, app_empty_l. cbn [PyStr.find PyStr.startswith].
    change (Ascii.eqb " " "-") with false. cbn [andb].
    rewrite (find_of_digits _ (proj1 (pretty_positive_digits p))). reflexivity.
Qed.

(** X11. The total count is read back: when the text of the
    total-count element, stripped, is a prefix, the word [of] between
    two spaces and the decimal writing of [n], this is the first place
    of the text at which that word stands, and [n] is written with at
    most 4300 digits (more are refused by [int]), [get_total_posts]
    answers [n]. *)
Theorem get_total_posts_reads_count
    (soup : listing_doc) (t : tag) (prefix : string) (n : Z) :
  small soup = Some t ->
  PyStr.strip (text t) = prefix +:+ " of " +:+ PyStr.str n ->
  PyStr.find " of " (prefix +:+ " of " +:+ PyStr.str n)
  = Some (String.length prefix) ->
  (String.length (PyStr.str (Z.abs n)) <= 4300)%nat ->
  get_total_posts soup = Ok (Some n).
Proof.
  intros Hsmall Htext Hfind Hdigits. unfold get_total_posts. rewrite Hsmall, Htext.
  assert (PyStr.split " of " (prefix +:+ " of " +:+ PyStr.str n)
          = prefix :: [PyStr.str n]) as ->.
  { unfold PyStr.split.
    destruct (String.length (prefix +:+ " of " +:+ PyStr.str n)) as [|fuel] eqn:Hlen.
    { rewrite app_length in Hlen. simpl in Hlen. lia. }
    cbn [PyStr.split_go]. rewrite Hfind, take_app.
    change (String.length " of ") with 4%nat.
    rewrite drop_app.
    change (PyStr.drop 4 (" of " +:+ PyStr.str n)) with (PyStr.str n).
    rewrite (split_go_none fuel " of " _ (find_of_str n)). reflexivity. }
  simpl. rewrite (int_str n Hdigits). reflexivity.
Qed.

Lemma get_total_posts_reads_count_witness :
  get_total_posts
    (Site.listing (Some "Showing 1-50 of 73") [Site.card (Site.post_url "10") "Ten"])
  = Ok (Some 73).
Proof.
  apply (get_total_posts_reads_count _ (Tag [] "Showing 1-50 of 73") "Showing 1-50" 73);
    [reflexivity|vm_compute; reflexivity|vm_compute; reflexivity|].
  apply Nat.leb_le. vm_compute. reflexivity.
Defined.

(** A literal of more digits than [max_str_digits] is refused. *)
Example int_refuses_long_literals :
  PyStr.int (String.concat "" (repeat "1" 4300))
  = PyStr.int_unsigned (String.concat "" (repeat "1" 4300))
  /\ (exists n, PyStr.int (String.concat "" (repeat "1" 4300)) = Ok n)
  /\ PyStr.int (String.concat "" (repeat "1" 4301)) = Raise ValueError
  /\ PyStr.int (String "028" "5") = Raise ValueError
  /\ PyStr.int (String "160" " 5 ") = Ok 5.
Proof.
  split; [vm_compute; reflexivity|]. split; [eexists; vm_compute; reflexivity|].
  repeat split; vm_compute; reflexivity.
Qed.

(** X12. A total-count element whose text does not have the word [of]
    between two spaces makes [get_total_posts] raise an [IndexError]:
    the split gives one piece and the second piece is asked for. *)
Theorem total_without_of_raises_IndexError (soup : listing_doc) (t : tag) :
  small soup = Some t ->
  PyStr.find " of " (PyStr.strip (text t)) = None ->
  get_total_posts soup = Raise IndexError.
Proof.
  intros Hsmall Hfind. unfold get_total_posts, PyStr.split.
  rewrite Hsmall, (split_go_none _ _ _ Hfind). reflexivity.
Qed.

Lemma total_without_of_raises_IndexError_witness :
  get_total_posts (Site.listing (Some "Newest first") []) = Raise IndexError.
Proof.
  apply (total_without_of_raises_IndexError _ (Tag [] "Newest first"));
    vm_compute; reflexivity.
Defined.

Lemma int_unsigned_raises d e : PyStr.int_unsigned d = Raise e -> e = ValueError.
Proof.
  unfold PyStr.int_unsigned.
  destruct (PyStr.int_digits d 0 false); [destruct (_ <? _)%nat|];
    intros H; try discriminate H; injection H as <-; reflexivity.
Qed.

Lemma int_raises s e : PyStr.int s = Raise e -> e = ValueError.
Proof.
  unfold PyStr.int.
  destruct (PyStr.int_rstrip (PyStr.int_lstrip s)) as [|c d];
    [apply int_unsigned_raises|].
  destruct c as [[] [] [] [] [] [] [] []]; try apply int_unsigned_raises.
  destruct (PyStr.int_unsigned d) eqn:Hd; simpl; [discriminate|].
  intros H. injection H as <-. exact (int_unsigned_raises d e0 Hd).
Qed.

Lemma get_total_posts_raises soup e :
  get_total_posts soup = Raise e -> e = IndexError \/ e = ValueError.
Proof.
  unfold get_total_posts. destruct (small soup) as [t|]; [|discriminate].
  destruct (PyStr.index _ 1) as [piece|e1] eqn:Hindex; simpl.
  - destruct (PyStr.int piece) eqn:Hint; simpl; [discriminate|].
    intros H. injection H as <-. right. exact (int_raises piece e0 Hint).
  - unfold PyStr.index in Hindex. destruct (_ !! _); [discriminate|].
    injection Hindex as <-. intros H. injection H as <-. auto.
Qed.

(** X13. When the first listing page is served and its total count
    cannot be read, the exception is an [IndexError] or a [ValueError],
    which the handler of the loop does not catch: the script ends in it
    after the one request, before any post is extracted. *)
Theorem unreadable_total_stops_the_run `{E : Env}
    (config : config) (base_url : string) (w0 : world) (html : string)
    (e : exn) (fuel : nat) :
  remote (page_url base_url 0) = Body html ->
  get_total_posts (listing_soup html) = Raise e ->
  (e = IndexError \/ e = ValueError)
  /\ main (S fuel) config base_url w0
     = Some (Raise e, log_request (page_url base_url 0) w0).
Proof.
  intros Hbody Hraise.
  pose proof (get_total_posts_raises _ _ Hraise) as He.
  split; [exact He|].
  unfold main. cbn [walk_loop]. unfold walk_round, walk_try, fetch.
  cbn [page_number walker_start]. rewrite Hbody.
  change (0 =? 0) with true. cbn iota. rewrite Hraise. simpl.
  destruct He as [-> | ->]; reflexivity.
Qed.

Lemma unreadable_total_stops_the_run_witness :
  main (E := Site.env) 1 Site.all_on (Site.profile "5") Site.nothing
  = Some (Raise IndexError,
          log_request (page_url (Site.profile "5") 0) Site.nothing).
Proof.
  assert (@remote Site.env (page_url (Site.profile "5") 0) = Body "user 5, page 1")
    as Hbody by (vm_compute; reflexivity).
  assert (get_total_posts (@listing_soup Site.env "user 5, page 1") = Raise IndexError)
    as Hraise by (vm_compute; reflexivity).
  exact (proj2 (unreadable_total_stops_the_run (E := Site.env) Site.all_on
                  (Site.profile "5") Site.nothing "user 5, page 1" IndexError 0
                  Hbody Hraise)).
Defined.

(** C5. On a first listing page that is served without post cards and
    whose total-count element cannot be read, the loop does not end
    without error, as it does on every other page without post cards:
    [get_total_posts] runs before the test for an empty page and
    raises an [IndexError] or a [ValueError], which the handler of the
    loop does not catch, so the loop and the script end in that
    exception.  On the sibling path, a first page without post cards
    and without total-count element, the loop ends without error. *)
Theorem unreadable_total_breaks_empty_first_page `{E : Env}
    (config : config) (base_url : string) (w0 : world) (html : string)
    (fuel : nat) :
  remote (page_url base_url 0) = Body html ->
  post_cards (listing_soup html) = [] ->
  (forall e,
      get_total_posts (listing_soup html) = Raise e ->
      is_RequestException e = false
      /\ walk_loop (S fuel) base_url walker_start w0
         = Some (Raise e, walker_start, log_request (page_url base_url 0) w0)
      /\ main (S fuel) config base_url w0
         = Some (Raise e, log_request (page_url base_url 0) w0))
  /\ (small (listing_soup html) = None ->
      walk_loop (S fuel) base_url walker_start w0
      = Some (Ok tt,
              {| page_number := 0; total_pages := Some 1; all_posts := [] |},
              log_request (page_url base_url 0) w0)).
Proof.
  intros Hbody Hcards. split.
  - intros e Hraise.
    assert (is_RequestException e = false) as Huncaught
      by (destruct (get_total_posts_raises _ _ Hraise) as [-> | ->]; reflexivity).
    assert (walk_loop (S fuel) base_url walker_start w0
            = Some (Raise e, walker_start, log_request (page_url base_url 0) w0))
      as Hwalk.
    { cbn [walk_loop]. unfold walk_round, walk_try, fetch.
      cbn [page_number walker_start]. rewrite Hbody.
      change (0 =? 0) with true. cbn iota. rewrite Hraise. simpl.
      rewrite Huncaught. reflexivity. }
    split; [exact Huncaught|]. split; [exact Hwalk|].
    unfold main. rewrite Hwalk. reflexivity.
  - intros Hsmall.
    cbn [walk_loop]. unfold walk_round, walk_try, fetch.
    cbn [page_number walker_start]. rewrite Hbody.
    change (0 =? 0) with true. cbn iota.
    unfold get_total_posts. rewrite Hsmall, Hcards. reflexivity.
Qed.

Lemma unreadable_total_breaks_empty_first_page_witness :
  @remote Site.env (page_url (Site.profile "5") 0) = Body "user 5, page 1"
  /\ post_cards (@listing_soup Site.env "user 5, page 1") = []
  /\ text <$> small (@listing_soup Site.env "user 5, page 1") = Some "Newest first"
  /\ main (E := Site.env) 1 Site.all_on (Site.profile "5") Site.nothing
     = Some (Raise IndexError,
             log_request (page_url (Site.profile "5") 0) Site.nothing).
Proof.
  assert (@remote Site.env (page_url (Site.profile "5") 0) = Body "user 5, page 1")
    as Hbody by (vm_compute; reflexivity).
  assert (post_cards (@listing_soup Site.env "user 5, page 1") = []) as Hcards
    by (vm_compute; reflexivity).
  split; [exact Hbody|]. split; [exact Hcards|]. split; [vm_compute; reflexivity|].
  destruct (unreadable_total_breaks_empty_first_page (E := Site.env) Site.all_on
              (Site.profile "5") Site.nothing "user 5, page 1" 0 Hbody Hcards)
    as (Hraises & _).
  refine (proj2 (proj2 (Hraises IndexError _))). vm_compute. reflexivity.
Defined.

(** ** What the pagination loop requests *)

Lemma app_inj_l (s t1 t2 : string) : s +:+ t1 = s +:+ t2 -> t1 = t2.
Proof.
  induction s as [|c s IH]; [rewrite !app_empty_l; auto|].
  rewrite !app_cons. intros H. injection H as H. exact (IH H).
Qed.

Lemma page_url_inj base_url (i j : Z) :
  page_url base_url i = page_url base_url j -> i = j.
Proof.
  unfold page_url. intros H.
  apply app_inj_l, app_inj_l in H. unfold PyStr.str in H.
  apply (inj pretty) in H. lia.
Qed.

Lemma page_urls_NoDup base_url n : NoDup (page_urls base_url n).
Proof.
  unfold page_urls.
  change (NoDup ((fun i : nat => page_url base_url (Z.of_nat i)) <$> seq 0 n)).
  apply NoDup_fmap_2; [|apply NoDup_seq].
  intros i j H. apply page_url_inj in H. lia.
Qed.

Section WalkerRequests.

Context {E : Env}.

(** A round makes one request, for the page at [page_number], and
    leaves the folders and the index file alone. *)
Lemma walk_round_world base_url v w r v' w' :
  walk_round base_url v w = (r, v', w') ->
  requests w' = requests w ++ [page_url base_url (page_number v)]
  /\ folders w' = folders w
  /\ index_file w' = index_file w.
Proof.
  unfold walk_round, walk_try, fetch.
  destruct (remote (page_url base_url (page_number v))) as [html|chunked].
  2:{ destruct chunked; simpl; intros H; injection H as _ _ <-; auto. }
  destruct (if page_number v =? 0
            then total_posts <-? get_total_posts (listing_soup html);
                 Ok (Some (pages_of_total total_posts))
            else Ok (total_pages v)) as [total|e].
  2:{ destruct (is_RequestException e); intros H; injection H as _ _ <-; auto. }
  destruct (post_cards (listing_soup html)) as [|card cards].
  { intros H; injection H as _ _ <-; auto. }
  cbn [page_number total_pages all_posts].
  destruct (append_cards (card :: cards) base_url (all_posts v)) as [[[]|e] posts].
  2:{ destruct (is_RequestException e); intros H; injection H as _ _ <-; auto. }
  destruct total as [tp|].
  2:{ simpl. intros H; injection H as _ _ <-; auto. }
  destruct (page_number v >=? tp - 1); intros H; injection H as _ _ <-; auto.
Qed.

Lemma walk_loop_world base_url w0 fuel : forall n v w r v' w',
  reaches base_url w0 n v w ->
  walk_loop fuel base_url v w = Some (r, v', w') ->
  exists m,
    requests w' = requests w0 ++ page_urls base_url (S m)
    /\ folders w' = folders w0
    /\ index_file w' = index_file w0.
Proof.
  induction fuel as [|fuel IH]; intros n v w r v' w' Hreach; simpl; [discriminate|].
  destruct (walk_round base_url v w) as [[[[]|e] v1] w1] eqn:Hround.
  3:{ intros H. injection H as <- <- <-.
      destruct (walk_round_world _ _ _ _ _ _ Hround) as (Hreq & Hf & Hi).
      destruct (reaches_inv _ _ _ _ _ Hreach) as (Hpn & _ & _ & Hw).
      exists n. rewrite Hreq, Hf, Hi, Hpn, Hw, page_urls_S. simpl.
      rewrite app_assoc. auto. }
  - intros H. injection H as <- <- <-.
    destruct (walk_round_world _ _ _ _ _ _ Hround) as (Hreq & Hf & Hi).
    destruct (reaches_inv _ _ _ _ _ Hreach) as (Hpn & _ & _ & Hw).
    exists n. rewrite Hreq, Hf, Hi, Hpn, Hw, page_urls_S. simpl.
    rewrite app_assoc. auto.
  - apply (IH (S n)). exact (reaches_next _ _ _ _ _ _ _ Hreach Hround).
Qed.

(** X14. The pagination loop always ends, and when it ends it has
    requested the listing pages at the offsets 0, 50, 100, ... up to
    some page, in this order and each once, and nothing else; it has
    made no folder and written no index. *)
Theorem walk_requests_consecutive_pages (base_url : string) (w0 : world) :
  exists bound r v w m,
    (forall fuel, (bound < fuel)%nat ->
       walk_loop fuel base_url walker_start w0 = Some (r, v, w))
    /\ requests w = requests w0 ++ page_urls base_url (S m)
    /\ NoDup (page_urls base_url (S m))
    /\ folders w = folders w0
    /\ index_file w = index_file w0.
Proof.
  destruct (walk_loop_ends base_url w0) as (bound & [[r v] w] & Hends).
  destruct (walk_loop_world base_url w0 (S bound) 0 walker_start w0 r v w
              (reaches_start _ _) (Hends (S bound) (Nat.lt_succ_diag_r _)))
    as (m & Hreq & Hf & Hi).
  exists bound, r, v, w, m. split; [exact Hends|].
  split; [exact Hreq|]. split; [apply page_urls_NoDup|]. auto.
Qed.

End WalkerRequests.

(** ** What a run leaves in place *)

Section Preserves.

Context {E : Env}.

Variable R : world -> world -> Prop.
Hypothesis R_refl : forall w, R w w.
Hypothesis R_trans : forall w1 w2 w3, R w1 w2 -> R w2 w3 -> R w1 w3.
Hypothesis R_print : forall msg w, R w (print msg w).
Hypothesis R_log : forall url w, R w (log_request url w).

Lemma preserves_ret {A} (a : A) : preserves R (ret a).
Proof. intros w. apply R_refl. Qed.

Lemma preserves_raise {A} (e : exn) : preserves R (raise (A := A) e).
Proof. intros w. apply R_refl. Qed.

Lemma preserves_lift {A} (r : result A) : preserves R (lift r).
Proof. intros w. apply R_refl. Qed.

Lemma preserves_bind {A B} (m : M A) (k : A -> M B) :
  preserves R m -> (forall a, preserves R (k a)) -> preserves R (bind m k).
Proof.
  intros Hm Hk w. unfold bind. specialize (Hm w).
  destruct (m w) as [[a|e] w1]; simpl in *; [|exact Hm].
  exact (R_trans _ _ _ Hm (Hk a w1)).
Qed.

Lemma preserves_try_except {A} (m : M A) catches handler :
  preserves R m -> (forall e, preserves R (handler e)) ->
  preserves R (try_except m catches handler).
Proof.
  intros Hm Hh w. unfold try_except. specialize (Hm w).
  destruct (m w) as [[a|e] w1]; simpl in *; [exact Hm|].
  destruct (catches e); [|exact Hm].
  exact (R_trans _ _ _ Hm (Hh e w1)).
Qed.

Lemma preserves_print msg : preserves R (act (print msg)).
Proof. intros w. apply R_print. Qed.

Lemma preserves_fetch url : preserves R (fetch url).
Proof. intros w. unfold fetch. destruct (remote url); apply R_log. Qed.

Lemma preserves_download_files failed post_path tags :
  (forall t, preserves R (download_file failed post_path t)) ->
  preserves R (download_files failed post_path tags).
Proof.
  intros Hfile. induction tags as [|t tags IH]; simpl.
  - apply preserves_ret.
  - apply preserves_bind; [apply Hfile|]. intros _. exact IH.
Qed.

Lemma preserves_download_attachments_and_videos config soup post_path :
  (forall failed t, preserves R (download_file failed post_path t)) ->
  preserves R (download_attachments_and_videos config soup post_path).
Proof.
  intros Hfile. unfold download_attachments_and_videos.
  apply preserves_bind.
  - destruct (download_attachments config);
      [apply preserves_download_files, Hfile|apply preserves_ret].
  - intros _. destruct (download_videos config);
      [apply preserves_download_files, Hfile|apply preserves_ret].
Qed.

End Preserves.

Section Frames.

Context {E : Env}.

Lemma outside_refl p w : outside p w w.
Proof. split; auto. Qed.

Lemma outside_trans p w1 w2 w3 : outside p w1 w2 -> outside p w2 w3 -> outside p w1 w3.
Proof.
  intros (H1 & I1) (H2 & I2). split.
  - intros q Hq. rewrite (H2 q Hq). apply H1, Hq.
  - rewrite I2. exact I1.
Qed.

Lemma outside_set_folder p d w : outside p w (set_folder p d w).
Proof.
  split; [|reflexivity]. intros q Hq. simpl.
  apply lookup_insert_ne. congruence.
Qed.

Lemma adds_to_refl p w : adds_to p w w.
Proof. split; [reflexivity|apply outside_refl]. Qed.

Lemma adds_to_trans p w1 w2 w3 : adds_to p w1 w2 -> adds_to p w2 w3 -> adds_to p w1 w3.
Proof.
  intros (H1 & O1) (H2 & O2). split.
  - etransitivity; eassumption.
  - exact (outside_trans _ _ _ _ O1 O2).
Qed.

Lemma grows_refl w : grows w w.
Proof. split; reflexivity. Qed.

Lemma grows_trans w1 w2 w3 : grows w1 w2 -> grows w2 w3 -> grows w1 w3.
Proof.
  intros (H1 & I1) (H2 & I2). split.
  - etransitivity; eassumption.
  - rewrite I2. exact I1.
Qed.

Lemma outside_same p w w' :
  folders w' = folders w -> index_file w' = index_file w -> outside p w w'.
Proof. intros Hf Hi. unfold outside. rewrite Hf. auto. Qed.

Lemma adds_to_same p w w' :
  folders w' = folders w -> index_file w' = index_file w -> adds_to p w w'.
Proof.
  intros Hf Hi. split; [|apply outside_same; assumption].
  unfold folder_at. rewrite Hf. reflexivity.
Qed.

Lemma grows_same w w' :
  folders w' = folders w -> index_file w' = index_file w -> grows w w'.
Proof. intros Hf Hi. unfold grows. rewrite Hf. auto. Qed.

Lemma outside_write_file p name data : preserves (outside p) (write_file p name data).
Proof.
  intros w. unfold write_file.
  destruct (folders w !! p) as [d|]; [|apply outside_refl].
  destruct (d !! name) as [[|other]|]; try apply outside_refl;
    (destruct (open_refused _); [apply outside_refl|apply outside_set_folder]).
Qed.

Lemma outside_makedirs p : preserves (outside p) (makedirs p).
Proof.
  intros w. unfold makedirs.
  destruct (path_there p w); [apply outside_refl|].
  destruct (makedirs_refused p); [apply outside_refl|apply outside_set_folder].
Qed.

(** A download keeps every entry of the folder: the name it writes
    under is one that the folder does not have. *)
Lemma adds_to_download_file failed p t : preserves (adds_to p) (download_file failed p t).
Proof.
  intros w. unfold download_file, bind, lift.
  destruct (attr t "href") as [url|e]; [|apply adds_to_same; reflexivity].
  destruct (get_filename_from_url url) as [filename|e];
    [|apply adds_to_same; reflexivity].
  pose proof (ensure_unique_filename_not_in (folder_at p w) filename) as Hfree.
  rewrite (proj2 (path_exists_false _ _) Hfree). simpl.
  unfold try_except, bind, fetch.
  destruct (remote url) as [data|chunked].
  - unfold write_file. change (folders (log_request url w)) with (folders w).
    destruct (folders w !! p) as [d|] eqn:Hd; [|apply adds_to_same; reflexivity].
    assert (folder_at p w = d) as Hat by (unfold folder_at; rewrite Hd; reflexivity).
    assert (d !! ensure_unique_filename (folder_at p w) filename
            = None) as Hfree' by (rewrite <- Hat; exact Hfree).
    rewrite Hfree'.
    destruct (open_refused _) as [r|]; [destruct r; apply adds_to_same; reflexivity|].
    simpl. split.
    + rewrite folder_at_put_file.
      change (folder_at p (log_request url w)) with (folder_at p w).
      apply insert_subseteq. exact Hfree.
    + apply (outside_set_folder p _ (log_request url w)).
  - destruct chunked; apply adds_to_same; reflexivity.
Qed.

Lemma outside_download_file failed p t : preserves (outside p) (download_file failed p t).
Proof. intros w. apply adds_to_download_file. Qed.

Lemma outside_save_post_info soup p : preserves (outside p) (save_post_info soup p).
Proof.
  unfold save_post_info. destruct (info_html soup _) as [html interrupted].
  apply preserves_bind; [apply outside_trans|apply outside_write_file|].
  intros _. destruct interrupted;
    [apply preserves_raise|apply preserves_ret]; apply outside_refl.
Qed.

Lemma outside_download_new_post url config soup p :
  preserves (outside p) (download_new_post url config soup p).
Proof.
  pose proof (outside_refl p) as Hr. pose proof (outside_trans p) as Ht.
  unfold download_new_post.
  apply preserves_bind; [exact Ht|apply outside_makedirs|]. intros _.
  apply preserves_bind; [exact Ht| |].
  { destruct (save_info_txt config);
      [apply outside_save_post_info|apply preserves_ret, Hr]. }
  intros _. apply preserves_bind; [exact Ht| |].
  { apply preserves_download_files; [exact Hr|exact Ht|].
    intros t. apply outside_download_file. }
  intros _. apply preserves_bind; [exact Ht| |].
  { apply preserves_download_attachments_and_videos; [exact Hr|exact Ht|].
    intros failed t. apply outside_download_file. }
  intros _. intros w. apply outside_same; reflexivity.
Qed.

Lemma outside_grows p w w' :
  folders w !! p = None -> outside p w w' -> grows w w'.
Proof.
  intros Hnone (Hout & Hi). split; [|exact Hi].
  apply map_subseteq_spec. intros q d Hq.
  rewrite Hout; [exact Hq|]. intros ->. rewrite Hnone in Hq. discriminate.
Qed.

Lemma grows_download_content url config : preserves grows (download_content url config).
Proof.
  unfold download_content.
  apply preserves_try_except; [exact grows_trans| |].
  2:{ intros e w. destruct e; apply grows_same; reflexivity. }
  unfold download_try.
  apply preserves_bind; [exact grows_trans| |].
  { apply preserves_fetch. intros u w. apply grows_same; reflexivity. }
  intros html.
  apply preserves_bind; [exact grows_trans|apply preserves_lift, grows_refl|].
  intros post_path w.
  destruct (path_there post_path w) eqn:Hthere.
  - apply grows_same; reflexivity.
  - apply (outside_grows post_path).
    + destruct (folders w !! post_path) eqn:Hl; [|reflexivity].
      rewrite (path_there_made post_path w) in Hthere by (rewrite Hl; eauto).
      discriminate.
    + apply outside_download_new_post.
Qed.

Lemma grows_download_posts config posts : preserves grows (download_posts config posts).
Proof.
  induction posts as [|post posts IH]; simpl.
  - apply preserves_ret, grows_refl.
  - apply preserves_bind; [exact grows_trans|apply grows_download_content|].
    intros _. exact IH.
Qed.

(** X15. A download pass over the links of a post only adds files to
    the post folder: every entry that the folder had is there after the
    pass, under its name and with its content; the other folders and
    the index file are as they were. *)
Theorem download_pass_only_adds_files
    (failed : string -> message) (post_path : string) (tags : list tag) (w : world) :
  let w' := snd (download_files failed post_path tags w) in
  folder_at post_path w ⊆ folder_at post_path w'
  /\ (forall q, q <> post_path -> folders w' !! q = folders w !! q)
  /\ index_file w' = index_file w.
Proof.
  pose proof (preserves_download_files (adds_to post_path) (adds_to_refl post_path)
                (adds_to_trans post_path) failed post_path tags
                (adds_to_download_file failed post_path) w) as (Hsub & Hout & Hi).
  simpl. auto.
Qed.

(** X16. The downloads of a run only add post folders: every folder
    that was there before [download_content] is called, on one post or
    on the posts one after the other, is there afterwards with the same
    files, and the index file is as it was. *)
Theorem download_posts_only_adds_folders
    (config : config) (posts : list post_info) (url : string) (w : world) :
  (folders w ⊆ folders (snd (download_content url config w))
   /\ index_file (snd (download_content url config w)) = index_file w)
  /\ folders w ⊆ folders (snd (download_posts config posts w))
  /\ index_file (snd (download_posts config posts w)) = index_file w.
Proof.
  split.
  - apply grows_download_content.
  - apply grows_download_posts.
Qed.

End Frames.

(** ** How a run ends *)

Section Endings.

Context {E : Env}.

Lemma walk_round_uncaught base_url v w e v' w' :
  walk_round base_url v w = (Raise e, v', w') -> is_RequestException e = false.
Proof.
  unfold walk_round.
  destruct (walk_try base_url v w) as [[[f|e1] v1] w1]; [discriminate|].
  destruct (is_RequestException e1) eqn:He1; [discriminate|].
  intros H. injection H as <- _ _. exact He1.
Qed.

Lemma walk_loop_uncaught base_url fuel : forall v w e v' w',
  walk_loop fuel base_url v w = Some (Raise e, v', w') ->
  is_RequestException e = false.
Proof.
  induction fuel as [|fuel IH]; intros v w e v' w'; simpl; [discriminate|].
  destruct (walk_round base_url v w) as [[[[]|e1] v1] w1] eqn:Hround.
  - discriminate.
  - apply IH.
  - intros H. injection H as <- _ _.
    exact (walk_round_uncaught _ _ _ _ _ _ Hround).
Qed.

Lemma download_content_uncaught url config w e w' :
  download_content url config w = (Raise e, w') -> is_RequestException e = false.
Proof.
  unfold download_content, try_except.
  destruct (download_try url config w) as [[[]|e1] w1]; [discriminate|].
  destruct (is_RequestException e1) eqn:He1.
  - destruct e1; discriminate.
  - intros H. injection H as <- _. exact He1.
Qed.

Lemma download_posts_uncaught config posts : forall w e w',
  download_posts config posts w = (Raise e, w') -> is_RequestException e = false.
Proof.
  induction posts as [|post posts IH]; intros w e w'; simpl; [discriminate|].
  unfold bind.
  destruct (download_content (link post) config w) as [[[]|e1] w1] eqn:Hpost.
  - apply IH.
  - intros H. injection H as <- _.
    exact (download_content_uncaught _ _ _ _ _ Hpost).
Qed.

(** X17. The script never ends in a request exception: a failed
    request for a listing page, for a post page or for a file is caught
    where it happens, so an exception that ends the run comes from a
    document or from the file system. *)
Theorem run_never_ends_in_request_exception
    (fuel : nat) (config : config) (base_url : string) (w0 : world)
    (e : exn) (w' : world) :
  main fuel config base_url w0 = Some (Raise e, w') ->
  is_RequestException e = false.
Proof.
  unfold main.
  destruct (walk_loop fuel base_url walker_start w0) as [[[[[]|e1] v] w1]|] eqn:Hwalk;
    [| |discriminate].
  - unfold filter_and_download, save_posts_to_file, bind, act.
    match goal with
    | |- context [download_posts ?c ?ps ?w] =>
        destruct (download_posts c ps w) as [[[]|e2] w2] eqn:Hposts
    end; [discriminate|].
    intros H. injection H as <- _.
    exact (download_posts_uncaught _ _ _ _ _ Hposts).
  - intros H. injection H as <- _.
    exact (walk_loop_uncaught _ _ _ _ _ _ _ Hwalk).
Qed.

(** X18. The index file is written before the first download: when the
    pagination loop has ended without exception, the index file holds
    the filtered posts at the end of the run, also when a download ends
    the run in an exception. *)
Theorem index_is_written_before_downloads
    (fuel : nat) (config : config) (base_url : string) (w0 : world)
    (v : walker) (w1 : world) :
  walk_loop fuel base_url walker_start w0 = Some (Ok tt, v, w1) ->
  exists r w',
    main fuel config base_url w0 = Some (r, w')
    /\ index_file w' = Some (filter_posts config (all_posts v)).
Proof.
  intros Hwalk. unfold main. rewrite Hwalk.
  unfold filter_and_download, save_posts_to_file, bind, act.
  match goal with
  | |- context [download_posts ?c ?ps ?w] =>
      pose proof (grows_download_posts c ps w) as (_ & Hi);
      destruct (download_posts c ps w) as [[[]|e2] w2]
  end; eexists _, _; (split; [reflexivity|exact Hi]).
Qed.

End Endings.

Lemma run_never_ends_in_request_exception_witness :
  exists w',
    main (E := Site.env) 1 Site.all_on (Site.profile "6") Site.nothing
    = Some (Raise TypeError, w')
    /\ is_RequestException TypeError = false.
Proof.
  eexists.
  assert (main (E := Site.env) 1 Site.all_on (Site.profile "6") Site.nothing
          = Some (Raise TypeError,
                  snd (filter_and_download (E := Site.env) Site.all_on
                         [ {| link := Site.post_url "11"; title := "Eleven";
                              attachments := "No attachments";
                              date := "No date available";
                              image := "No image available" |};
                           {| link := Site.post_url "10"; title := "Ten";
                              attachments := "No attachments";
                              date := "No date available";
                              image := "No image available" |} ]
                         (log_request (page_url (Site.profile "6") 0) Site.nothing))))
    as Hrun by (vm_compute; reflexivity).
  split; [exact Hrun|].
  exact (run_never_ends_in_request_exception (E := Site.env) _ _ _ _ _ _ Hrun).
Defined.

Lemma index_is_written_before_downloads_witness :
  exists v w1 r w',
    walk_loop (E := Site.env) 1 (Site.profile "6") walker_start Site.nothing
    = Some (Ok tt, v, w1)
    /\ main (E := Site.env) 1 Site.all_on (Site.profile "6") Site.nothing = Some (r, w')
    /\ r = Raise TypeError
    /\ index_file w' = Some (filter_posts Site.all_on (all_posts v)).
Proof.
  assert (walk_loop (E := Site.env) 1 (Site.profile "6") walker_start Site.nothing
          = Some (Ok tt,
                  {| page_number := 0; total_pages := Some 1;
                     all_posts :=
                       [ {| link := Site.post_url "11"; title := "Eleven";
                            attachments := "No attachments";
                            date := "No date available";
                            image := "No image available" |};
                         {| link := Site.post_url "10"; title := "Ten";
                            attachments := "No attachments";
                            date := "No date available";
                            image := "No image available" |} ] |},
                  log_request (page_url (Site.profile "6") 0) Site.nothing))
    as Hwalk by (vm_compute; reflexivity).
  destruct (index_is_written_before_downloads (E := Site.env) 1 Site.all_on
              (Site.profile "6") Site.nothing _ _ Hwalk) as (r & w' & Hmain & Hindex).
  eexists _, _, r, w'. split; [exact Hwalk|]. split; [exact Hmain|].
  split; [|exact Hindex].
  assert (exists w2, main (E := Site.env) 1 Site.all_on (Site.profile "6") Site.nothing
                     = Some (Raise TypeError, w2)) as (w2 & Hrun)
    by (eexists; vm_compute; reflexivity).
  rewrite Hrun in Hmain. injection Hmain as <- _. reflexivity.
Defined.

(** ** The post folder *)

Lemma rfind_app_none c a b :
  OsPath.rfind c b = None -> OsPath.rfind c (a +:+ b) = OsPath.rfind c a.
Proof.
  intros Hb. induction a as [|x a IH]; [rewrite app_empty_l; exact Hb|].
  rewrite app_cons. simpl. rewrite IH. reflexivity.
Qed.

Lemma rfind_lt c a i : OsPath.rfind c a = Some i -> (i < String.length a)%nat.
Proof.
  revert i. induction a as [|x a IH]; intros i; simpl; [discriminate|].
  destruct (OsPath.rfind c a) as [j|].
  - intros H. injection H as <-. specialize (IH j eq_refl). lia.
  - destruct (Ascii.eqb x c); [|discriminate].
    intros H. injection H as <-. lia.
Qed.

(** A path that ends in a component without separator does not end
    with a separator. *)
Lemma endswith_sep_app a b :
  OsPath.rfind "/" b = None -> b <> "" -> OsPath.endswith_sep (a +:+ b) = false.
Proof.
  intros Hb Hne. unfold OsPath.endswith_sep. rewrite (rfind_app_none _ a b Hb).
  destruct (OsPath.rfind "/" a) as [i|] eqn:Hi; [|reflexivity].
  apply rfind_lt in Hi. rewrite app_length.
  destruct b; [contradiction|]. cbn [String.length]. apply Nat.eqb_neq. lia.
Qed.

Lemma eqb_app_nonempty a b : a <> "" -> String.eqb (a +:+ b) "" = false.
Proof. intros Hne. destruct a; [contradiction|]. rewrite app_cons. reflexivity. Qed.

Lemma startswith_app sep a b :
  PyStr.startswith (String sep "") a = false ->
  PyStr.startswith (String sep "") b = false ->
  PyStr.startswith (String sep "") (a +:+ b) = false.
Proof.
  intros Ha Hb. destruct a as [|x a]; [rewrite app_empty_l; exact Hb|].
  rewrite app_cons. simpl in *. exact Ha.
Qed.

Lemma join2_rel path b :
  PyStr.startswith "/" b = false -> path <> "" -> OsPath.endswith_sep path = false ->
  OsPath.join2 path b = path +:+ "/" +:+ b.
Proof.
  intros Hb Hne Hend. unfold OsPath.join2. rewrite Hb, Hend.
  destruct path; [contradiction|]. reflexivity.
Qed.

Lemma find_none_rfind s : PyStr.find "/" s = None -> OsPath.rfind "/" s = None.
Proof.
  induction s as [|c s IH]; [reflexivity|].
  cbn [PyStr.find PyStr.startswith].
  destruct (Ascii.eqb "/" c) eqn:Hc; [discriminate|]. cbn [andb].
  destruct (PyStr.find "/" s); [discriminate|]. intros _.
  simpl. rewrite (IH eq_refl), Ascii.eqb_sym, Hc. reflexivity.
Qed.

Lemma find_take_rfind s : forall i,
  PyStr.find "/" s = Some i -> OsPath.rfind "/" (PyStr.take i s) = None.
Proof.
  induction s as [|c s IH]; intros i; [discriminate|].
  cbn [PyStr.find PyStr.startswith].
  destruct (Ascii.eqb "/" c) eqn:Hc.
  - intros H. injection H as <-. reflexivity.
  - cbn [andb]. destruct (PyStr.find "/" s) as [j|]; [|discriminate].
    intros H. injection H as <-. simpl.
    rewrite (IH j eq_refl), Ascii.eqb_sym, Hc. reflexivity.
Qed.

Lemma drop_length_le n : forall s, (String.length (PyStr.drop n s) <= String.length s)%nat.
Proof.
  induction n as [|n IH]; intros s; [destruct s; simpl; lia|].
  destruct s as [|c s]; simpl; [lia|]. specialize (IH s). lia.
Qed.

(** The pieces that a split at the separator gives have no separator. *)
Lemma split_go_pieces fuel : forall s,
  (String.length s <= fuel)%nat ->
  Forall (fun piece => OsPath.rfind "/" piece = None) (PyStr.split_go fuel "/" s).
Proof.
  induction fuel as [|fuel IH]; intros s Hlen.
  - destruct s; [|simpl in Hlen; lia]. repeat constructor.
  - cbn [PyStr.split_go]. destruct (PyStr.find "/" s) as [i|] eqn:Hfind.
    + constructor; [exact (find_take_rfind s i Hfind)|].
      apply IH. destruct s as [|c s]; [discriminate Hfind|].
      change (String.length "/") with 1%nat. rewrite Nat.add_1_r. simpl.
      pose proof (drop_length_le i s). simpl in Hlen. lia.
    + repeat constructor. exact (find_none_rfind s Hfind).
Qed.

Lemma base_folder_of_cases `{E : Env} url :
  base_folder_of url = "Kemono" \/ base_folder_of url = "Coomer".
Proof. unfold base_folder_of. destruct (_ || _); auto. Qed.

Lemma platform_name_of_no_sep `{E : Env} soup platform :
  platform_name_of soup = Ok platform -> OsPath.rfind "/" platform = None.
Proof.
  unfold platform_name_of. destruct (og_image soup) as [meta_tag|].
  - destruct (attr meta_tag "content") as [content|]; simpl; [|discriminate].
    destruct (url_path content) as [path|]; simpl; [|discriminate].
    unfold PyStr.index.
    destruct (PyStr.split "/" path !! 2%nat) as [piece|] eqn:Hpiece;
      [|discriminate].
    intros H. injection H as <-.
    exact (proj1 (Forall_lookup _ _)
             (split_go_pieces _ _ (Nat.le_refl _)) _ _ Hpiece).
  - intros H. injection H as <-. reflexivity.
Qed.

(** X19. The layout of the post folders.  When the author, the
    platform and the post id of a post page are resolved and neither
    the author nor the post id starts with a slash, the post folder is
    [base/author-platform/posts/id], where [base] is [Kemono] or
    [Coomer]. *)
Theorem post_path_layout `{E : Env}
    (url : string) (soup : post_doc) (author platform post_id : string) :
  author_name_of soup = Ok author ->
  platform_name_of soup = Ok platform ->
  post_id_of soup = Ok post_id ->
  PyStr.startswith "/" author = false ->
  PyStr.startswith "/" post_id = false ->
  (base_folder_of url = "Kemono" \/ base_folder_of url = "Coomer")
  /\ post_path_of url soup
     = Ok (base_folder_of url +:+ "/" +:+ author +:+ "-" +:+ platform
           +:+ "/posts/" +:+ post_id).
Proof.
  intros Hauthor Hplatform Hid Hstart Hidstart.
  pose proof (base_folder_of_cases url) as Hbase. split; [exact Hbase|].
  pose proof (platform_name_of_no_sep soup platform Hplatform) as Hsep.
  unfold post_path_of. rewrite Hauthor, Hplatform, Hid. simpl. f_equal.
  unfold OsPath.join. cbn [fold_left].
  set (base := base_folder_of url) in *.
  assert (base <> "") as Hne by (destruct Hbase as [-> | ->]; discriminate).
  assert (OsPath.endswith_sep base = false) as Hend
    by (destruct Hbase as [-> | ->]; reflexivity).
  rewrite (join2_rel base); [| |exact Hne|exact Hend].
  2:{ apply startswith_app; [exact Hstart|rewrite app_cons; reflexivity]. }
  set (path1 := base +:+ "/" +:+ author +:+ "-" +:+ platform).
  assert (OsPath.endswith_sep path1 = false) as Hend1.
  { replace path1 with ((base +:+ "/" +:+ author) +:+ ("-" +:+ platform))
      by (unfold path1; rewrite !app_assoc_string; reflexivity).
    apply endswith_sep_app; [|rewrite app_cons; discriminate].
    rewrite app_cons, app_empty_l. simpl. rewrite Hsep. reflexivity. }
  assert (path1 <> "") as Hne1.
  { unfold path1. destruct base; [contradiction|]. rewrite app_cons. discriminate. }
  rewrite (join2_rel path1 "posts" eq_refl Hne1 Hend1).
  set (path2 := path1 +:+ "/" +:+ "posts").
  assert (OsPath.endswith_sep path2 = false) as Hend2.
  { replace path2 with ((path1 +:+ "/") +:+ "posts")
      by (unfold path2; rewrite !app_assoc_string; reflexivity).
    apply endswith_sep_app; [reflexivity|discriminate]. }
  assert (path2 <> "") as Hne2.
  { unfold path2. destruct path1; [contradiction|]. rewrite app_cons. discriminate. }
  rewrite (join2_rel path2 post_id Hidstart Hne2 Hend2).
  unfold path2, path1. rewrite !app_assoc_string. reflexivity.
Qed.

Lemma post_path_layout_witness :
  post_path_of (E := Site.env) (Site.post_url "12")
    (Site.post (Some "12") [])
  = Ok "Kemono/alice-patreon/posts/12".
Proof.
  exact (proj2 (post_path_layout (E := Site.env) (Site.post_url "12")
                  (Site.post (Some "12") []) "alice" "patreon" "12"
                  eq_refl eq_refl eq_refl eq_refl eq_refl)).
Defined.

(** X20. A post id that starts with a slash is the post folder: the
    join starts the path again at an absolute component, so the folder
    is outside [Kemono] and [Coomer], whatever the author and the
    platform. *)
Theorem absolute_post_id_is_the_post_path `{E : Env}
    (url : string) (soup : post_doc) (author platform post_id : string) :
  author_name_of soup = Ok author ->
  platform_name_of soup = Ok platform ->
  post_id_of soup = Ok post_id ->
  PyStr.startswith "/" post_id = true ->
  post_path_of url soup = Ok post_id.
Proof.
  intros Hauthor Hplatform Hid Hstart.
  unfold post_path_of. rewrite Hauthor, Hplatform, Hid. simpl.
  unfold OsPath.join. cbn [fold_left]. unfold OsPath.join2 at 1.
  rewrite Hstart. reflexivity.
Qed.

Lemma absolute_post_id_is_the_post_path_witness :
  post_path_of (E := Site.env) (Site.post_url "12")
    (Site.post (Some "/tmp/12") [])
  = Ok "/tmp/12".
Proof.
  exact (absolute_post_id_is_the_post_path (E := Site.env) (Site.post_url "12")
           (Site.post (Some "/tmp/12") []) "alice" "patreon" "/tmp/12"
           eq_refl eq_refl eq_refl eq_refl).
Defined.

(** ** A post that is not there yet *)

Lemma new_folder_lookup name :
  (2 < String.length name)%nat -> new_folder !! name = None.
Proof.
  intros Hlen. unfold new_folder.
  rewrite !lookup_insert_ne, lookup_singleton_ne; [reflexivity|..];
    intros <-; simpl in Hlen; lia.
Qed.

Section FreshPost.

Context {E : Env}.

(** The title under which [save_post_info] writes. *)
Lemma info_title_allowed soup :
  let title := match title_spans soup with
               | Some spans => sanitize_filename (PyStr.join " " (map text spans))
               | None => "Untitled"
               end in
  allowed title = true /\ (String.length title <= 255)%nat.
Proof.
  destruct (title_spans soup) as [spans|]; simpl.
  - split; [apply sanitize_filename_allowed|apply sanitize_filename_short].
  - split; [reflexivity|lia].
Qed.

Lemma info_name_free title : new_folder !! (title +:+ ".html") = None.
Proof. apply new_folder_lookup. rewrite app_length. simpl. lia. Qed.

(** X21. In a post folder that has just been made, [save_post_info]
    opens one file, named by the title and [.html], where the title is
    the sanitized text of the spans of the title element, joined by
    spaces, or [Untitled] without a title element; the name has no
    forbidden character and at most 260 characters.  When the operating
    system accepts the name, the file holds what the function writes
    and is the one entry that the folder gains; when it refuses the
    name, the function ends in the exception of the refusal and the
    folder is as it was. *)
Theorem info_file_is_named_by_the_title
    (soup : post_doc) (post_path : string) (w : world) :
  folders w !! post_path = Some new_folder ->
  let title := match title_spans soup with
               | Some spans => sanitize_filename (PyStr.join " " (map text spans))
               | None => "Untitled"
               end in
  let name := title +:+ ".html" in
  allowed name = true
  /\ (String.length name <= 260)%nat
  /\ (open_refused (OsPath.join2 post_path name) = None ->
      folder_at post_path (snd (save_post_info soup post_path w))
      = <[name := File (fst (info_html soup title))]> new_folder
      /\ fst (save_post_info soup post_path w)
         = match snd (info_html soup title) with
           | Some e => Raise e
           | None => Ok tt
           end)
  /\ (forall r, open_refused (OsPath.join2 post_path name) = Some r ->
        save_post_info soup post_path w = (Raise (exn_of_refusal r), w)).
Proof.
  intros Hnew title name.
  destruct (info_title_allowed soup) as (Hallowed & Hshort). fold title in Hallowed, Hshort.
  split. { unfold name, allowed in *. rewrite all_chars_app, Hallowed. reflexivity. }
  split. { unfold name. rewrite app_length. simpl. lia. }
  assert (folder_at post_path w = new_folder) as Hat
    by (unfold folder_at; rewrite Hnew; reflexivity).
  unfold save_post_info. fold title. fold name.
  destruct (info_html soup title) as [html interrupted]. cbn [fst snd].
  split.
  - intros Hopen.
    assert (write_file post_path name html w = (Ok tt, put_file post_path name html w))
      as Hwrite.
    { apply write_file_free; [rewrite Hnew; eauto| |exact Hopen].
      rewrite Hat. apply info_name_free. }
    rewrite (bind_ok _ _ _ _ _ Hwrite).
    destruct interrupted; unfold raise, ret; cbn [fst snd];
      rewrite folder_at_put_file, Hat; auto.
  - intros r Hopen. unfold bind, write_file.
    pose proof (info_name_free title) as Hfree. fold name in Hfree.
    rewrite Hnew, Hfree, Hopen. reflexivity.
Qed.

Lemma save_post_info_whole soup post_path w :
  folders w !! post_path = Some new_folder ->
  let title := match title_spans soup with
               | Some spans => sanitize_filename (PyStr.join " " (map text spans))
               | None => "Untitled"
               end in
  open_refused (OsPath.join2 post_path (title +:+ ".html")) = None ->
  snd (info_html soup title) = None ->
  fst (save_post_info soup post_path w) = Ok tt
  /\ requests (snd (save_post_info soup post_path w)) = requests w
  /\ is_Some (folders (snd (save_post_info soup post_path w)) !! post_path)
  /\ folder_at post_path (snd (save_post_info soup post_path w))
     = <[title +:+ ".html" := File (fst (info_html soup title))]> new_folder.
Proof.
  intros Hnew title Hopen Hwhole.
  assert (folder_at post_path w = new_folder) as Hat
    by (unfold folder_at; rewrite Hnew; reflexivity).
  unfold save_post_info. fold title.
  destruct (info_html soup title) as [html interrupted]. cbn [fst snd] in *.
  subst interrupted.
  assert (write_file post_path (title +:+ ".html") html w
          = (Ok tt, put_file post_path (title +:+ ".html") html w)) as Hwrite.
  { apply write_file_free; [rewrite Hnew; eauto| |exact Hopen].
    rewrite Hat. apply info_name_free. }
  rewrite (bind_ok _ _ _ _ _ Hwrite). unfold ret. cbn [fst snd].
  rewrite folder_at_put_file, Hat.
  split; [reflexivity|]. split; [reflexivity|]. split; [apply folders_put_file|reflexivity].
Qed.

Lemma run_ok {A} (m : M A) w a : fst (m w) = Ok a -> m w = (Ok a, snd (m w)).
Proof. destruct (m w) as [r w1]. simpl. intros ->. reflexivity. Qed.

(** X22. The requests that a post costs.  The page of a post is served
    and its post folder is resolved and not there; [os.makedirs] does
    not refuse the folder; every link of the page has an [href] whose
    URL is parsed; the information file, when it is asked for, is
    accepted by the operating system and written through; and the
    operating system refuses none of the files that the download loops
    open.  Then [download_content] ends without exception; it has
    requested the page, then the gallery links, then the attachment
    links when [download_attachments] is set, then the attachment links
    again when [download_videos] is set, and nothing else; the post
    folder holds the information file and what the loops have stored;
    and the last line printed tells that the post is downloaded. *)
Theorem fresh_post_requests
    (url : string) (config : config) (html post_path : string)
    (thumbs links : list (string * string)) (w : world) :
  remote url = Body html ->
  post_path_of url (post_soup html) = Ok post_path ->
  path_there post_path w = false ->
  makedirs_refused post_path = None ->
  Forall2 (fun t item => attr t "href" = Ok (fst item)
                         /\ get_filename_from_url (fst item) = Ok (snd item))
    (file_thumbs (post_soup html)) thumbs ->
  Forall2 (fun t item => attr t "href" = Ok (fst item)
                         /\ get_filename_from_url (fst item) = Ok (snd item))
    (attachment_links (post_soup html)) links ->
  let title := match title_spans (post_soup html) with
               | Some spans => sanitize_filename (PyStr.join " " (map text spans))
               | None => "Untitled"
               end in
  (save_info_txt config = true ->
   open_refused (OsPath.join2 post_path (title +:+ ".html")) = None
   /\ snd (info_html (post_soup html) title) = None) ->
  let d0 := if save_info_txt config
            then <[title +:+ ".html" := File (fst (info_html (post_soup html) title))]>
                   new_folder
            else new_folder in
  let d1 := pass thumbs d0 in
  let d2 := if download_attachments config then pass links d1 else d1 in
  let d3 := if download_videos config then pass links d2 else d2 in
  accepted post_path thumbs d0 ->
  (download_attachments config = true -> accepted post_path links d1) ->
  (download_videos config = true -> accepted post_path links d2) ->
  let after := download_content url config w in
  fst after = Ok tt
  /\ requests (snd after)
     = requests w ++ url :: (fst <$> thumbs)
         ++ (if download_attachments config then fst <$> links else [])
         ++ (if download_videos config then fst <$> links else [])
  /\ folder_at post_path (snd after) = d3
  /\ exists w', snd after = print (MsgPostDownloaded url) w'.
Proof.
  intros Hbody Hpath Hnone Hmakes Hthumbs Hlinks title Hinfo d0 d1 d2 d3
    Ha0 Ha1 Ha2 after.
  set (soup := post_soup html) in *.
  set (w1 := log_request url w).
  set (w2 := set_folder post_path new_folder w1).
  assert (path_there post_path w1 = false) as Hnone1
    by (rewrite (path_there_folders post_path w w1 eq_refl); exact Hnone).
  assert (makedirs post_path w1 = (Ok tt, w2)) as Hmk.
  { unfold makedirs. rewrite Hnone1, Hmakes. reflexivity. }
  assert (folders w2 !! post_path = Some new_folder) as Hnew
    by (unfold w2; simpl; apply lookup_insert_eq).
  set (save := if save_info_txt config then save_post_info soup post_path else ret tt).
  assert (fst (save w2) = Ok tt /\ requests (snd (save w2)) = requests w2
          /\ is_Some (folders (snd (save w2)) !! post_path)
          /\ folder_at post_path (snd (save w2)) = d0) as (Hs1 & Hs2 & Hs3 & Hs4).
  { unfold save, d0. destruct (save_info_txt config).
    - destruct (Hinfo eq_refl) as (Hopen & Hwhole).
      exact (save_post_info_whole soup post_path w2 Hnew Hopen Hwhole).
    - split; [reflexivity|]. split; [reflexivity|].
      change (is_Some (folders w2 !! post_path)
              /\ folder_at post_path w2 = new_folder).
      unfold folder_at. rewrite Hnew. eauto. }
  set (w3 := snd (save w2)) in *.
  rewrite <- Hs4 in Ha0.
  destruct (download_files_pass MsgFailedImage post_path (file_thumbs soup)
              thumbs w3 Hs3 Hthumbs Ha0) as (Hi1 & Hi2 & Hi3 & Hi4).
  rewrite Hs4 in Hi4. fold d1 in Hi4.
  set (images := download_files MsgFailedImage post_path (file_thumbs soup)) in *.
  set (w4 := snd (images w3)) in *.
  set (first := if download_attachments config
                then download_files MsgFailedAttachment post_path (attachment_links soup)
                else ret tt).
  assert (fst (first w4) = Ok tt
          /\ is_Some (folders (snd (first w4)) !! post_path)
          /\ requests (snd (first w4))
             = requests w4 ++ (if download_attachments config then fst <$> links else [])
          /\ folder_at post_path (snd (first w4)) = d2)
    as (Hf1 & Hf2 & Hf3 & Hf4).
  { unfold first, d2. destruct (download_attachments config).
    - specialize (Ha1 eq_refl). rewrite <- Hi4 in Ha1.
      destruct (download_files_pass MsgFailedAttachment post_path _ links w4
                  Hi2 Hlinks Ha1) as (H1 & H2 & H3 & H4).
      rewrite Hi4 in H4. auto.
    - split; [reflexivity|]. split; [exact Hi2|]. split; [|exact Hi4].
      change (requests w4 = requests w4 ++ []). rewrite app_nil_r. reflexivity. }
  set (w5 := snd (first w4)) in *.
  set (second := if download_videos config
                 then download_files MsgFailedVideo post_path (attachment_links soup)
                 else ret tt).
  assert (fst (second w5) = Ok tt
          /\ is_Some (folders (snd (second w5)) !! post_path)
          /\ requests (snd (second w5))
             = requests w5 ++ (if download_videos config then fst <$> links else [])
          /\ folder_at post_path (snd (second w5)) = d3)
    as (Hv1 & Hv2 & Hv3 & Hv4).
  { unfold second, d3. destruct (download_videos config).
    - specialize (Ha2 eq_refl). rewrite <- Hf4 in Ha2.
      destruct (download_files_pass MsgFailedVideo post_path _ links w5
                  Hf2 Hlinks Ha2) as (H1 & H2 & H3 & H4).
      rewrite Hf4 in H4. auto.
    - split; [reflexivity|]. split; [exact Hf2|]. split; [|exact Hf4].
      change (requests w5 = requests w5 ++ []). rewrite app_nil_r. reflexivity. }
  set (w6 := snd (second w5)) in *.
  assert (download_content url config w = (Ok tt, print (MsgPostDownloaded url) w6))
    as Hrun.
  { unfold download_content, try_except, download_try.
    unfold bind at 1, fetch. rewrite Hbody. fold w1.
    unfold bind at 1, lift. fold soup. rewrite Hpath, Hnone1.
    unfold download_new_post. rewrite (bind_ok _ _ _ _ _ Hmk).
    fold save. rewrite (bind_ok _ _ _ _ _ (run_ok save w2 tt Hs1)). fold w3.
    fold images. rewrite (bind_ok _ _ _ _ _ (run_ok images w3 tt Hi1)). fold w4.
    unfold download_attachments_and_videos. fold first second.
    assert (bind first (fun _ => second) w4 = (Ok tt, w6)) as Hboth.
    { rewrite (bind_ok _ _ _ _ _ (run_ok first w4 tt Hf1)). fold w5.
      rewrite (run_ok second w5 tt Hv1). reflexivity. }
    rewrite (bind_ok _ _ _ _ _ Hboth). reflexivity. }
  unfold after. rewrite Hrun. cbn [fst snd]. split; [reflexivity|]. split; [|split].
  - change (requests (print (MsgPostDownloaded url) w6)) with (requests w6).
    rewrite Hv3, Hf3, Hi3, Hs2. change (requests w2) with (requests w ++ [url]).
    rewrite <- !app_assoc. reflexivity.
  - exact Hv4.
  - eexists. reflexivity.
Qed.

End FreshPost.

Lemma info_file_is_named_by_the_title_witness :
  let path := "Kemono/alice-patreon/posts/12" in
  let w := snd (makedirs (E := Site.env) path Site.nothing) in
  folders w !! path = Some new_folder
  /\ @open_refused Site.env (OsPath.join2 path "Hello.html") = None
  /\ folder_at path (snd (save_post_info (E := Site.env) (Site.post (Some "12") []) path w))
     = <["Hello.html" := File "Hello"]> new_folder.
Proof.
  intros path w.
  assert (folders w !! path = Some new_folder) as Hnew by (vm_compute; reflexivity).
  assert (@open_refused Site.env (OsPath.join2 path "Hello.html") = None) as Hopen
    by (vm_compute; reflexivity).
  split; [exact Hnew|]. split; [exact Hopen|].
  destruct (info_file_is_named_by_the_title (E := Site.env) (Site.post (Some "12") [])
              path w Hnew) as (_ & _ & Hstored & _).
  exact (proj1 (Hstored Hopen)).
Defined.

(** A title of 255 characters makes a name of 260, which the operating
    system of the examples refuses: the information file is not
    written, and the exception is not one that [download_content]
    catches. *)
Example long_title_is_refused :
  let path := "Kemono/alice-patreon/posts/12" in
  let soup := {| user_name := None; og_image := None; meta_id := None;
                 title_spans := Some [Tag [] (String.concat "" (repeat "t" 300))];
                 file_thumbs := []; attachment_links := [];
                 info_html := fun title => (title, None) |} in
  let w := snd (makedirs (E := Site.env) path Site.nothing) in
  save_post_info (E := Site.env) soup path w = (Raise OSError, w).
Proof. vm_compute. reflexivity. Qed.

Lemma fresh_post_requests_witness :
  let path := "Kemono/alice-patreon/posts/10" in
  let links := [(Site.file_url "aa" "one.zip", "one.zip");
                (Site.file_url "bb" "two.zip", "two.zip")] in
  let after := download_content (E := Site.env) (Site.post_url "10") Site.all_on
                 Site.nothing in
  path_there (E := Site.env) path Site.nothing = false
  /\ @makedirs_refused Site.env path = None
  /\ fst after = Ok tt
  /\ requests (snd after)
     = [Site.post_url "10";
        Site.file_url "aa" "one.zip"; Site.file_url "bb" "two.zip";
        Site.file_url "aa" "one.zip"; Site.file_url "bb" "two.zip"]
  /\ folder_at path (snd after)
     = pass (E := Site.env) links
         (pass (E := Site.env) links (<["Hello.html" := File "Hello"]> new_folder)).
Proof.
  intros path links after.
  assert (path_there (E := Site.env) path Site.nothing = false) as Hnone
    by (vm_compute; reflexivity).
  assert (@makedirs_refused Site.env path = None) as Hmakes
    by (vm_compute; reflexivity).
  assert (Forall2 (fun t item =>
                     attr t "href" = Ok (fst item)
                     /\ get_filename_from_url (E := Site.env) (fst item) = Ok (snd item))
            (attachment_links (@post_soup Site.env "post 10")) links) as Hlinks
    by (repeat constructor).
  assert (Forall2 (fun t item =>
                     attr t "href" = Ok (fst item)
                     /\ get_filename_from_url (E := Site.env) (fst item) = Ok (snd item))
            (file_thumbs (@post_soup Site.env "post 10")) []) as Hthumbs
    by constructor.
  split; [exact Hnone|]. split; [exact Hmakes|].
  destruct (fresh_post_requests (E := Site.env) (Site.post_url "10") Site.all_on
              "post 10" path [] links Site.nothing
              eq_refl eq_refl Hnone Hmakes Hthumbs Hlinks)
    as (Hok & Hreq & Hfolder & _).
  - intros _. split; vm_compute; reflexivity.
  - exact I.
  - intros _. vm_compute. repeat split.
  - intros _. vm_compute. repeat split.
  - split; [exact Hok|]. split; [exact Hreq|exact Hfolder].
Defined.

(** ** A post page whose folder is not resolved *)

Section PostPathErrors.

Context {E : Env}.

Lemma index_raises {A} (l : list A) i e : PyStr.index l i = Raise e -> e = IndexError.
Proof.
  unfold PyStr.index. destruct (l !! i); intros H; [discriminate|].
  injection H as <-. reflexivity.
Qed.

Lemma index_last_raises {A} (l : list A) e :
  PyStr.index_last l = Raise e -> e = IndexError.
Proof.
  unfold PyStr.index_last. destruct (rev l); intros H; [|discriminate].
  injection H as <-. reflexivity.
Qed.

Lemma post_path_of_raises url soup e :
  post_path_of url soup = Raise e ->
  e = TypeError \/ e = KeyError \/ e = IndexError \/ e = ValueError.
Proof.
  unfold post_path_of.
  destruct (author_name_of soup) as [author|e1] eqn:Hauthor; simpl.
  2:{ intros H. injection H as <-. unfold author_name_of in Hauthor.
      destruct (user_name soup); [discriminate|].
      destruct (og_image soup) as [meta_tag|]; [|discriminate].
      destruct (attr meta_tag "content") as [content|e2] eqn:Hc; simpl in Hauthor.
      2:{ injection Hauthor as <-. apply attr_raises in Hc. auto. }
      destruct (PyStr.index_last _) as [last|e3] eqn:Hl; simpl in Hauthor.
      2:{ injection Hauthor as <-. apply index_last_raises in Hl. auto. }
      apply index_raises in Hauthor. auto. }
  destruct (platform_name_of soup) as [platform|e1] eqn:Hplatform; simpl.
  2:{ intros H. injection H as <-. unfold platform_name_of in Hplatform.
      destruct (og_image soup) as [meta_tag|]; [|discriminate].
      destruct (attr meta_tag "content") as [content|e2] eqn:Hc; simpl in Hplatform.
      2:{ injection Hplatform as <-. apply attr_raises in Hc. auto. }
      destruct (parsed (url_path content)) as [path|e3] eqn:Hp; simpl in Hplatform.
      2:{ injection Hplatform as <-. apply parsed_raises in Hp. auto 6. }
      apply index_raises in Hplatform. auto. }
  destruct (post_id_of soup) as [post_id|e1] eqn:Hid; simpl; [discriminate|].
  intros H. injection H as <-. unfold post_id_of in Hid.
  destruct (meta_id soup) as [meta_tag|].
  - apply attr_raises in Hid. auto.
  - injection Hid as <-. auto.
Qed.

(** X23. When the page of a post is served and its post folder is not
    resolved, the exception is a [TypeError], a [KeyError], an
    [IndexError] or a [ValueError] (an element or its [content] is
    missing, the path of the image URL has fewer than three pieces, or
    the image URL is not parsed), which the handlers of
    [download_content] do not catch: [download_content] ends in it
    after the one request, nothing is made or printed, and the posts
    that follow are not requested. *)
Theorem unresolved_post_path_stops_the_run
    (url : string) (config : config) (html : string) (e : exn)
    (post : post_info) (rest : list post_info) (w : world) :
  remote url = Body html ->
  post_path_of url (post_soup html) = Raise e ->
  link post = url ->
  (e = TypeError \/ e = KeyError \/ e = IndexError \/ e = ValueError)
  /\ download_content url config w = (Raise e, log_request url w)
  /\ download_posts config (post :: rest) w = (Raise e, log_request url w).
Proof.
  intros Hbody Hpath Hlink.
  pose proof (post_path_of_raises _ _ _ Hpath) as He.
  split; [exact He|].
  assert (download_content url config w = (Raise e, log_request url w)) as Hrun.
  { unfold download_content, try_except, download_try, bind, fetch, lift.
    rewrite Hbody, Hpath. destruct He as [-> | [-> | [-> | ->]]]; reflexivity. }
  split; [exact Hrun|].
  cbn [download_posts]. unfold bind. rewrite Hlink, Hrun. reflexivity.
Qed.

End PostPathErrors.

(** An image URL with an opening bracket in its host is not parsed:
    the post folder is not resolved, and the run ends in the
    [ValueError]. *)
Example unparsed_image_url_stops_the_run :
  let env := Tables.env [("https://kemono.su/patreon/user/1/post/1", "post")] []
               [("post", Tables.post_with_image "https://[img/icons/patreon/1")] in
  let url := "https://kemono.su/patreon/user/1/post/1" in
  post_path_of (E := env) url (@post_soup env "post") = Raise ValueError
  /\ download_content (E := env) url Site.all_on Site.nothing
     = (Raise ValueError, log_request url Site.nothing).
Proof. vm_compute. split; reflexivity. Qed.

(** A link whose URL is not parsed ends the download loop in the
    [ValueError], before any request. *)
Example unparsed_link_stops_the_pass :
  let path := "Kemono/alice-patreon/posts/12" in
  let w := snd (makedirs (E := Site.env) path Site.nothing) in
  get_filename_from_url (E := Site.env) "http://[" = Raise ValueError
  /\ download_files (E := Site.env) MsgFailedImage path
       [Site.link_to "http://["; Site.link_to (Site.file_url "aa" "one.zip")] w
     = (Raise ValueError, w).
Proof. vm_compute. split; reflexivity. Qed.

Lemma unresolved_post_path_stops_the_run_witness :
  let env := Tables.env [("https://kemono.su/patreon/user/1/post/1", "post")] []
               [("post", Tables.post_with_image "https://img.kemono.su/icon")] in
  let url := "https://kemono.su/patreon/user/1/post/1" in
  post_path_of (E := env) url (@post_soup env "post") = Raise IndexError
  /\ download_content (E := env) url Site.all_on Site.nothing
     = (Raise IndexError, log_request url Site.nothing).
Proof.
  intros env url.
  assert (post_path_of (E := env) url (@post_soup env "post") = Raise IndexError)
    as Hpath by (vm_compute; reflexivity).
  split; [exact Hpath|].
  exact (proj1 (proj2 (unresolved_post_path_stops_the_run (E := env) url Site.all_on
                         "post" IndexError
                         {| link := url; title := ""; attachments := "";
                            date := ""; image := "" |} [] Site.nothing
                         eq_refl Hpath eq_refl))).
Defined.

(** ** A listing page that is not served *)

Section PageFailure.

Context {E : Env}.

Lemma asks_more_refl w : asks_more w w.
Proof. unfold asks_more. reflexivity. Qed.

Lemma asks_more_trans w1 w2 w3 : asks_more w1 w2 -> asks_more w2 w3 -> asks_more w1 w3.
Proof. unfold asks_more. intros H1 H2. etransitivity; eassumption. Qed.

Lemma asks_more_same w w' : requests w' = requests w -> asks_more w w'.
Proof. unfold asks_more. intros ->. reflexivity. Qed.

Lemma asks_more_log url w : asks_more w (log_request url w).
Proof. exists [url]. reflexivity. Qed.

Lemma asks_more_write_file p name data : preserves asks_more (write_file p name data).
Proof.
  intros w. unfold write_file.
  destruct (folders w !! p) as [d|]; [|apply asks_more_refl].
  destruct (d !! name) as [[|other]|]; try apply asks_more_refl;
    (destruct (open_refused _); apply asks_more_same; reflexivity).
Qed.

Lemma asks_more_makedirs p : preserves asks_more (makedirs p).
Proof.
  intros w. unfold makedirs.
  destruct (path_there p w); [apply asks_more_refl|].
  destruct (makedirs_refused p); apply asks_more_same; reflexivity.
Qed.

Lemma asks_more_download_file failed p t :
  preserves asks_more (download_file failed p t).
Proof.
  unfold download_file.
  apply preserves_bind; [exact asks_more_trans|apply preserves_lift, asks_more_refl|].
  intros url.
  apply preserves_bind; [exact asks_more_trans|apply preserves_lift, asks_more_refl|].
  intros filename w.
  destruct (negb _); [|apply asks_more_refl].
  apply (preserves_try_except asks_more asks_more_trans
           (do data <- fetch url;
            write_file p (ensure_unique_filename (folder_at p w) filename) data)
           is_RequestException (fun _ => act (print (failed url)))).
  - apply preserves_bind; [exact asks_more_trans| |].
    + apply preserves_fetch. exact asks_more_log.
    + intros data. apply asks_more_write_file.
  - intros e w1. apply asks_more_same. reflexivity.
Qed.

Lemma asks_more_download_new_post url config soup p :
  preserves asks_more (download_new_post url config soup p).
Proof.
  pose proof asks_more_refl as Hr. pose proof asks_more_trans as Ht.
  unfold download_new_post.
  apply preserves_bind; [exact Ht|apply asks_more_makedirs|]. intros _.
  apply preserves_bind; [exact Ht| |].
  { destruct (save_info_txt config); [|apply preserves_ret, Hr].
    unfold save_post_info. destruct (info_html soup _) as [html interrupted].
    apply preserves_bind; [exact Ht|apply asks_more_write_file|].
    intros _. destruct interrupted; [apply preserves_raise|apply preserves_ret];
      exact Hr. }
  intros _. apply preserves_bind; [exact Ht| |].
  { apply preserves_download_files; [exact Hr|exact Ht|].
    intros t. apply asks_more_download_file. }
  intros _. apply preserves_bind; [exact Ht| |].
  { apply preserves_download_attachments_and_videos; [exact Hr|exact Ht|].
    intros failed t. apply asks_more_download_file. }
  intros _ w. apply asks_more_same. reflexivity.
Qed.

(** [download_content] requests the page of the post first, whatever
    comes of it. *)
Lemma download_content_asks url config w :
  exists more,
    requests (snd (download_content url config w)) = requests w ++ url :: more.
Proof.
  assert (forall (m : M unit),
             preserves asks_more m ->
             exists more, requests (snd (m (log_request url w)))
                          = requests w ++ url :: more) as Hafter.
  { intros m Hm. destruct (Hm (log_request url w)) as (more & Hmore).
    exists more. rewrite Hmore. simpl. rewrite <- app_assoc. reflexivity. }
  unfold download_content, try_except, download_try, bind at 1, fetch.
  destruct (remote url) as [html|chunked].
  - set (rest := do post_path <- lift (post_path_of url (post_soup html));
                 fun w1 => if path_there post_path w1
                           then act (print (MsgFolderExists post_path)) w1
                           else download_new_post url config (post_soup html)
                                  post_path w1).
    assert (preserves asks_more rest) as Hrest.
    { unfold rest.
      apply preserves_bind;
        [exact asks_more_trans|apply preserves_lift, asks_more_refl|].
      intros post_path w1. destruct (path_there post_path w1).
      - apply asks_more_same. reflexivity.
      - apply asks_more_download_new_post. }
    destruct (Hafter rest Hrest) as (more & Hmore).
    fold rest. destruct (rest (log_request url w)) as [[[]|e] w2]; cbn [fst snd] in *.
    + eauto.
    + destruct (is_RequestException e); [destruct e|]; eauto.
  - exists []. destruct chunked; reflexivity.
Qed.

(** The loop over the posts requests the page of its first post, and
    when it ends without exception it has requested the pages of all
    of them, in order. *)
Lemma download_posts_asks config posts : forall w,
  exists more,
    requests (snd (download_posts config posts w)) = requests w ++ more
    /\ (forall post rest, posts = post :: rest -> exists later, more = link post :: later)
    /\ (fst (download_posts config posts w) = Ok tt ->
        (link <$> posts) `sublist_of` more).
Proof.
  induction posts as [|post posts IH]; intros w.
  - exists []. simpl. rewrite app_nil_r. split; [reflexivity|].
    split; [intros ? ? H; discriminate H|]. intros _. constructor.
  - cbn [download_posts]. unfold bind.
    destruct (download_content_asks (link post) config w) as (more1 & H1).
    destruct (download_content (link post) config w) as [[[]|e] w1]; cbn [fst snd] in *.
    + destruct (IH w1) as (more2 & H2 & _ & Hall).
      exists (link post :: more1 ++ more2).
      rewrite H2, H1, <- app_assoc. split; [reflexivity|]. split.
      * intros p r Heq. injection Heq as <- _. eauto.
      * intros Hok. rewrite fmap_cons. apply sublist_skip.
        apply sublist_inserts_l. exact (Hall Hok).
    + exists (link post :: more1). split; [exact H1|]. split.
      * intros p r Heq. injection Heq as <- _. eauto.
      * discriminate.
Qed.

(** C6. When the loop has gone round [n] times and the request for the
    next listing page fails with a request exception, the loop ends
    without an exception and [all_posts] is what it was: the posts of
    the [n] pages before, each of which was served and gave at least
    one post.  The script then filters and downloads these posts: it
    writes the filtered posts to the index file and requests the page
    of the first of them; when it ends without exception it has
    requested the pages of all of them, in order, and its last line
    tells their number. *)
Theorem page_failure_keeps_collected_posts
    (config : config) (base_url : string) (w0 : world)
    (n : nat) (v : walker) (w : world) (chunked : bool) (fuel : nat) :
  reaches base_url w0 n v w ->
  remote (page_url base_url (Z.of_nat n)) = Fails chunked ->
  (n < fuel)%nat ->
  let w' := print (MsgFailedPage (Z.of_nat n))
              (log_request (page_url base_url (Z.of_nat n)) w) in
  let posts := flat_map (page_posts base_url) (seq 0 n) in
  walk_loop fuel base_url walker_start w0 = Some (Ok tt, v, w')
  /\ all_posts v = posts
  /\ (forall i, (i < n)%nat ->
        page_served base_url i /\ page_posts base_url i <> [])
  /\ main fuel config base_url w0 = Some (filter_and_download config posts w')
  /\ exists r w'' more,
       main fuel config base_url w0 = Some (r, w'')
       /\ index_file w'' = Some (filter_posts config posts)
       /\ requests w'' = requests w' ++ more
       /\ (forall post rest,
             filter_posts config posts = post :: rest ->
             exists later, more = link post :: later)
       /\ (r = Ok tt ->
           (link <$> filter_posts config posts) `sublist_of` more
           /\ exists w3,
                w'' = print (MsgSummary (length (filter_posts config posts))) w3).
Proof.
  intros Hreach Hfail Hfuel w' posts.
  destruct (reaches_inv _ _ _ _ _ Hreach) as (Hpn & Hposts & Hserved & Hw).
  assert (walk_loop fuel base_url walker_start w0 = Some (Ok tt, v, w')) as Hwalk.
  { replace fuel with (n + S (fuel - S n))%nat by lia.
    rewrite (walk_loop_reaches _ _ _ _ _ Hreach). simpl.
    rewrite <- Hpn in Hfail. rewrite (walk_round_fails _ _ _ _ Hfail).
    unfold w'. rewrite Hpn. reflexivity. }
  assert (main fuel config base_url w0 = Some (filter_and_download config posts w'))
    as Hmain.
  { unfold main. rewrite Hwalk, Hposts. reflexivity. }
  split; [exact Hwalk|]. split; [exact Hposts|]. split.
  { intros i Hi. split; [|apply page_served_posts]; apply Hserved; exact Hi. }
  split; [exact Hmain|].
  rewrite Hmain. unfold filter_and_download, save_posts_to_file, bind, act.
  set (filtered := filter_posts config posts).
  set (w1 := {| folders := folders w'; index_file := Some filtered;
                requests := requests w'; printed := printed w' |}).
  destruct (download_posts_asks config filtered w1) as (more & Hmore & Hfirst & Hall).
  pose proof (grows_download_posts config filtered w1) as (_ & Hindex).
  destruct (download_posts config filtered w1) as [[[]|e] w2]; cbn [fst snd] in *.
  - exists (Ok tt), (print (MsgSummary (length filtered)) w2), more.
    split; [reflexivity|]. split; [exact Hindex|]. split; [exact Hmore|].
    split; [exact Hfirst|]. intros _. split; [exact (Hall eq_refl)|eauto].
  - exists (Raise e), w2, more.
    split; [reflexivity|]. split; [exact Hindex|]. split; [exact Hmore|].
    split; [exact Hfirst|]. discriminate.
Qed.

End PageFailure.

Lemma page_failure_keeps_collected_posts_witness :
  let post := {| link := Site.post_url "10"; title := "Ten";
                 attachments := "No attachments"; date := "No date available";
                 image := "No image available" |} in
  exists v w,
    reaches (E := Site.env) (Site.profile "2") Site.nothing 1 v w
    /\ @remote Site.env (page_url (Site.profile "2") (Z.of_nat 1)) = Fails false
    /\ (1 < 2)%nat
    /\ all_posts v = [post]
    /\ filter_posts Site.all_on [post] = [post]
    /\ exists r w'' later,
         main (E := Site.env) 2 Site.all_on (Site.profile "2") Site.nothing
         = Some (r, w'')
         /\ index_file w'' = Some [post]
         /\ requests w''
            = (Site.profile "2" +:+ "?o=0") :: (Site.profile "2" +:+ "?o=50")
                :: Site.post_url "10" :: later.
Proof.
  intros post. eexists. eexists.
  split.
  { eapply reaches_next; [apply reaches_start|]. vm_compute. reflexivity. }
  split; [vm_compute; reflexivity|]. split; [lia|].
  match goal with
  | |- all_posts ?v = _ /\ _ =>
      destruct (page_failure_keeps_collected_posts (E := Site.env) Site.all_on
                  (Site.profile "2") Site.nothing 1 v
                  (log_request (page_url (Site.profile "2") 0) Site.nothing) false 2)
        as (_ & Hposts & _ & _ & r & w'' & more & Hmain & Hindex & Hreq & Hfirst & _)
  end.
  - eapply reaches_next; [apply reaches_start|]. vm_compute. reflexivity.
  - vm_compute. reflexivity.
  - lia.
  - assert (flat_map (page_posts (E := Site.env) (Site.profile "2")) (seq 0 1) = [post])
      as Hpage by (vm_compute; reflexivity).
    rewrite Hpage in *.
    assert (filter_posts Site.all_on [post] = [post]) as Hfilter
      by (vm_compute; reflexivity).
    rewrite Hfilter in *.
    split; [exact Hposts|]. split; [reflexivity|].
    destruct (Hfirst post [] eq_refl) as (later & ->).
    exists r, w'', later. split; [exact Hmain|]. split; [exact Hindex|].
    rewrite Hreq. vm_compute. reflexivity.
Defined.

(** ** What the operating system refuses, on the example site *)

(** Two links resolve to the same file name of 254 characters.  The
    first body is written under it; the duplicate name that the second
    one gets has 265 characters, the operating system refuses it, and
    the loop ends in the [OSError] with one file in the folder. *)
Example long_duplicate_name_is_refused :
  let path := "Kemono/alice-patreon/posts/12" in
  let w := snd (makedirs (E := Tables.long_env) path Site.nothing) in
  let after := download_files (E := Tables.long_env) MsgFailedImage path
                 [Site.link_to (Tables.long_url "aa");
                  Site.link_to (Tables.long_url "bb")] w in
  get_filename_from_url (E := Tables.long_env) (Tables.long_url "aa")
  = Ok Tables.long_name
  /\ get_filename_from_url (E := Tables.long_env) (Tables.long_url "bb")
     = Ok Tables.long_name
  /\ String.length Tables.long_name = 254%nat
  /\ String.length
       (ensure_unique_filename
          (<[Tables.long_name := File "bytes of aa"]> new_folder) Tables.long_name)
     = 265%nat
  /\ fst after = Raise OSError
  /\ folder_at path (snd after)
     = <[Tables.long_name := File "bytes of aa"]> new_folder
  /\ requests (snd after) = [Tables.long_url "aa"; Tables.long_url "bb"].
Proof.
  intros path w after.
  split; [vm_compute; reflexivity|]. split; [vm_compute; reflexivity|].
  split; [vm_compute; reflexivity|]. split; [vm_compute; reflexivity|].
  split; [vm_compute; reflexivity|]. split; vm_compute; reflexivity.
Qed.

(** A post whose id is the parent directory: [os.makedirs] is refused,
    the call ends in the [OSError] after the request for the page, and
    no folder is made. *)
Example parent_directory_as_post_id_is_refused :
  let url := "https://kemono.su/patreon/user/1/post/1" in
  let env := Tables.env [(url, "post")] [] [("post", Site.post (Some "..") [])] in
  post_path_of (E := env) url (@post_soup env "post")
  = Ok "Kemono/alice-patreon/posts/.."
  /\ download_content (E := env) url Site.all_on Site.nothing
     = (Raise OSError, log_request url Site.nothing).
Proof. vm_compute. split; reflexivity. Qed.
